(** * Massachusetts Open Checkbook: the cleaning and aggregation pipeline

    A shallow embedding of the data-loading functions and of the derived
    views of [eda_analysis.py], [dashboard.py] and [generate_report.py],
    with the properties the specification states about them, followed by
    further properties of the loaders, of the views that count (BQ3 to
    BQ5, BQ7, BQ9 to BQ11) and of the figures of the dashboard's header.

    Conventions of the embedding.
    - A float is an IEEE-754 binary64 value ([spec_float] at precision 53);
      a missing value is the float NaN, as in a pandas float column.
    - A string is a [string] of 8-bit characters; [lower] maps A-Z to a-z.
    - A workbook is the list of frames the reader hands back, one per sheet:
      a width and the rows of cells under it.
    - A raising call returns [Raise e]; the loops stop at the first one.
    - A view is the frame it computes, before any drawing. The sorting
      routine of [sort_values] and the numeric routines of the
      libraries are parameters: the first comes with the contract of a
      sort that is not stable (on floats and on counts), the others
      with none; what [linregress] refuses is written out. *)

From Stdlib Require Import ZArith String Ascii Bool Lia SpecFloat DecimalString.
From Stdlib Require Import List Permutation Sorted.
From Stdlib Require OrderedTypeEx.
Import ListNotations.

Local Open Scope string_scope.
Local Open Scope bool_scope.
Local Open Scope list_scope.

(* ------------------------------------------------------------------ *)
(** ** Floats *)

Module Float.

Definition float := spec_float.

Definition prec : Z := 53.
Definition emax : Z := 1024.

Definition nan : float := S754_nan.
Definition inf : float := S754_infinity false.
Definition neg_inf : float := S754_infinity true.
Definition zero : float := S754_zero false.

(** An integer as the nearest float (ties to even). *)
Definition of_Z (z : Z) : float := binary_normalize prec emax z 0 false.

Definition one : float := Eval vm_compute in of_Z 1.
Definition ten : float := Eval vm_compute in of_Z 10.

Definition add : float -> float -> float := SFadd prec emax.
Definition mul : float -> float -> float := SFmul prec emax.
Definition div : float -> float -> float := SFdiv prec emax.
Definition opp : float -> float := SFopp.

(** The comparisons of the language: all false on NaN. *)
Definition eqb : float -> float -> bool := SFeqb.
Definition ltb : float -> float -> bool := SFltb.
Definition leb : float -> float -> bool := SFleb.
Definition gtb (x y : float) : bool := SFltb y x.

Definition isnan (x : float) : bool :=
  match x with S754_nan => true | _ => false end.

Definition isinf (x : float) : bool :=
  match x with S754_infinity _ => true | _ => false end.

Definition isfinite (x : float) : bool :=
  match x with S754_zero _ | S754_finite _ _ _ => true | _ => false end.

End Float.

Abbreviation float := Float.float.

(* ------------------------------------------------------------------ *)
(** ** Strings *)

Module Str.

Definition chars : string -> list ascii := list_ascii_of_string.
Definition of_chars : list ascii -> string := string_of_list_ascii.

Definition code (c : ascii) : N := N_of_ascii c.

(** [str.isspace] on one character: tab to carriage return, the four
    separators 28..31, and the space. *)
Definition isspace (c : ascii) : bool :=
  let n := code c in
  ((9 <=? n) && (n <=? 13) || (28 <=? n) && (n <=? 31) || (n =? 32))%N.

Definition lower_char (c : ascii) : ascii :=
  let n := code c in
  if ((65 <=? n) && (n <=? 90))%N then ascii_of_N (n + 32) else c.

Fixpoint lower (s : string) : string :=
  match s with
  | EmptyString => EmptyString
  | String c t => String (lower_char c) (lower t)
  end.

Fixpoint lstrip (s : string) : string :=
  match s with
  | String c t => if isspace c then lstrip t else s
  | EmptyString => EmptyString
  end.

(** Drops the trailing white space: a character stays when it is not a
    space or when something stays after it. *)
Fixpoint rstrip (s : string) : string :=
  match s with
  | EmptyString => EmptyString
  | String c t =>
      match rstrip t with
      | EmptyString => if isspace c then EmptyString else String c EmptyString
      | t' => String c t'
      end
  end.

(** [s.strip()] *)
Definition strip (s : string) : string := rstrip (lstrip s).

(** [s.replace(a, b)] for one-character [a] and [b]. *)
Fixpoint replace (a b : ascii) (s : string) : string :=
  match s with
  | EmptyString => EmptyString
  | String c t => String (if Ascii.eqb c a then b else c) (replace a b t)
  end.

(** [needle in hay] *)
Fixpoint contains (needle hay : string) : bool :=
  prefix needle hay
  || match hay with
     | EmptyString => false
     | String _ t => contains needle t
     end.

Definition newline : ascii := ascii_of_N 10.
Definition space : ascii := " "%char.

(** [x in xs] for a list of strings. *)
Definition mem (x : string) (xs : list string) : bool :=
  existsb (String.eqb x) xs.

End Str.

(* ------------------------------------------------------------------ *)
(** ** Text to float: the numeric parser behind [pd.to_numeric]

    [floatify] of pandas' parser: [to_double] (the routine
    [precise_xstrtod]) first, then the spellings of infinity. *)

Module Parse.
Import Float.
Local Open Scope Z_scope.

Definition isspace_ascii (c : ascii) : bool :=
  let n := Str.code c in ((n =? 32) || (9 <=? n) && (n <=? 13))%N.

Definition isdigit_ascii (c : ascii) : bool :=
  let n := Str.code c in ((48 <=? n) && (n <=? 57))%N.

Definition digit_val (c : ascii) : Z := Z.of_N (Str.code c) - 48.

Definition max_digits : nat := 17%nat.

(** The cached powers of ten [e[k]], each the float nearest to 10^k. *)
Definition e10 (k : Z) : float := of_Z (10 ^ k).

Fixpoint skip_space (p : list ascii) : list ascii :=
  match p with
  | c :: t => if isspace_ascii c then skip_space t else p
  | [] => []
  end.

(** The integer digits: the first [max_digits] go into [number], each
    later one raises the exponent. State: number, digits seen, exponent. *)
Fixpoint int_digits (p : list ascii) (number : float) (num_digits : nat)
         (exponent : Z) : list ascii * float * nat * Z :=
  match p with
  | c :: t =>
      if isdigit_ascii c then
        if (num_digits <? max_digits)%nat
        then int_digits t (add (mul number ten) (of_Z (digit_val c)))
                        (S num_digits) exponent
        else int_digits t number num_digits (exponent + 1)
      else (p, number, num_digits, exponent)
  | [] => ([], number, num_digits, exponent)
  end.

(** The decimals, while fewer than [max_digits] digits were taken. *)
Fixpoint frac_digits (p : list ascii) (number : float) (num_digits : nat)
         (num_decimals : Z) : list ascii * float * nat * Z :=
  match p with
  | c :: t =>
      if (num_digits <? max_digits)%nat && isdigit_ascii c
      then frac_digits t (add (mul number ten) (of_Z (digit_val c)))
                       (S num_digits) (num_decimals + 1)
      else (p, number, num_digits, num_decimals)
  | [] => ([], number, num_digits, num_decimals)
  end.

Fixpoint skip_digits (p : list ascii) : list ascii :=
  match p with
  | c :: t => if isdigit_ascii c then skip_digits t else p
  | [] => []
  end.

(** The digits of the exponent, at most [max_digits] of them. *)
Fixpoint exp_digits (p : list ascii) (n : Z) (num_digits : nat)
  : list ascii * Z * nat :=
  match p with
  | c :: t =>
      if (num_digits <? max_digits)%nat && isdigit_ascii c
      then exp_digits t (n * 10 + digit_val c) (S num_digits)
      else (p, n, num_digits)
  | [] => ([], n, num_digits)
  end.

Definition is_char (a : ascii) (c : ascii) : bool := Ascii.eqb a c.

(** An optional sign: the rest and whether it was a minus. *)
Definition sign (p : list ascii) : list ascii * bool :=
  match p with
  | c :: t =>
      if is_char "-" c then (t, true)
      else if is_char "+" c then (t, false)
      else (p, false)
  | [] => ([], false)
  end.

(** Scaling by the decimal exponent; [None] is the range error. *)
Definition scale (number : float) (exponent : Z) : option float :=
  if (308 <? exponent)%Z then None
  else
    let number :=
      if (0 <? exponent)%Z then mul number (e10 exponent)
      else if (exponent <? -308)%Z then
        if (exponent <? -616)%Z then zero
        else div (div number (e10 (-308 - exponent))) (e10 308)
      else div number (e10 (- exponent)) in
    if isinf number then None else Some number.

(** [to_double]: the parsed value when the whole text is one number
    (white space around it allowed), [None] on any error. An exponent
    mark with no digit after it is given back, so the text does not end
    where the number does. *)
Definition to_double (s : string) : option float :=
  let p := skip_space (Str.chars s) in
  let '(p, negative) := sign p in
  let '(p, number, num_digits, exponent) := int_digits p zero 0%nat 0 in
  let '(p, number, num_digits, exponent) :=
    match p with
    | c :: t =>
        if is_char "." c then
          let '(p, number, num_digits, num_decimals) :=
            frac_digits t number num_digits 0 in
          let p := if (max_digits <=? num_digits)%nat then skip_digits p else p in
          (p, number, num_digits, exponent - num_decimals)
        else (p, number, num_digits, exponent)
    | [] => (p, number, num_digits, exponent)
    end in
  if (num_digits =? 0)%nat then None
  else
    let number := if negative then opp number else number in
    let '(p, exponent) :=
      match p with
      | c :: t =>
          if is_char "e" c || is_char "E" c then
            let '(p', neg) := sign t in
            let '(p', n, nd) := exp_digits p' 0 0%nat in
            if (nd =? 0)%nat then (p, exponent)
            else (p', if neg then exponent - n else exponent + n)
          else (p, exponent)
      | [] => (p, exponent)
      end in
    match scale number exponent with
    | None => None
    | Some number =>
        match skip_space p with
        | [] => Some number
        | _ :: _ => None
        end
    end.

(** The spellings of infinity accepted when [to_double] fails,
    compared without regard to case. *)
Definition infinity_name (s : string) : option float :=
  let l := Str.lower s in
  if String.eqb l "inf" || String.eqb l "+inf"
     || String.eqb l "infinity" || String.eqb l "+infinity" then Some inf
  else if String.eqb l "-inf" || String.eqb l "-infinity" then Some neg_inf
  else None.

(** [floatify]: [None] stands for the parsing error. *)
Definition floatify (s : string) : option float :=
  match to_double s with
  | Some x => Some x
  | None => infinity_name s
  end.

End Parse.

(* ------------------------------------------------------------------ *)
(** ** Workbooks, frames and exceptions *)

(** What a cell of a frame holds: nothing (NaN), a float, an integer, a
    boolean or a text. A sheet stores its numbers as floats, and the
    reader hands the whole ones back as integers. *)
Inductive cell :=
| CNaN
| CFloat (f : float)
| CInt (z : Z)
| CBool (b : bool)
| CStr (s : string).

(** The frame read from one sheet: [width] columns over [rows]. *)
Record sheet := {
  sheet_name : string;
  width : nat;
  rows : list (list cell)
}.

(** [pd.ExcelFile(filepath)] either raises or gives the sheets in
    workbook order. *)
Inductive file :=
| Unreadable
| Workbook (sheets : list sheet).

(** The exceptions the loaders and the views can raise. *)
Inductive exn :=
| OpenError          (* the workbook cannot be opened *)
| LengthMismatch     (* ValueError: 7 column names for fewer columns *)
| NoObjects          (* ValueError: No objects to concatenate *)
| IndexOutOfBounds   (* IndexError: single positional indexer is out-of-bounds *)
| KeyMissing         (* KeyError: a column that does not exist *)
| IdenticalValues.   (* ValueError: all x values are identical *)

Inductive result (A : Type) :=
| Ok (a : A)
| Raise (e : exn).

Arguments Ok {A} a.
Arguments Raise {A} e.

Definition bind {A B} (r : result A) (k : A -> result B) : result B :=
  match r with
  | Ok a => k a
  | Raise e => Raise e
  end.

Notation "x <- r ;; k" := (bind r (fun x => k))
  (at level 61, r at next level, right associativity).

Definition raises {A} (r : result A) : Prop := exists e, r = Raise e.

(** [df.iloc[:, :n]]: a slice never raises. *)
Definition iloc_cols (n : nat) (s : sheet) : sheet :=
  {| sheet_name := sheet_name s;
     width := Nat.min n (width s);
     rows := map (firstn n) (rows s) |}.

(** [df.iloc[k:, c]]: an integer position past the last column raises. *)
Definition iloc_col (k c : nat) (s : sheet) : result (list cell) :=
  if (c <? width s)%nat
  then Ok (map (fun r => nth c r CNaN) (skipn k (rows s)))
  else Raise IndexOutOfBounds.

(** [df[mask]] *)
Definition select {A} (mask : list bool) (df : list A) : list A :=
  map fst (filter snd (combine df mask)).

(** [df[mask].copy()], as the loaders use it: on a frame with rows the
    rows where the mask holds. A frame without rows gives a mask without
    values (what [apply] returns on an empty column is an empty column of
    objects), which is not taken for a boolean mask but for an empty list
    of column labels: the frame that comes back has no column, and the
    read of the commitment column on the next line raises [KeyError]. *)
Definition getitem_mask {A} (mask : list bool) (df : list A) : result (list A) :=
  match mask with
  | [] => Raise KeyMissing
  | _ :: _ => Ok (select mask df)
  end.

Definition isna (c : cell) : bool :=
  match c with
  | CNaN => true
  | CFloat f => Float.isnan f
  | _ => false
  end.

(** [pd.to_numeric(column, errors='coerce')] on one value: numbers stay,
    the empty text and any text that does not parse give NaN. *)
Definition to_numeric (c : cell) : float :=
  match c with
  | CNaN => Float.nan
  | CFloat f => f
  | CInt z => Float.of_Z z
  | CBool b => if b then Float.one else Float.zero
  | CStr s =>
      match s with
      | EmptyString => Float.nan
      | _ => match Parse.floatify s with
             | Some x => x
             | None => Float.nan
             end
      end
  end.

Definition SKIP_SHEETS : list string := ["Abbreviations "].

Definition skipped (name : string) : bool :=
  Str.mem (Str.strip name) (map Str.strip SKIP_SHEETS).

Definition metadata_keywords : list string :=
  [ "Master Contract"; "Solicitation Enabled"; "Master MBPO";
    "Bid and Contract"; "Category and Vendor"; "Category Development";
    "Mass Gov"; "OSD Help Desk"; "N/A" ].

Definition CATEGORY_NAMES : list (string * string) :=
  [ ("ITE", "IT Equipment & Services");
    ("ITS", "IT Software & Services");
    ("ITT", "Telecom & Networking");
    ("FAC", "Facilities General");
    ("VEH", "Vehicle Acquisition & Maint.");
    ("GRO", "Food & Food Service");
    ("LND", "Facility Landscaping");
    ("MED", "Health & Medical");
    ("MRO", "Maintenance, Repair & Ops");
    ("OFF", "Office Supplies");
    ("PRF", "Professional Services");
    ("PSE", "Public Safety & Security");
    ("SFC", "Sustainable Facilities");
    ("TRD", "Tradespersons");
    ("WMR", "Waste Mgmt & Recycling") ].

(** [d.get(k)] *)
Fixpoint dict_get (d : list (string * string)) (k : string) : option string :=
  match d with
  | [] => None
  | (k', v) :: rest => if String.eqb k k' then Some v else dict_get rest k
  end.

(** [CATEGORY_NAMES.get(code, code)] *)
Definition get_category_label (code : string) : string :=
  match dict_get CATEGORY_NAMES code with
  | Some v => v
  | None => code
  end.

(** The frame after the seven columns got their names. *)
Record raw_row := {
  raw_Contract_Code : cell;
  raw_Name : cell;
  raw_Company : cell;
  raw_Role : cell;
  raw_Email : cell;
  raw_Phone : cell;
  raw_SDO : cell
}.

Definition name_row (r : list cell) : raw_row :=
  {| raw_Contract_Code := nth 0 r CNaN;
     raw_Name := nth 1 r CNaN;
     raw_Company := nth 2 r CNaN;
     raw_Role := nth 3 r CNaN;
     raw_Email := nth 4 r CNaN;
     raw_Phone := nth 5 r CNaN;
     raw_SDO := nth 6 r CNaN |}.

(** [df.columns = [...]] with seven names. *)
Definition set_columns (s : sheet) : result (list raw_row) :=
  if (width s =? 7)%nat then Ok (map name_row (rows s))
  else Raise LengthMismatch.

(** A row of the vendor table of the EDA script and of the report. *)
Record vendor_row := {
  Contract_Code : string;
  Name : string;
  Company : string;
  Role : cell;
  Email : cell;
  Phone : cell;
  SDO_Commitment_Pct : float;
  Category : string
}.

(** A row of the dashboard's vendor table: the same columns (the
    commitment is named [SDO_Pct] there) and the label. *)
Record dash_row := {
  base : vendor_row;
  Category_Label : option string
}.

Inductive company_type := NationalAndLocal | Local | SgcTarget.

Record categorized_row := {
  Industry : string;
  Cat_Company : string;
  Type_ : company_type
}.

(* ------------------------------------------------------------------ *)
(** ** What the loaders share *)

Section Pandas.

(** [str(x)] of a float is the interpreter's shortest round-trip
    rendering; it is taken as given. *)
Variable float_str : float -> string.

(** [str(x)], which [astype(str)] applies to every value. *)
Definition py_str (c : cell) : string :=
  match c with
  | CNaN => "nan"
  | CFloat f => float_str f
  | CInt z => DecimalString.NilZero.string_of_int (Z.to_int z)
  | CBool b => if b then "True" else "False"
  | CStr s => s
  end.

(** [column.astype(str)] *)
Definition astype_str (col : list cell) : list string := map py_str col.

(** [column.str.replace('\n', ' ', regex=False).str.strip()] *)
Definition clean_text (col : list string) : list string :=
  map Str.strip (map (Str.replace Str.newline Str.space) col).

(** [pd.to_numeric(column, errors='coerce')] *)
Definition to_numeric_col (col : list cell) : list float := map to_numeric col.

(** The vendor frame of one sheet once its columns are cleaned; the
    five columns have one value per row. *)
Fixpoint assemble (category : string) (df : list raw_row)
         (sdo : list float) (company name code : list string)
  : list vendor_row :=
  match df, sdo, company, name, code with
  | r :: df', x :: sdo', c :: company', n :: name', k :: code' =>
      {| Contract_Code := k; Name := n; Company := c;
         Role := raw_Role r; Email := raw_Email r; Phone := raw_Phone r;
         SDO_Commitment_Pct := x; Category := category |}
      :: assemble category df' sdo' company' name' code'
  | _, _, _, _, _ => []
  end.

Definition clean_columns (category : string) (df : list raw_row)
  : list vendor_row :=
  let sdo := to_numeric_col (map raw_SDO df) in
  let company := clean_text (astype_str (map raw_Company df)) in
  let name := clean_text (astype_str (map raw_Name df)) in
  let code := clean_text (astype_str (map raw_Contract_Code df)) in
  assemble category df sdo company name code.

(** [pd.concat(frames, ignore_index=True)] *)
Definition pd_concat {A} (frames : list (list A)) : result (list A) :=
  match frames with
  | [] => Raise NoObjects
  | _ => Ok (List.concat frames)
  end.

(** The loop over the sheets: a skipped sheet is not read. *)
Fixpoint for_sheets {A} (body : sheet -> result (list A)) (sheets : list sheet)
  : result (list (list A)) :=
  match sheets with
  | [] => Ok []
  | s :: rest =>
      if skipped (sheet_name s) then for_sheets body rest
      else
        df <- body s ;;
        frames <- for_sheets body rest ;;
        Ok (df :: frames)
  end.

(** [df.iloc[2:, c].dropna().astype(str).str.strip().tolist()] *)
Definition company_list (s : sheet) (c : nat) : result (list string) :=
  col <- iloc_col 2 c s ;;
  Ok (map Str.strip (astype_str (filter (fun x => negb (isna x)) col))).

(** [if company and company != 'nan'] *)
Definition keep_company (company : string) : bool :=
  negb (String.eqb company "") && negb (String.eqb company "nan").

(** The records appended for one bucket. *)
Definition records (industry : string) (typ : company_type)
           (companies : list string) : list categorized_row :=
  map (fun c => {| Industry := industry; Cat_Company := c; Type_ := typ |})
      (filter keep_company companies).

(** The loop of the categorized loaders visits every sheet. *)
Fixpoint for_all_sheets {A} (body : sheet -> result (list A)) (sheets : list sheet)
  : result (list A) :=
  match sheets with
  | [] => Ok []
  | s :: rest =>
      here <- body s ;;
      after <- for_all_sheets body rest ;;
      Ok (here ++ after)
  end.

(** [for col_idx, typ in [...]] on one sheet. *)
Fixpoint for_buckets (s : sheet) (industry : string)
         (buckets : list (nat * company_type)) : result (list categorized_row) :=
  match buckets with
  | [] => Ok []
  | (col_idx, typ) :: rest =>
      companies <- company_list s col_idx ;;
      after <- for_buckets s industry rest ;;
      Ok (records industry typ companies ++ after)
  end.

End Pandas.

(* ------------------------------------------------------------------ *)
(** ** The loaders of [eda_analysis.py] *)

Module Eda.
Section Loaders.

Variable float_str : float -> string.

(** The body of the loop of [load_vendor_data], for one retained sheet. *)
Definition vendor_sheet (s : sheet) : result (list vendor_row) :=
  df <- set_columns (iloc_cols 7 s) ;;
  let category := Str.strip (sheet_name s) in
  let mask :=
    map (fun x => negb (existsb (fun kw => Str.contains (Str.lower kw) (Str.lower x))
                                metadata_keywords))
        (astype_str float_str (map raw_Company df)) in
  df <- getitem_mask mask df ;;
  Ok (clean_columns float_str category df).

Definition load_vendor_data (f : file) : result (list vendor_row) :=
  match f with
  | Unreadable => Raise OpenError
  | Workbook sheets =>
      frames <- for_sheets vendor_sheet sheets ;;
      pd_concat frames
  end.

(** The body of the loop of [load_categorized_companies]: the three
    lists are extracted before anything is appended. *)
Definition categorized_sheet (s : sheet) : result (list categorized_row) :=
  let industry := Str.strip (sheet_name s) in
  national_local <- company_list float_str s 1 ;;
  local_only <- company_list float_str s 2 ;;
  sgc_target <- company_list float_str s 3 ;;
  Ok (records industry NationalAndLocal national_local
      ++ records industry Local local_only
      ++ records industry SgcTarget sgc_target).

(** The script prints the number of industries of the combined frame,
    which has no column at all when no record was appended. *)
Definition load_categorized_companies (f : file) : result (list categorized_row) :=
  match f with
  | Unreadable => Raise OpenError
  | Workbook sheets =>
      frames <- for_all_sheets categorized_sheet sheets ;;
      match frames with
      | [] => Raise KeyMissing
      | _ => Ok frames
      end
  end.

End Loaders.
End Eda.

(* ------------------------------------------------------------------ *)
(** ** The loaders of [dashboard.py] *)

Module Dashboard.
Section Loaders.

Variable float_str : float -> string.

(** The body of the loop of [load_vendor_data]: [str] is applied inside
    the mask, and the label column is added at the end. *)
Definition vendor_sheet (s : sheet) : result (list dash_row) :=
  df <- set_columns (iloc_cols 7 s) ;;
  let category := Str.strip (sheet_name s) in
  let mask :=
    map (fun x => negb (existsb (fun kw => Str.contains (Str.lower kw)
                                                        (Str.lower (py_str float_str x)))
                                metadata_keywords))
        (map raw_Company df) in
  df <- getitem_mask mask df ;;
  let df := clean_columns float_str category df in
  Ok (map (fun r => {| base := r;
                       Category_Label := dict_get CATEGORY_NAMES (Category r) |})
          df).

Definition load_vendor_data (f : file) : result (list dash_row) :=
  match f with
  | Unreadable => Raise OpenError
  | Workbook sheets =>
      frames <- for_sheets vendor_sheet sheets ;;
      pd_concat frames
  end.

Definition categorized_sheet (s : sheet) : result (list categorized_row) :=
  for_buckets float_str s (Str.strip (sheet_name s))
              [(1, NationalAndLocal); (2, Local); (3, SgcTarget)]%nat.

Definition load_categorized_companies (f : file) : result (list categorized_row) :=
  match f with
  | Unreadable => Raise OpenError
  | Workbook sheets => for_all_sheets categorized_sheet sheets
  end.

End Loaders.
End Dashboard.

(* ------------------------------------------------------------------ *)
(** ** The loaders of [generate_report.py] *)

Module Report.
Section Loaders.

Variable float_str : float -> string.

Definition vendor_sheet (s : sheet) : result (list vendor_row) :=
  df <- set_columns (iloc_cols 7 s) ;;
  let category := Str.strip (sheet_name s) in
  let mask :=
    map (fun x => negb (existsb (fun kw => Str.contains (Str.lower kw) (Str.lower x))
                                metadata_keywords))
        (astype_str float_str (map raw_Company df)) in
  df <- getitem_mask mask df ;;
  Ok (clean_columns float_str category df).

Definition load_vendor_data (f : file) : result (list vendor_row) :=
  match f with
  | Unreadable => Raise OpenError
  | Workbook sheets =>
      frames <- for_sheets vendor_sheet sheets ;;
      pd_concat frames
  end.

Definition categorized_sheet (s : sheet) : result (list categorized_row) :=
  for_buckets float_str s (Str.strip (sheet_name s))
              [(1, NationalAndLocal); (2, Local); (3, SgcTarget)]%nat.

Definition load_categorized_companies (f : file) : result (list categorized_row) :=
  match f with
  | Unreadable => Raise OpenError
  | Workbook sheets => for_all_sheets categorized_sheet sheets
  end.

End Loaders.
End Report.
(* ------------------------------------------------------------------ *)
(** ** Frames: group keys, boolean filters, sorting *)

Definition table := list vendor_row.

(** [series.isin(values)] on one value. *)
Definition isin (values : list string) (x : string) : bool := Str.mem x values.

Definition IT_CATEGORIES : list string := ["ITE"; "ITS"; "ITT"].

(** [series.clip(upper=u)] on one value: NaN stays NaN. *)
Definition clip_upper (u x : float) : float :=
  if Float.isnan x then Float.nan
  else if Float.leb x u then x else u.

(** The capped value, [clip(upper=1.0)]. *)
Definition cap (x : float) : float := clip_upper Float.one x.

(** A row with the added column [SDO_Capped]. *)
Record capped (A : Type) := {
  row : A;
  SDO_Capped : float
}.
Arguments row {A} c.
Arguments SDO_Capped {A} c.

(** [df.dropna(subset=[sdo])] then [df[df[sdo] > 0]]: the SDO-eligible rows. *)
Definition dropna {A} (sdo : A -> float) (df : list A) : list A :=
  filter (fun r => negb (Float.isnan (sdo r))) df.

Definition positive {A} (sdo : A -> float) (df : list A) : list A :=
  filter (fun r => Float.gtb (sdo r) Float.zero) df.

Definition with_sdo {A} (sdo : A -> float) (df : list A) : list A :=
  positive sdo (dropna sdo df).

Section GroupKeys.
Context {K : Type} (cmp : K -> K -> comparison).

(** A key goes to its place among the keys seen, once. *)
Fixpoint insert_key (k : K) (keys : list K) : list K :=
  match keys with
  | [] => [k]
  | h :: t =>
      match cmp k h with
      | Lt => k :: keys
      | Eq => keys
      | Gt => h :: insert_key k t
      end
  end.

(** The keys of a [groupby]: each once, in increasing order. *)
Definition group_keys (column : list K) : list K :=
  fold_right insert_key [] column.
End GroupKeys.

Definition pair_compare (a b : string * string) : comparison :=
  match String.compare (fst a) (fst b) with
  | Eq => String.compare (snd a) (snd b)
  | c => c
  end.

Definition pair_eqb (a b : string * string) : bool :=
  String.eqb (fst a) (fst b) && String.eqb (snd a) (snd b).

(** [max] of a group: NaN is skipped, a group of NaN gives NaN. *)
Definition group_max (values : list float) : float :=
  match filter (fun v => negb (Float.isnan v)) values with
  | [] => Float.nan
  | valid => fold_left (fun m v => if Float.ltb m v then v else m) valid Float.neg_inf
  end.

(** [nunique] of a column of texts. *)
Definition nunique (values : list string) : nat :=
  length (nodup string_dec values).

(** [df.take(indexer)]; an index past the end selects nothing (the
    indexers below are permutations of the positions). *)
Definition take {A} (indexer : list nat) (df : list A) : list A :=
  flat_map (fun i => match nth_error df i with Some a => [a] | None => [] end)
           indexer.

(** [df.head(n)] and [df.tail(n)] *)
Definition head {A} (n : nat) (df : list A) : list A := firstn n df.
Definition tail {A} (n : nat) (df : list A) : list A := skipn (length df - n) df.

Section Sorting.

(** [values.argsort(kind='quicksort')], the default of [sort_values]:
    the positions in increasing order of the values, in no promised
    order among equal values. *)
Variable argsort : list float -> list nat.

(** [nargsort(items, kind='quicksort', ascending, na_position='last')] *)
Definition nargsort (items : list float) (ascending : bool) : list nat :=
  let idx := seq 0 (length items) in
  let mask := map Float.isnan items in
  let non_nans := select (map negb mask) items in
  let non_nan_idx := select (map negb mask) idx in
  let nan_idx := select mask idx in
  let non_nans := if ascending then non_nans else rev non_nans in
  let non_nan_idx := if ascending then non_nan_idx else rev non_nan_idx in
  let indexer := take (argsort non_nans) non_nan_idx in
  let indexer := if ascending then indexer else rev indexer in
  indexer ++ nan_idx.

(** [df.sort_values(by, ascending=...)] on one float column. *)
Definition sort_values {A} (by_ : A -> float) (ascending : bool) (df : list A)
  : list A :=
  take (nargsort (map by_ df) ascending) df.

(* ---------------------------------------------------------------- *)
(** ** BQ1: top IT companies by commitment *)

Record bq1_row := {
  bq1_Company : string;
  bq1_Category : string;
  SDO_Max : float;
  Contract_Count : nat
}.

Definition bq1_key (r : vendor_row) : string * string := (Company r, Category r).

(** [it_with_sdo.groupby(['Company', 'Category']).agg(SDO_Max=max,
    Contract_Count=nunique).reset_index()] *)
Definition bq1_groups (it_with_sdo : table) : list bq1_row :=
  map (fun k =>
         let g := filter (fun r => pair_eqb (bq1_key r) k) it_with_sdo in
         {| bq1_Company := fst k;
            bq1_Category := snd k;
            SDO_Max := group_max (map SDO_Commitment_Pct g);
            Contract_Count := nunique (map Contract_Code g) |})
      (group_keys pair_compare (map bq1_key it_with_sdo)).

Definition bq1_it_with_sdo (vendor_df : table) : table :=
  let it_df := filter (fun r => isin IT_CATEGORIES (Category r)) vendor_df in
  with_sdo SDO_Commitment_Pct it_df.

(** [eda_analysis.bq1_it_sector_top_sdo]: the frame [top15]. *)
Definition bq1_it_sector_top_sdo (vendor_df : table) : list bq1_row :=
  let company_sdo :=
    sort_values SDO_Max false (bq1_groups (bq1_it_with_sdo vendor_df)) in
  head 15 company_sdo.

(** The dashboard's [vendor_with_sdo], computed once from the table. *)
Definition vendor_with_sdo (vendor_df : list dash_row) : list (capped dash_row) :=
  map (fun r => {| row := r; SDO_Capped := cap (SDO_Commitment_Pct (base r)) |})
      (with_sdo (fun r => SDO_Commitment_Pct (base r)) vendor_df).

Record dash_bq1_row := {
  d1_Company : string;
  d1_Category_Label : string;
  d1_SDO_Max : float
}.

(** A missing label is a missing key: [groupby] leaves the row out. *)
Definition dash_bq1_key (r : capped dash_row) : option (string * string) :=
  match Category_Label (row r) with
  | Some l => Some (Company (base (row r)), l)
  | None => None
  end.

Definition has_key (k : string * string) (r : capped dash_row) : bool :=
  match dash_bq1_key r with
  | Some k' => pair_eqb k' k
  | None => false
  end.

Fixpoint present {A} (l : list (option A)) : list A :=
  match l with
  | [] => []
  | Some a :: t => a :: present t
  | None :: t => present t
  end.

Definition dash_bq1_groups (df : list (capped dash_row)) : list dash_bq1_row :=
  map (fun k =>
         let g := filter (has_key k) df in
         {| d1_Company := fst k;
            d1_Category_Label := snd k;
            d1_SDO_Max := group_max (map SDO_Capped g) |})
      (group_keys pair_compare (present (map dash_bq1_key df))).

(** [dashboard.make_bq1_chart]: the frame [top]. *)
Definition make_bq1_chart (it_filter : string) (vendor_df : list dash_row)
  : list dash_bq1_row :=
  let it_cats := if String.eqb it_filter "All" then IT_CATEGORIES else [it_filter] in
  let df := filter (fun r => isin it_cats (Category (base (row r))))
                   (vendor_with_sdo vendor_df) in
  tail 15 (sort_values d1_SDO_Max true (dash_bq1_groups df)).

End Sorting.

(* ------------------------------------------------------------------ *)
(** ** BQ2: the capped frame *)

(** [eda_analysis.bq2_avg_sdo_by_category], up to [sdo_capped]: the
    commitment column is replaced by its capped value. *)
Definition bq2_sdo_capped (vendor_df : table) : table :=
  map (fun r =>
         {| Contract_Code := Contract_Code r; Name := Name r; Company := Company r;
            Role := Role r; Email := Email r; Phone := Phone r;
            SDO_Commitment_Pct := cap (SDO_Commitment_Pct r);
            Category := Category r |})
      (with_sdo SDO_Commitment_Pct vendor_df).

(* ------------------------------------------------------------------ *)
(** ** BQ6: the categories of the box plot *)

(** [df.groupby('Category').size()] *)
Definition category_sizes {A} (category : A -> string) (df : list A)
  : list (string * nat) :=
  map (fun c => (c, length (filter (fun r => String.eqb (category r) c) df)))
      (group_keys String.compare (map category df)).

(** [cat_counts[cat_counts >= threshold].index.tolist()] *)
Definition valid_cats_at {A} (threshold : nat) (category : A -> string)
           (df : list A) : list string :=
  map fst (filter (fun p => (threshold <=? snd p)%nat) (category_sizes category df)).

(** The rows of the categories with enough data. *)
Definition sdo_valid_at {A} (threshold : nat) (category : A -> string)
           (df : list A) : list A :=
  filter (fun r => isin (valid_cats_at threshold category df) (category r)) df.

(** The frame [sdo_df] of BQ6: the SDO-eligible rows, each with its raw
    commitment and the capped one beside it. *)
Definition bq6_sdo_df (vendor_df : table) : list (capped vendor_row) :=
  map (fun r => {| row := r; SDO_Capped := cap (SDO_Commitment_Pct r) |})
      (with_sdo SDO_Commitment_Pct vendor_df).

(** [eda_analysis.bq6_sdo_distribution_outliers]: the frame [sdo_valid]
    behind the outlier counts and the box plot; the threshold is 10. *)
Definition bq6_sdo_distribution_outliers (vendor_df : table)
  : list (capped vendor_row) :=
  sdo_valid_at 10 (fun r => Category (row r)) (bq6_sdo_df vendor_df).

(** [dashboard.make_bq6_chart]: the frame [df]. *)
Definition make_bq6_chart (vendor_df : list dash_row) : list (capped dash_row) :=
  sdo_valid_at 10 (fun r => Category (base (row r))) (vendor_with_sdo vendor_df).

(* ------------------------------------------------------------------ *)
(** ** BQ7: coverage *)

(** A row of the frame [coverage]; the frame holds the three counts as
    whole floats. *)
Record coverage_row := {
  cov_Category : string;
  Has_SDO : nat;
  No_SDO : nat;
  Total : nat;
  Coverage_Rate : float;
  cov_Label : string
}.

(** [column.notna().mean()] of a group: the mean of a column of
    booleans is the number of those that hold divided by their number,
    both as floats. *)
Definition notna_mean (values : list float) : float :=
  Float.div
    (Float.of_Z (Z.of_nat (length (filter (fun v => negb (Float.isnan v)) values))))
    (Float.of_Z (Z.of_nat (length values))).

Section Coverage.

Variable argsort : list float -> list nat.

(** [eda_analysis.bq7_sdo_coverage_rate]: the frame [coverage], on a
    table with rows: the counts and the rate per category, over all the
    rows of the table, with the label of the category, sorted by
    increasing rate. (On a table without rows [apply] has no group to
    take the four columns from, and the script stops.) *)
Definition bq7_sdo_coverage_rate (vendor_df : table) : list coverage_row :=
  let coverage :=
    map (fun c =>
           let g := map SDO_Commitment_Pct
                        (filter (fun r => String.eqb (Category r) c) vendor_df) in
           {| cov_Category := c;
              Has_SDO := length (filter (fun v => negb (Float.isnan v)) g);
              No_SDO := length (filter Float.isnan g);
              Total := length g;
              Coverage_Rate := notna_mean g;
              cov_Label := get_category_label c |})
        (group_keys String.compare (map Category vendor_df)) in
  sort_values argsort Coverage_Rate true coverage.

End Coverage.

(* ------------------------------------------------------------------ *)
(** ** BQ8: vendor count against average commitment *)

Record cat_stat := {
  cs_Category : string;
  Vendor_Count : nat;
  Avg_SDO : float
}.

Section Statistics.

(** The numeric routines of the libraries, taken as given: the mean of
    a column, [scipy.stats.pearsonr] (r, p), [np.polyfit] of degree 1
    (slope, intercept) and [scipy.stats.linregress] (slope, intercept,
    r, p, stderr). They stand for whatever the library computes,
    degenerate data included (equal vendor counts give NaN in
    [pearsonr]); what [linregress] refuses is written out below. *)
Variable mean : list float -> float.
Variable pearsonr : list nat -> list float -> float * float.
Variable polyfit1 : list nat -> list float -> float * float.
Variable linregress :
  list nat -> list float -> float * float * float * float * float.

(** [df.groupby('Category').agg(Vendor_Count=('Company', 'nunique'),
    Avg_SDO=(sdo, 'mean')).reset_index()] *)
Definition category_stats {A} (category company : A -> string) (sdo : A -> float)
           (df : list A) : list cat_stat :=
  map (fun c =>
         let g := filter (fun r => String.eqb (category r) c) df in
         {| cs_Category := c;
            Vendor_Count := nunique (map company g);
            Avg_SDO := mean (map sdo g) |})
      (group_keys String.compare (map category df)).

Record bq8_result := {
  cat_stats : list cat_stat;
  correlation : option (float * float);
  regression : option (float * float)
}.

Definition hundred : float := Eval vm_compute in Float.of_Z 100.

(** [eda_analysis.bq8_vendor_count_vs_sdo] *)
Definition bq8_vendor_count_vs_sdo (vendor_df : table) : bq8_result :=
  let sdo_df := with_sdo SDO_Commitment_Pct vendor_df in
  let sdo_df := filter (fun r => Float.leb (SDO_Commitment_Pct r) Float.one) sdo_df in
  let stats := category_stats Category Company SDO_Commitment_Pct sdo_df in
  let xs := map Vendor_Count stats in
  let ys := map Avg_SDO stats in
  {| cat_stats := stats;
     correlation := if (2 <? length stats)%nat then Some (pearsonr xs ys) else None;
     regression :=
       if (2 <? length stats)%nat
       then Some (polyfit1 xs (map (fun y => Float.mul y hundred) ys))
       else None |}.

(** [np.amax(x)] and [np.amin(x)] on a column of counts that is not
    empty. *)
Definition amax (xs : list nat) : nat := fold_right Nat.max 0%nat xs.

Definition amin (xs : list nat) : nat :=
  match xs with
  | [] => 0%nat
  | x :: rest => fold_right Nat.min x rest
  end.

(** The call [sp_stats.linregress(x, y)] on columns that are not empty:
    [if np.amax(x) == np.amin(x) and len(x) > 1: raise ValueError], and
    the computation otherwise. *)
Definition linregress_call (xs : list nat) (ys : list float)
  : result (float * float * float * float * float) :=
  if (amax xs =? amin xs)%nat && (1 <? length xs)%nat
  then Raise IdenticalValues
  else Ok (linregress xs ys).

(** The frame [stats] of the dashboard's scatter, which is computed
    first, and the outcome of the call of [linregress]: absent when the
    call is not made; what the call raises, the view raises. *)
Record dash_bq8_result := {
  stats : list cat_stat;
  trend : option (result (float * float * float * float * float))
}.

(** [dashboard.make_bq8_chart] *)
Definition make_bq8_chart (vendor_df : list dash_row) : dash_bq8_result :=
  let df := filter (fun r => Float.leb (SDO_Capped r) Float.one)
                   (vendor_with_sdo vendor_df) in
  let stats :=
    category_stats (fun r => Category (base (row r)))
                   (fun r => Company (base (row r))) SDO_Capped df in
  {| stats := stats;
     trend := if (2 <? length stats)%nat
              then Some (linregress_call (map Vendor_Count stats) (map Avg_SDO stats))
              else None |}.

End Statistics.
(* ------------------------------------------------------------------ *)
(** ** What is asked of the sorting routine *)

(** On a column without NaN, [argsort] returns every position once, and
    the values read in that order never decrease. Nothing is asked about
    equal values. *)
Definition argsort_spec (argsort : list float -> list nat) : Prop :=
  forall items,
    Forall (fun v => Float.isnan v = false) items ->
    Permutation (argsort items) (seq 0 (length items))
    /\ Sorted (fun a b => Float.leb a b = true) (take (argsort items) items).

(** One routine that meets it: insertion of the positions from the last
    to the first, each before the first value that is not smaller. *)
Fixpoint insert_pos (p : nat * float) (l : list (nat * float)) : list (nat * float) :=
  match l with
  | [] => [p]
  | h :: t => if Float.leb (snd p) (snd h) then p :: l else h :: insert_pos p t
  end.

Definition insertion_argsort (items : list float) : list nat :=
  map fst (fold_right insert_pos [] (combine (seq 0 (length items)) items)).

(** The rendering of floats used where a closed example needs one; the
    examples below hold no float in a text column. *)
Definition no_float_str (_ : float) : string := "".

(* ------------------------------------------------------------------ *)
(** ** Notions used in the statements *)

(** A sheet the vendor loaders read. *)
Definition retained (s : sheet) : bool := negb (skipped (sheet_name s)).

(** Fewer than seven columns. *)
Definition narrow (s : sheet) : bool := (width s <? 7)%nat.

Definition narrow_retained (s : sheet) : Prop :=
  retained s = true /\ (width s < 7)%nat.

(** The exception one retained sheet makes the vendor loaders raise:
    the seven names do not fit a narrow sheet, and a sheet without data
    rows loses its columns. *)
Definition sheet_error (s : sheet) : option exn :=
  if narrow s then Some LengthMismatch
  else match rows s with
       | [] => Some KeyMissing
       | _ :: _ => None
       end.

(** The first exception in a list of sheets. *)
Fixpoint first_error (sheets : list sheet) : option exn :=
  match sheets with
  | [] => None
  | s :: rest =>
      match sheet_error s with
      | Some e => Some e
      | None => first_error rest
      end
  end.

(** A retained sheet holds at least one data row. *)
Definition has_data_rows (s : sheet) : Prop :=
  retained s = true -> rows s <> [].

(** Fewer than four columns. *)
Definition short (s : sheet) : bool := (width s <? 4)%nat.

(** [x] holds one of the boilerplate phrases, whatever the case. *)
Definition boilerplate (x : string) : bool :=
  existsb (fun kw => Str.contains (Str.lower kw) (Str.lower x)) metadata_keywords.

Section RowByRow.

Variable float_str : float -> string.

(** The cleaning of one text cell. *)
Definition clean_cell (c : cell) : string :=
  Str.strip (Str.replace Str.newline Str.space (py_str float_str c)).

(** The vendor loaders on one row. *)
Definition clean_row (category : string) (r : raw_row) : vendor_row :=
  {| Contract_Code := clean_cell (raw_Contract_Code r);
     Name := clean_cell (raw_Name r);
     Company := clean_cell (raw_Company r);
     Role := raw_Role r; Email := raw_Email r; Phone := raw_Phone r;
     SDO_Commitment_Pct := to_numeric (raw_SDO r);
     Category := category |}.

Definition is_vendor (r : raw_row) : bool :=
  negb (boilerplate (py_str float_str (raw_Company r))).

(** The rows one retained sheet contributes. *)
Definition sheet_rows (s : sheet) : list vendor_row :=
  map (clean_row (Str.strip (sheet_name s)))
      (filter is_vendor (map name_row (map (firstn 7) (rows s)))).

(** The records of one bucket of a sheet with at least four columns. *)
Definition bucket (s : sheet) (c : nat) (typ : company_type)
  : list categorized_row :=
  records (Str.strip (sheet_name s)) typ
          (map Str.strip
               (astype_str float_str
                  (filter (fun x => negb (isna x))
                          (map (fun r => nth c r CNaN) (skipn 2 (rows s)))))).

Definition cat_rows (s : sheet) : list categorized_row :=
  bucket s 1 NationalAndLocal ++ bucket s 2 Local ++ bucket s 3 SgcTarget.

End RowByRow.

(** A vendor row with the label the dashboard adds. *)
Definition labelled (r : vendor_row) : dash_row :=
  {| base := r; Category_Label := dict_get CATEGORY_NAMES (Category r) |}.

(** A whole number within the range of the floats: the nearest float
    is finite. (A sheet stores its numbers as floats, so the integers
    the reader hands back are.) *)
Definition in_float_range (c : cell) : bool :=
  match c with
  | CInt z => Float.isfinite (Float.of_Z z)
  | _ => true
  end.

(** Where an infinite commitment can come from: a float that is already
    infinite, or a text that spells infinity. *)
Definition infinite_source (c : cell) (x : float) : Prop :=
  c = CFloat x
  \/ (exists s, c = CStr s /\ Parse.infinity_name s = Some x).

(** What a commitment is: missing, finite, or an infinity its cell
    brought. *)
Definition commitment_kind (c : cell) (x : float) : Prop :=
  Float.isnan x = true
  \/ Float.isfinite x = true
  \/ (Float.isinf x = true /\ infinite_source c x).

(** The row with its cell [n] replaced, when it has one. *)
Fixpoint set_nth {A} (n : nat) (a : A) (l : list A) {struct l} : list A :=
  match l with
  | [] => []
  | h :: t =>
      match n with
      | O => a :: t
      | S n' => h :: set_nth n' a t
      end
  end.

(** The sheet with a text written in the commitment cell of every row. *)
Definition with_commitment_text (text : list cell -> string) (s : sheet) : sheet :=
  {| sheet_name := sheet_name s;
     width := width s;
     rows := map (fun r => set_nth 6 (CStr (text r)) r) (rows s) |}.

(** The columns of a vendor row other than the commitment. *)
Definition other_columns (r : vendor_row)
  : string * string * string * cell * cell * cell * string :=
  (Contract_Code r, Name r, Company r, Role r, Email r, Phone r, Category r).

(** The number of rows of a category. *)
Definition rows_of_category {A} (category : A -> string) (df : list A)
           (c : string) : nat :=
  length (filter (fun r => String.eqb (category r) c) df).

(** The column [by_] of a frame holds no NaN. *)
Definition no_nan {A} (by_ : A -> float) (df : list A) : Prop :=
  Forall (fun v => Float.isnan v = false) (map by_ df).

(** Positions with their values, compared by value. *)
Definition by_value (p q : nat * float) : Prop := Float.leb (snd p) (snd q) = true.

(** One step of the running maximum. *)
Definition fmax (m v : float) : float := if Float.ltb m v then v else m.





(** A row the EDA view ranks: an IT category and a commitment above 0. *)
Definition it_eligible (r : vendor_row) : Prop :=
  In (Category r) IT_CATEGORIES
  /\ Float.isnan (SDO_Commitment_Pct r) = false
  /\ Float.gtb (SDO_Commitment_Pct r) Float.zero = true.

(** A row the dashboard view ranks. *)
Definition dash_eligible (r : dash_row) : Prop :=
  Float.isnan (SDO_Commitment_Pct (base r)) = false
  /\ Float.gtb (SDO_Commitment_Pct (base r)) Float.zero = true.

(* ------------------------------------------------------------------ *)
(** ** Sample values, workbooks and tables *)

Definition quarter : float := Eval vm_compute in Float.div Float.one (Float.of_Z 4).
Definition fifth : float := Eval vm_compute in to_numeric (CStr "0.2").
Definition half : float := Eval vm_compute in to_numeric (CStr "0.5").
Definition one_and_a_half : float := Eval vm_compute in to_numeric (CStr "1.5").

(** A workbook whose one vendor sheet spells infinity in a commitment. *)
Definition infinity_sheets : list sheet :=
  [ {| sheet_name := "ITE";
       width := 7;
       rows := [ [CStr "ITS55"; CStr "Ann Lee"; CStr "Acme Corp"; CStr "Sales";
                  CStr "ann@acme.test"; CStr "555-0100"; CStr "abc"];
                 [CStr "ITS55"; CStr "Bo Chen"; CStr "Birch LLC"; CStr "Owner";
                  CStr "bo@birch.test"; CStr "555-0101"; CStr "inf"] ] |} ].

Definition infinity_workbook : file := Workbook infinity_sheets.

Definition infinity_table : table :=
  [ {| Contract_Code := "ITS55"; Name := "Ann Lee"; Company := "Acme Corp";
       Role := CStr "Sales"; Email := CStr "ann@acme.test"; Phone := CStr "555-0100";
       SDO_Commitment_Pct := Float.nan; Category := "ITE" |};
    {| Contract_Code := "ITS55"; Name := "Bo Chen"; Company := "Birch LLC";
       Role := CStr "Owner"; Email := CStr "bo@birch.test"; Phone := CStr "555-0101";
       SDO_Commitment_Pct := Float.inf; Category := "ITE" |} ].

(** A workbook that opens and holds only the sheet of abbreviations. *)
Definition only_abbreviations : file :=
  Workbook
    [ {| sheet_name := "Abbreviations ";
         width := 2;
         rows := [ [CStr "ITE"; CStr "IT Equipment & Services"] ] |} ].

(** A categorized-company workbook whose one sheet has three columns:
    the positions 1 and 2 exist, the position 3 does not. *)
Definition three_column_workbook : file :=
  Workbook
    [ {| sheet_name := "Finance";
         width := 3;
         rows := [ [CNaN; CStr "National & Local"; CStr "Local Companies"];
                   [CNaN; CStr "Finance"; CNaN];
                   [CNaN; CStr "Apex Bank"; CStr "Harbor Credit"];
                   [CNaN; CStr "Beacon Trust"; CNaN] ] |} ].

(** A vendor sheet where a newline sits inside the company Mass Gov. *)
Definition newline_workbook : file :=
  Workbook
    [ {| sheet_name := "FAC";
         width := 7;
         rows := [ [CStr "FAC112"; CStr "Help Desk";
                    CStr (String "M" (String "a" (String "s" (String "s"
                           (String Str.newline "Gov")))));
                    CStr "Support"; CStr "help@mass.test"; CStr "555-0110"; CNaN] ] |} ].

Definition newline_table : table :=
  [ {| Contract_Code := "FAC112"; Name := "Help Desk"; Company := "Mass Gov";
       Role := CStr "Support"; Email := CStr "help@mass.test";
       Phone := CStr "555-0110";
       SDO_Commitment_Pct := Float.nan; Category := "FAC" |} ].

(** A plain sheet: one vendor and one master-contract record. *)
Definition plain_sheets : list sheet :=
  [ {| sheet_name := "ITE";
       width := 7;
       rows := [ [CStr "ITE01"; CStr "Cy Park"; CStr " Cedar Systems ";
                  CStr "Sales"; CStr "cy@cedar.test"; CStr "555-0120"; CStr "0.4"];
                 [CStr "ITE01"; CNaN; CStr "ITE01 Master Contract Record";
                  CNaN; CNaN; CNaN; CNaN] ] |} ].

Definition plain_workbook : file := Workbook plain_sheets.

(** A vendor sheet with its header and no data row. *)
Definition header_only_workbook : file :=
  Workbook [ {| sheet_name := "VEH"; width := 7; rows := [] |} ].

Definition plain_row : vendor_row :=
  {| Contract_Code := "ITE01"; Name := "Cy Park"; Company := "Cedar Systems";
     Role := CStr "Sales"; Email := CStr "cy@cedar.test"; Phone := CStr "555-0120";
     SDO_Commitment_Pct := to_numeric (CStr "0.4"); Category := "ITE" |}.

(** A table with one vendor whose commitment is 150%. *)
Definition over_commitment_table : table :=
  [ {| Contract_Code := "ITE01"; Name := "Dee Ray"; Company := "Delta Networks";
       Role := CNaN; Email := CNaN; Phone := CNaN;
       SDO_Commitment_Pct := one_and_a_half; Category := "ITE" |} ].

(** Sixteen IT vendors: one at 20%, the others at 50%. *)
Definition sixteen_vendor_table : table :=
  map (fun company =>
         {| Contract_Code := "ITS55"; Name := "Sales Desk"; Company := company;
            Role := CNaN; Email := CNaN; Phone := CNaN;
            SDO_Commitment_Pct :=
              if String.eqb company "Alder Data" then fifth else half;
            Category := "ITS" |})
      [ "Alder Data"; "Birch Labs"; "Cedar Systems"; "Dune Software";
        "Elm Software"; "Fern Analytics"; "Grove Digital"; "Heath Networks";
        "Iris Cloud"; "Juniper Works"; "Kelp Works"; "Larch Systems";
        "Maple Logic"; "Nettle Tech"; "Oak Computing"; "Pine Solutions" ].

(** A category whose vendor has a commitment, and a later one whose
    vendor has none. *)
Definition coverage_table : table :=
  [ {| Contract_Code := "FAC112"; Name := "Gil Ford"; Company := "Gale Facilities";
       Role := CNaN; Email := CNaN; Phone := CNaN;
       SDO_Commitment_Pct := half; Category := "FAC" |};
    {| Contract_Code := "VEH98"; Name := "Val Moor"; Company := "Vale Motors";
       Role := CNaN; Email := CNaN; Phone := CNaN;
       SDO_Commitment_Pct := Float.nan; Category := "VEH" |} ].


(** Two IT vendors, at 50% and at 20%. *)
Definition two_vendor_table : table :=
  [ {| Contract_Code := "ITS55"; Name := "Eve Moss"; Company := "Elm Software";
       Role := CNaN; Email := CNaN; Phone := CNaN;
       SDO_Commitment_Pct := half; Category := "ITS" |};
    {| Contract_Code := "ITT46"; Name := "Flo Diaz"; Company := "Fir Telecom";
       Role := CNaN; Email := CNaN; Phone := CNaN;
       SDO_Commitment_Pct := fifth; Category := "ITT" |} ].
(* ------------------------------------------------------------------ *)
(** ** Series of counts *)

(** [df.groupby(key)[col].nunique()]: under each key, the number of
    distinct values of [col]. *)
Definition groupby_nunique {A} (key col : A -> string) (df : list A)
  : list (string * nat) :=
  map (fun k =>
         (k, nunique (map col (filter (fun r => String.eqb (key r) k) df))))
      (group_keys String.compare (map key df)).

(** A row is in the group [k] of a key that can be missing. *)
Definition keyed {A} (key : A -> option string) (k : string) (r : A) : bool :=
  match key r with
  | Some k' => String.eqb k' k
  | None => false
  end.

(** The same under a key that can be missing: a row without a key is in
    no group. *)
Definition groupby_nunique_opt {A} (key : A -> option string) (col : A -> string)
           (df : list A) : list (string * nat) :=
  map (fun k => (k, nunique (map col (filter (keyed key k) df))))
      (group_keys String.compare (present (map key df))).

(** [series.sum()] *)
Definition total (counts : list (string * nat)) : nat := list_sum (map snd counts).

(** What is asked of the sorting routine on a column of integers: every
    position once, and the values read in that order never decrease. *)
Definition argsort_counts_spec (argsort : list nat -> list nat) : Prop :=
  forall items,
    Permutation (argsort items) (seq 0 (length items))
    /\ Sorted le (take (argsort items) items).

(** One routine that meets it. *)
Fixpoint insert_count (p : nat * nat) (l : list (nat * nat)) : list (nat * nat) :=
  match l with
  | [] => [p]
  | h :: t => if (snd p <=? snd h)%nat then p :: l else h :: insert_count p t
  end.

Definition insertion_argsort_counts (items : list nat) : list nat :=
  map fst (fold_right insert_count [] (combine (seq 0 (length items)) items)).

(** The text of a company type, as the loaders write it. *)
Definition type_name (t : company_type) : string :=
  match t with
  | NationalAndLocal => "National & Local"
  | Local => "Local"
  | SgcTarget => "SGC Target"
  end.

Definition type_compare (a b : company_type) : comparison :=
  String.compare (type_name a) (type_name b).

Definition type_eqb (a b : company_type) : bool :=
  String.eqb (type_name a) (type_name b).

(** The frame [pd.DataFrame(frames)] made of no record has no column:
    reading one of its columns raises [KeyError]. *)
Definition cat_column {B} (cat_df : list categorized_row)
           (col : categorized_row -> B) : result (list B) :=
  match cat_df with
  | [] => Raise KeyMissing
  | _ :: _ => Ok (map col cat_df)
  end.

(** The records of one industry and one type. *)
Definition cell_rows (cat_df : list categorized_row) (i : string)
           (t : company_type) : list categorized_row :=
  filter (fun r => String.eqb (Industry r) i && type_eqb (Type_ r) t) cat_df.

(** [cat_df.groupby(['Industry', 'Type']).size().unstack(fill_value=0)]:
    one line per industry, one column per type that occurs, both in
    increasing order; a pair that does not occur counts 0. *)
Record pivot := {
  pivot_columns : list company_type;
  pivot_lines : list (string * list nat)
}.

Definition industry_type_pivot (cat_df : list categorized_row) : result pivot :=
  industries <- cat_column cat_df Industry ;;
  let columns := group_keys type_compare (map Type_ cat_df) in
  Ok {| pivot_columns := columns;
        pivot_lines :=
          map (fun i => (i, map (fun t => length (cell_rows cat_df i t)) columns))
              (group_keys String.compare industries) |}.

(** The position of a column, when the frame has it. *)
Fixpoint column_position (t : company_type) (columns : list company_type)
  : option nat :=
  match columns with
  | [] => None
  | c :: rest =>
      if type_eqb c t then Some 0%nat
      else option_map S (column_position t rest)
  end.

(** [cat_df.groupby(['Industry', 'Type']).size().reset_index(name='Count')]:
    one row per pair that occurs. *)
Record size_row := {
  sz_Industry : string;
  sz_Type : string;
  sz_Count : nat
}.

Definition industry_type_sizes (cat_df : list categorized_row)
  : result (list size_row) :=
  industries <- cat_column cat_df Industry ;;
  let key r := (Industry r, type_name (Type_ r)) in
  Ok (map (fun k =>
             {| sz_Industry := fst k;
                sz_Type := snd k;
                sz_Count := length (filter (fun r => pair_eqb (key r) k) cat_df) |})
          (group_keys pair_compare (map key cat_df))).

(* ------------------------------------------------------------------ *)
(** ** The views that sort a column of counts *)

Section CountSorting.

(** [values.argsort(kind='quicksort')] on integers. *)
Variable argsort : list nat -> list nat.

(** [nargsort] on a column of integers: no value is missing. *)
Definition nargsort_counts (items : list nat) (ascending : bool) : list nat :=
  let idx := seq 0 (length items) in
  let mask := map (fun _ => false) items in
  let non_nans := select (map negb mask) items in
  let non_nan_idx := select (map negb mask) idx in
  let nan_idx := select mask idx in
  let non_nans := if ascending then non_nans else rev non_nans in
  let non_nan_idx := if ascending then non_nan_idx else rev non_nan_idx in
  let indexer := take (argsort non_nans) non_nan_idx in
  let indexer := if ascending then indexer else rev indexer in
  indexer ++ nan_idx.

(** [sort_values] by a column of integers. *)
Definition sort_counts {A} (by_ : A -> nat) (ascending : bool) (df : list A)
  : list A :=
  take (nargsort_counts (map by_ df) ascending) df.

(* ---------------------------------------------------------------- *)
(** ** BQ3: vendors per category *)

Record bq3_result := {
  bq3_counts : list (string * nat);
  bq3_total : nat
}.

(** [eda_analysis.bq3_vendor_distribution]: [cat_counts] under the
    labels, and [total]. *)
Definition bq3_vendor_distribution (vendor_df : table) : bq3_result :=
  let cat_counts :=
    sort_counts snd false (groupby_nunique Category Company vendor_df) in
  let cat_counts := map (fun p => (get_category_label (fst p), snd p)) cat_counts in
  {| bq3_counts := cat_counts; bq3_total := total cat_counts |}.

(* ---------------------------------------------------------------- *)
(** ** BQ4: vendors per contract code *)

(** [eda_analysis.bq4_contract_subcategories]: [code_counts]. *)
Definition bq4_contract_subcategories (vendor_df : table) : list (string * nat) :=
  let code_counts := groupby_nunique Contract_Code Company vendor_df in
  let code_counts :=
    filter (fun p => (String.length (fst p) <=? 15)%nat) code_counts in
  head 25 (sort_counts snd false code_counts).

(** [dashboard.make_bq4_chart]: the frame [df]. *)
Definition make_bq4_chart (vendor_df : list dash_row) : list (string * nat) :=
  let codes :=
    groupby_nunique (fun r => Contract_Code (base r)) (fun r => Company (base r))
                    vendor_df in
  head 20 (sort_counts snd false
             (filter (fun p => (String.length (fst p) <=? 15)%nat) codes)).

(* ---------------------------------------------------------------- *)
(** ** BQ5: the pivot ordered by the national companies *)

(** [eda_analysis.bq5_national_vs_local]: [pivot], sorted by the column
    of the type National & Local; the sort raises [KeyError] when the
    pivot has no such column. *)
Definition bq5_national_vs_local (cat_df : list categorized_row) : result pivot :=
  p <- industry_type_pivot cat_df ;;
  match column_position NationalAndLocal (pivot_columns p) with
  | None => Raise KeyMissing
  | Some j =>
      Ok {| pivot_columns := pivot_columns p;
            pivot_lines :=
              sort_counts (fun line => nth j (snd line) 0%nat) true (pivot_lines p) |}
  end.

(* ---------------------------------------------------------------- *)
(** ** BQ10: contracts per IT company *)

Record bq10_result := {
  company_contracts : list (string * nat);
  total_contracts : nat;
  top10 : list (string * nat);
  rest : Z;
  other_companies : Z
}.

(** [eda_analysis.bq10_it_vendor_concentration]: the sorted counts, their
    sum, the first ten, what the others hold and the number written in
    the label of the last wedge. *)
Definition bq10_it_vendor_concentration (vendor_df : table) : bq10_result :=
  let it_df := filter (fun r => isin IT_CATEGORIES (Category r)) vendor_df in
  let company_contracts :=
    sort_counts snd false (groupby_nunique Company Contract_Code it_df) in
  let total_contracts := total company_contracts in
  let top10 := head 10 company_contracts in
  {| company_contracts := company_contracts;
     total_contracts := total_contracts;
     top10 := top10;
     rest := (Z.of_nat total_contracts - Z.of_nat (total top10))%Z;
     other_companies := (Z.of_nat (length company_contracts) - 10)%Z |}.

Record dash_bq10_result := {
  d10_top10 : list (string * nat);
  d10_rest : nat;
  d10_other_companies : Z
}.

(** [dashboard.make_bq10_chart]: the rest is summed from the eleventh
    count on. *)
Definition make_bq10_chart (vendor_df : list dash_row) : dash_bq10_result :=
  let it_df := filter (fun r => isin IT_CATEGORIES (Category (base r))) vendor_df in
  let company_counts :=
    sort_counts snd false
      (groupby_nunique (fun r => Company (base r)) (fun r => Contract_Code (base r))
                       it_df) in
  {| d10_top10 := head 10 company_counts;
     d10_rest := total (skipn 10 company_counts);
     d10_other_companies := (Z.of_nat (length company_counts) - 10)%Z |}.

(* ---------------------------------------------------------------- *)
(** ** BQ11: companies per industry *)

(** [generate_report.generate_sector_analysis]: [industry_counts]. *)
Definition generate_sector_analysis (cat_df : list categorized_row)
  : result (list (string * nat)) :=
  industries <- cat_column cat_df Industry ;;
  Ok (sort_counts snd true (groupby_nunique Industry Cat_Company cat_df)).

End CountSorting.

(* ------------------------------------------------------------------ *)
(** ** The dashboard's views of the counts it does not sort *)

(** [dashboard.make_bq3_chart]: the frame [counts]; the vendors are
    grouped by the label of their category. *)
Definition make_bq3_chart (vendor_df : list dash_row) : list (string * nat) :=
  groupby_nunique_opt Category_Label (fun r => Company (base r)) vendor_df.

(** [dashboard.make_bq5_chart]: the frame [pivot], one row per pair. *)
Definition make_bq5_chart (cat_df : list categorized_row) : result (list size_row) :=
  industry_type_sizes cat_df.

(** [eda_analysis.bq9_industry_diversity_heatmap] and
    [dashboard.make_bq9_chart]: the frame [pivot]. *)
Definition bq9_industry_diversity_heatmap (cat_df : list categorized_row)
  : result pivot :=
  industry_type_pivot cat_df.

Definition make_bq9_chart (cat_df : list categorized_row) : result pivot :=
  industry_type_pivot cat_df.

(* ------------------------------------------------------------------ *)
(** ** The figures of the dashboard's header *)

Record kpis := {
  total_vendors : nat;
  avg_sdo : float;
  categories_count : nat;
  it_vendors : nat;
  industries_count : nat
}.

Section Kpi.

Variable mean : list float -> float.

(** The KPI calculations of [dashboard.py], in the order of the module:
    the count of industries is the last one, and the one read from the
    frame of the categorized companies. *)
Definition kpi_calculations (vendor_df : list dash_row)
           (cat_df : list categorized_row) : result kpis :=
  let total_vendors := nunique (map (fun r => Company (base r)) vendor_df) in
  let avg_sdo := mean (map SDO_Capped (vendor_with_sdo vendor_df)) in
  let categories_count := nunique (map (fun r => Category (base r)) vendor_df) in
  let it_vendors :=
    nunique (map (fun r => Company (base r))
                 (filter (fun r => isin IT_CATEGORIES (Category (base r))) vendor_df)) in
  industries <- cat_column cat_df Industry ;;
  Ok {| total_vendors := total_vendors;
        avg_sdo := avg_sdo;
        categories_count := categories_count;
        it_vendors := it_vendors;
        industries_count := nunique industries |}.

(** What [dashboard.py] does when it is imported: both workbooks are
    loaded, then the figures are computed. *)
Definition dashboard_module (float_str : float -> string)
           (vendor_file categorized_file : file)
  : result (list dash_row * list categorized_row * kpis) :=
  vendor_df <- Dashboard.load_vendor_data float_str vendor_file ;;
  cat_df <- Dashboard.load_categorized_companies float_str categorized_file ;;
  k <- kpi_calculations vendor_df cat_df ;;
  Ok (vendor_df, cat_df, k).

End Kpi.

(* ------------------------------------------------------------------ *)
(** ** The callback of the IT filter *)

Section Callbacks.

Variable argsort : list float -> list nat.

(** [dashboard.update_bq1]: [make_bq1_chart(it_filter or 'All')]; the
    drop-down hands over a text or nothing. *)
Definition update_bq1 (it_filter : option string) (vendor_df : list dash_row)
  : list dash_bq1_row :=
  make_bq1_chart argsort
    (match it_filter with
     | Some f => if String.eqb f "" then "All" else f
     | None => "All"
     end)
    vendor_df.

End Callbacks.

(* ------------------------------------------------------------------ *)
(** ** Notions used in the statements about the added views *)

(** A character a number can be written with: white space, a digit, a
    sign, the point and the exponent mark. *)
Definition number_char (c : ascii) : bool :=
  Parse.isspace_ascii c || Parse.isdigit_ascii c
  || Ascii.eqb c "+" || Ascii.eqb c "-" || Ascii.eqb c "."
  || Ascii.eqb c "e" || Ascii.eqb c "E".

(** The parser went from [p] to [p'] over characters of numbers. *)
Definition consumed (p p' : list ascii) : Prop :=
  exists pre, p = pre ++ p' /\ forallb number_char pre = true.

(** A commitment above 0 and at most 1.0. *)
Definition in_unit (x : float) : Prop :=
  Float.isnan x = false /\ Float.gtb x Float.zero = true
  /\ Float.leb x Float.one = true.

(** A row of the dashboard's capped frame, made of a row of the EDA's. *)
Definition with_label (c : capped vendor_row) : capped dash_row :=
  {| row := labelled (row c); SDO_Capped := SDO_Capped c |}.

(** The text holds no newline. *)
Definition one_line (s : string) : Prop := ~ In Str.newline (Str.chars s).

(** What the categorized loaders read of a sheet: its name, whether it
    is short, and the cells of the columns 1 to 3 from the third row on. *)
Definition payload (s : sheet) : string * bool * list (cell * cell * cell) :=
  (sheet_name s, short s,
   map (fun r => (nth 1 r CNaN, nth 2 r CNaN, nth 3 r CNaN)) (skipn 2 (rows s))).

(** What the vendor loaders read of a workbook: the retained sheets, cut
    to seven columns. *)
Definition vendor_payload (f : file) : file :=
  match f with
  | Unreadable => Unreadable
  | Workbook sheets => Workbook (map (iloc_cols 7) (filter retained sheets))
  end.

Section VendorCells.

Variable float_str : float -> string.

(** The rows of a sheet the vendor loaders keep: the text of the third
    cell holds no boilerplate phrase. *)
Definition vendor_cells (s : sheet) : list (list cell) :=
  filter (fun r => negb (boilerplate (py_str float_str (nth 2 r CNaN)))) (rows s).

(** The vendor made of one row of a sheet. *)
Definition vendor_of (s : sheet) (r : list cell) : vendor_row :=
  clean_row float_str (Str.strip (sheet_name s)) (name_row r).

(** The rows of a workbook the vendor loaders keep, each with its
    sheet, in the order of the workbook. *)
Definition kept_rows (sheets : list sheet) : list (sheet * list cell) :=
  flat_map (fun s => map (fun r => (s, r)) (vendor_cells s))
           (filter retained sheets).

(** The cells of the commitment column the loaders coerce. *)
Definition commitment_cells (sheets : list sheet) : list cell :=
  map (fun sr => nth 6 (snd sr) CNaN) (kept_rows sheets).

(** The table one of the three loaders returned, without the label of
    the dashboard. *)
Definition loaded (sheets : list sheet) (table : table) : Prop :=
  Eda.load_vendor_data float_str (Workbook sheets) = Ok table
  \/ Report.load_vendor_data float_str (Workbook sheets) = Ok table
  \/ exists d, Dashboard.load_vendor_data float_str (Workbook sheets) = Ok d
               /\ table = map base d.

End VendorCells.

(** The text is empty or starts with something that is not a space. *)
Definition no_lead (s : string) : Prop :=
  match s with
  | EmptyString => True
  | String c _ => Str.isspace c = false
  end.

(** Positions with their counts, compared by count. *)
Definition by_count (p q : nat * nat) : Prop := (snd p <= snd q)%nat.

(** The buckets of the categorized loaders: column and type. *)
Definition buckets : list (nat * company_type) :=
  [ (1, NationalAndLocal); (2, Local); (3, SgcTarget) ]%nat.

(** The category has a label. *)
Definition has_label (c : string) : bool :=
  match dict_get CATEGORY_NAMES c with
  | Some _ => true
  | None => false
  end.

(** The companies of a category. *)
Definition companies_of (vendor_df : table) (c : string) : list string :=
  map Company (filter (fun r => String.eqb (Category r) c) vendor_df).

(** The categories of a table, as a [groupby] lists them. *)
Definition category_keys (vendor_df : table) : list string :=
  group_keys String.compare (map Category vendor_df).

(** The companies of a category, each once, and their number. *)
Definition distinct_companies (vendor_df : table) (c : string) : list string :=
  nodup string_dec (companies_of vendor_df c).

Definition category_count (vendor_df : table) (c : string) : nat :=
  nunique (companies_of vendor_df c).

(** The labels of the dashboard's table, as a [groupby] lists them, and
    the number of companies under a label. *)
Definition label_keys (vendor_df : table) : list string :=
  group_keys String.compare
             (present (map Category_Label (map labelled vendor_df))).

Definition label_count (vendor_df : table) (l : string) : nat :=
  nunique (map (fun r => Company (base r))
               (filter (keyed Category_Label l) (map labelled vendor_df))).

(** No company of the table is listed under two categories. *)
Definition one_category_each (vendor_df : table) : Prop :=
  forall r1 r2, In r1 vendor_df -> In r2 vendor_df ->
                Company r1 = Company r2 -> Category r1 = Category r2.

(** The sum of the counts of a pivot. *)
Definition pivot_total (p : pivot) : nat :=
  list_sum (map (fun line => list_sum (snd line)) (pivot_lines p)).

(** A record of the type National & Local. *)
Definition national (r : categorized_row) : bool :=
  type_eqb (Type_ r) NationalAndLocal.

(* ------------------------------------------------------------------ *)
(** ** More sample data *)

(** A categorized-company workbook: two header rows, then the lists. *)
Definition finance_sheets : list sheet :=
  [ {| sheet_name := " Finance ";
       width := 4;
       rows := [ [CNaN; CStr "National & Local"; CStr "Local Companies";
                  CStr "SGC Target"];
                 [CNaN; CStr "Finance"; CNaN; CNaN];
                 [CInt 1; CStr "Apex Bank"; CStr " Harbor Credit "; CStr "nan"];
                 [CInt 2; CStr "Beacon Trust"; CNaN; CStr "Apex Bank"] ] |} ].

Definition finance_workbook : file := Workbook finance_sheets.

(** The same lists under other headers, with another first column and a
    fifth column. *)
Definition retitled_sheets : list sheet :=
  [ {| sheet_name := " Finance ";
       width := 5;
       rows := [ [CStr "No."; CStr "Both"; CStr "Local"; CStr "Target"; CNaN];
                 [];
                 [CNaN; CStr "Apex Bank"; CStr " Harbor Credit "; CStr "nan";
                  CStr "checked"];
                 [CNaN; CStr "Beacon Trust"; CNaN; CStr "Apex Bank"] ] |} ].

Definition finance_table : list categorized_row :=
  [ {| Industry := "Finance"; Cat_Company := "Apex Bank"; Type_ := NationalAndLocal |};
    {| Industry := "Finance"; Cat_Company := "Beacon Trust"; Type_ := NationalAndLocal |};
    {| Industry := "Finance"; Cat_Company := "Harbor Credit"; Type_ := Local |};
    {| Industry := "Finance"; Cat_Company := "Apex Bank"; Type_ := SgcTarget |} ].

(** A categorized-company workbook whose lists are empty. *)
Definition empty_lists_sheets : list sheet :=
  [ {| sheet_name := "Finance";
       width := 4;
       rows := [ [CNaN; CStr "National & Local"; CStr "Local Companies";
                  CStr "SGC Target"];
                 [CNaN; CStr "Finance"; CNaN; CNaN] ] |} ].

Definition empty_lists_workbook : file := Workbook empty_lists_sheets.

(** A categorized-company workbook with an empty first list, and its
    records: no company of the type National & Local. *)
Definition local_only_sheets : list sheet :=
  [ {| sheet_name := "Finance";
       width := 4;
       rows := [ [CNaN; CStr "National & Local"; CStr "Local Companies";
                  CStr "SGC Target"];
                 [CNaN; CStr "Finance"; CNaN; CNaN];
                 [CNaN; CNaN; CStr "Harbor Credit"; CNaN] ] |} ].

Definition local_only_table : list categorized_row :=
  [ {| Industry := "Finance"; Cat_Company := "Harbor Credit"; Type_ := Local |} ].

(** A vendor sheet with a company cell left empty and an eighth column. *)
Definition wide_sheets : list sheet :=
  [ {| sheet_name := "OFF ";
       width := 8;
       rows := [ [CStr "OFF47"; CStr "Gus Hale"; CNaN; CStr "Sales";
                  CStr "gus@grove.test"; CStr "555-0130"; CStr "12%";
                  CStr "a note"];
                 [CStr "OFF47"; CStr "Ida Voss"; CStr "Iris Paper"; CNaN;
                  CNaN; CNaN; CFloat half; CNaN] ] |};
    {| sheet_name := "Abbreviations ";
       width := 2;
       rows := [ [CStr "OFF"; CStr "Office Supplies"] ] |} ].

Definition wide_workbook : file := Workbook wide_sheets.

Definition wide_table : table :=
  [ {| Contract_Code := "OFF47"; Name := "Gus Hale"; Company := "nan";
       Role := CStr "Sales"; Email := CStr "gus@grove.test";
       Phone := CStr "555-0130";
       SDO_Commitment_Pct := Float.nan; Category := "OFF" |};
    {| Contract_Code := "OFF47"; Name := "Ida Voss"; Company := "Iris Paper";
       Role := CNaN; Email := CNaN; Phone := CNaN;
       SDO_Commitment_Pct := half; Category := "OFF" |} ].

(** One company under two categories, one under a category without a
    label. *)
Definition shared_vendor_table : table :=
  [ {| Contract_Code := "ITS55"; Name := "Eve Moss"; Company := "Elm Software";
       Role := CNaN; Email := CNaN; Phone := CNaN;
       SDO_Commitment_Pct := half; Category := "ITS" |};
    {| Contract_Code := "ITE01"; Name := "Eve Moss"; Company := "Elm Software";
       Role := CNaN; Email := CNaN; Phone := CNaN;
       SDO_Commitment_Pct := Float.nan; Category := "ITE" |};
    {| Contract_Code := "XYZ01"; Name := "Kit Lowe"; Company := "Kelp Works";
       Role := CNaN; Email := CNaN; Phone := CNaN;
       SDO_Commitment_Pct := fifth; Category := "XYZ" |} ].
(* ------------------------------------------------------------------ *)
(** ** Facts about floats and texts *)

Module FloatFacts.
Import Float.

Lemma class_cases (x : float) :
  isnan x = true \/ isfinite x = true \/ isinf x = true.
Proof. destruct x; simpl; auto. Qed.

Lemma compare_antisym (x y : float) :
  SFcompare y x = option_map CompOpp (SFcompare x y).
Proof.
  destruct x as [sx| sx| |sx mx ex], y as [sy| sy| |sy my ey]; simpl;
    try reflexivity;
    try (destruct sx; reflexivity);
    try (destruct sy; reflexivity);
    try (destruct sx, sy; reflexivity).
  destruct sx, sy; simpl; try reflexivity;
    rewrite (Z.compare_antisym ex ey);
    destruct (ex ?= ey)%Z; simpl; try reflexivity;
    fold (Pos.compare my mx); fold (Pos.compare mx my);
    rewrite (Pos.compare_antisym mx my);
    destruct (mx ?= my)%positive; reflexivity.
Qed.

(** [1.0 < x] excludes [x <= 1.0]. *)
Lemma ltb_not_leb (x y : float) : ltb x y = true -> leb y x = false.
Proof.
  unfold ltb, leb, SFltb, SFleb. rewrite (compare_antisym x y).
  destruct (SFcompare x y) as [[]|]; simpl; congruence.
Qed.

Lemma leb_not_nan (x y : float) : leb x y = true -> isnan x = false.
Proof. destruct x; simpl; auto. Qed.

Lemma ltb_not_nan_r (x y : float) : ltb x y = true -> isnan y = false.
Proof. destruct x, y; simpl; auto; discriminate. Qed.

(** On numbers the order is total. *)
Lemma leb_total (x y : float) :
  isnan x = false -> isnan y = false -> leb x y = true \/ leb y x = true.
Proof.
  intros Hx Hy. unfold leb, SFleb. rewrite (compare_antisym x y).
  destruct (SFcompare x y) as [[]|] eqn:E; simpl; auto.
  destruct x, y; simpl in *; discriminate.
Qed.

End FloatFacts.

Module ParseFacts.
Import Float Parse.

Lemma scale_not_inf number exponent x :
  scale number exponent = Some x -> isinf x = false.
Proof.
  unfold scale. destruct (308 <? exponent)%Z; [discriminate|].
  match goal with |- (if isinf ?n then _ else _) = _ -> _ =>
    destruct (isinf n) eqn:E; [discriminate|] end.
  intros [= <-]. exact E.
Qed.

(** What [to_double] accepts is never an infinity: the range error
    turns an overflow into a parsing error. *)
Lemma to_double_not_inf s x : to_double s = Some x -> isinf x = false.
Proof.
  unfold to_double.
  repeat match goal with
         | |- context [let '(_, _) := ?e in _] => destruct e
         | |- context [match ?e with [] => _ | _ :: _ => _ end] => destruct e
         | |- context [if ?b then _ else _] => destruct b
         | |- context [match scale ?n ?e with _ => _ end] =>
             destruct (scale n e) eqn:?
         end; try discriminate;
    intros [= <-]; eauto using scale_not_inf.
Qed.

Lemma infinity_name_inf s x : infinity_name s = Some x -> isinf x = true.
Proof.
  unfold infinity_name.
  repeat match goal with |- context [if ?b then _ else _] => destruct b end;
    try discriminate; intros [= <-]; reflexivity.
Qed.

End ParseFacts.


Module FloatOrder.
Import Float.

Lemma ltb_leb (x y : float) : ltb x y = true -> leb x y = true.
Proof.
  unfold ltb, leb, SFltb, SFleb. destruct (SFcompare x y) as [[]|]; congruence.
Qed.

(** Between numbers, [not (x < y)] is [y <= x]. *)
Lemma not_ltb_leb (x y : float) :
  isnan x = false -> isnan y = false -> ltb x y = false -> leb y x = true.
Proof.
  intros Hx Hy. unfold ltb, leb, SFltb, SFleb.
  rewrite (FloatFacts.compare_antisym x y).
  destruct (SFcompare x y) as [[]|] eqn:E; simpl; try congruence.
  destruct x, y; simpl in *; discriminate.
Qed.

Ltac compare_cases :=
  repeat match goal with
         | |- context [(?a ?= ?b)%Z] => destruct (Z.compare_spec a b)
         | |- context [Pos.compare_cont Eq ?a ?b] =>
             change (Pos.compare_cont Eq a b) with (a ?= b)%positive
         | |- context [(?a ?= ?b)%positive] => destruct (Pos.compare_spec a b)
         end.

Lemma leb_trans (x y z : float) :
  leb x y = true -> leb y z = true -> leb x z = true.
Proof.
  unfold leb, SFleb.
  destruct x as [sx|sx| |sx mx ex], y as [sy|sy| |sy my ey],
           z as [sz|sz| |sz mz ez]; simpl;
    try discriminate; try reflexivity;
    try (destruct sx; simpl; congruence);
    try (destruct sy; simpl; congruence);
    try (destruct sz; simpl; congruence);
    try (destruct sx, sy; simpl; congruence);
    try (destruct sx, sz; simpl; congruence);
    try (destruct sy, sz; simpl; congruence);
    try (destruct sx, sy, sz; simpl; congruence).
  all: destruct sx, sy, sz; simpl; try congruence; try reflexivity;
    compare_cases; simpl; subst; try congruence; try reflexivity; try lia.
Qed.

Lemma leb_neg_inf (x : float) : leb x neg_inf = true -> x = neg_inf.
Proof. destruct x as [s|[]| |[] m e]; simpl; try discriminate; reflexivity. Qed.

End FloatOrder.
(* ------------------------------------------------------------------ *)
(** ** The vendor loaders, row by row *)

Lemma select_map {A} (p : A -> bool) (l : list A) :
  select (map p l) l = filter p l.
Proof.
  unfold select. induction l as [|a l IH]; simpl; [reflexivity|].
  destruct (p a); simpl; now rewrite IH.
Qed.

Section LoaderFacts.

Variable float_str : float -> string.

Lemma clean_columns_map category df :
  clean_columns float_str category df = map (clean_row float_str category) df.
Proof.
  unfold clean_columns, to_numeric_col, clean_text, astype_str.
  induction df as [|r df IH]; simpl; [reflexivity|].
  now rewrite IH.
Qed.

Lemma narrow_iloc s : (width (iloc_cols 7 s) =? 7)%nat = negb (narrow s).
Proof.
  unfold narrow. change (width (iloc_cols 7 s)) with (Nat.min 7 (width s)).
  destruct (Nat.ltb_spec (width s) 7), (Nat.eqb_spec (Nat.min 7 (width s)) 7);
    simpl; try reflexivity; lia.
Qed.

Lemma masked_rows s :
  narrow s = false ->
  getitem_mask (map (is_vendor float_str) (map name_row (rows (iloc_cols 7 s))))
               (map name_row (rows (iloc_cols 7 s)))
  = match sheet_error s with
    | Some e => Raise e
    | None => Ok (filter (is_vendor float_str)
                         (map name_row (map (firstn 7) (rows s))))
    end.
Proof.
  intros N. unfold sheet_error. rewrite N. unfold getitem_mask.
  rewrite select_map. cbn [iloc_cols rows].
  destruct (rows s); reflexivity.
Qed.

Lemma sheet_error_narrow s : narrow s = true -> sheet_error s = Some LengthMismatch.
Proof. intros N. unfold sheet_error. now rewrite N. Qed.

Lemma eda_sheet_eq s :
  Eda.vendor_sheet float_str s
  = match sheet_error s with
    | Some e => Raise e
    | None => Ok (sheet_rows float_str s)
    end.
Proof.
  unfold Eda.vendor_sheet, set_columns. rewrite narrow_iloc.
  destruct (narrow s) eqn:N; cbn [negb bind].
  - now rewrite sheet_error_narrow.
  - cbv zeta.
    match goal with |- context [getitem_mask ?m ?d] =>
      replace m with (map (is_vendor float_str) d)
        by (unfold astype_str; rewrite !map_map; reflexivity) end.
    rewrite (masked_rows s N). destruct (sheet_error s); cbn [bind]; [reflexivity|].
    now rewrite clean_columns_map.
Qed.

Lemma dash_sheet_eq s :
  Dashboard.vendor_sheet float_str s
  = match sheet_error s with
    | Some e => Raise e
    | None => Ok (map labelled (sheet_rows float_str s))
    end.
Proof.
  unfold Dashboard.vendor_sheet, set_columns. rewrite narrow_iloc.
  destruct (narrow s) eqn:N; cbn [negb bind].
  - now rewrite sheet_error_narrow.
  - cbv zeta.
    match goal with |- context [getitem_mask ?m ?d] =>
      replace m with (map (is_vendor float_str) d)
        by (rewrite !map_map; reflexivity) end.
    rewrite (masked_rows s N). destruct (sheet_error s); cbn [bind]; [reflexivity|].
    now rewrite clean_columns_map.
Qed.

(** The loop stops at the first retained sheet that raises. *)
Lemma for_sheets_eq {A} (body : sheet -> result (list A)) rows_of sheets :
  (forall s, body s = match sheet_error s with
                      | Some e => Raise e
                      | None => Ok (rows_of s)
                      end) ->
  for_sheets body sheets
  = match first_error (filter retained sheets) with
    | Some e => Raise e
    | None => Ok (map rows_of (filter retained sheets))
    end.
Proof.
  intros Hbody. induction sheets as [|s rest IH]; cbn [for_sheets filter];
    [reflexivity|].
  assert (skipped (sheet_name s) = negb (retained s)) as ->
    by (unfold retained; now rewrite negb_involutive).
  destruct (retained s); cbn [negb].
  - rewrite Hbody. cbn [first_error map].
    destruct (sheet_error s); cbn [bind]; [reflexivity|].
    rewrite IH. now destruct (first_error (filter retained rest)).
  - exact IH.
Qed.

(** The whole of [load_vendor_data], in closed form. *)
Lemma eda_load_eq sheets :
  Eda.load_vendor_data float_str (Workbook sheets)
  = match first_error (filter retained sheets) with
    | Some e => Raise e
    | None => match filter retained sheets with
              | [] => Raise NoObjects
              | kept => Ok (List.concat (map (sheet_rows float_str) kept))
              end
    end.
Proof.
  cbn [Eda.load_vendor_data].
  rewrite (for_sheets_eq _ (sheet_rows float_str)) by apply eda_sheet_eq.
  destruct (first_error _); cbn [bind]; [reflexivity|].
  now destruct (filter retained sheets).
Qed.

Lemma dash_load_eq sheets :
  Dashboard.load_vendor_data float_str (Workbook sheets)
  = match first_error (filter retained sheets) with
    | Some e => Raise e
    | None => match filter retained sheets with
              | [] => Raise NoObjects
              | kept => Ok (map labelled (List.concat (map (sheet_rows float_str) kept)))
              end
    end.
Proof.
  cbn [Dashboard.load_vendor_data].
  rewrite (for_sheets_eq _ (fun s => map labelled (sheet_rows float_str s)))
    by apply dash_sheet_eq.
  destruct (first_error _); cbn [bind]; [reflexivity|].
  rewrite <- (map_map (sheet_rows float_str) (map labelled)).
  destruct (map (sheet_rows float_str) (filter retained sheets)) as [|fr frames] eqn:E.
  - apply map_eq_nil in E. now rewrite E.
  - destruct (filter retained sheets); [discriminate|].
    unfold pd_concat. rewrite <- E, <- concat_map. reflexivity.
Qed.

End LoaderFacts.
(* ------------------------------------------------------------------ *)
(** ** The vendor loaders, cell by cell *)

Lemma name_row_firstn r : name_row (firstn 7 r) = name_row r.
Proof.
  unfold name_row.
  do 7 (destruct r as [|? r]; [reflexivity|]). reflexivity.
Qed.

Lemma filter_map_swap {A B} (f : A -> B) (p : B -> bool) (l : list A) :
  filter p (map f l) = map f (filter (fun a => p (f a)) l).
Proof.
  induction l as [|a l IH]; [reflexivity|].
  cbn [map filter]. destruct (p (f a)); cbn [map]; now rewrite IH.
Qed.

Section VendorLoads.

Variable float_str : float -> string.

Lemma sheet_rows_cells s :
  sheet_rows float_str s
  = map (vendor_of float_str s) (vendor_cells float_str s).
Proof.
  unfold sheet_rows, vendor_of, vendor_cells.
  rewrite map_map, filter_map_swap, map_map.
  rewrite (map_ext (fun r => clean_row float_str (Str.strip (sheet_name s))
                               (name_row (firstn 7 r)))
                   (fun r => clean_row float_str (Str.strip (sheet_name s))
                               (name_row r)))
    by (intros r; now rewrite name_row_firstn).
  f_equal. apply filter_ext. intros r. rewrite name_row_firstn. reflexivity.
Qed.

(** What the loaders return when they return. *)
Lemma eda_load_ok sheets table :
  Eda.load_vendor_data float_str (Workbook sheets) = Ok table ->
  table = flat_map (fun s => map (vendor_of float_str s) (vendor_cells float_str s))
                   (filter retained sheets).
Proof.
  rewrite eda_load_eq. destruct (first_error _); [discriminate|].
  intros H.
  assert (table = List.concat (map (sheet_rows float_str) (filter retained sheets)))
    as -> by (destruct (filter retained sheets); [discriminate | now injection H]).
  rewrite flat_map_concat_map. f_equal. apply map_ext, sheet_rows_cells.
Qed.

Lemma dash_load_ok sheets table :
  Dashboard.load_vendor_data float_str (Workbook sheets) = Ok table ->
  table = map labelled
              (flat_map (fun s => map (vendor_of float_str s)
                                      (vendor_cells float_str s))
                        (filter retained sheets)).
Proof.
  rewrite dash_load_eq. destruct (first_error _); [discriminate|].
  intros H.
  assert (table = map labelled
                      (List.concat (map (sheet_rows float_str)
                                        (filter retained sheets))))
    as -> by (destruct (filter retained sheets); [discriminate | now injection H]).
  f_equal. rewrite flat_map_concat_map. f_equal. apply map_ext, sheet_rows_cells.
Qed.

Lemma report_load_ok sheets table :
  Report.load_vendor_data float_str (Workbook sheets) = Ok table ->
  table = flat_map (fun s => map (vendor_of float_str s) (vendor_cells float_str s))
                   (filter retained sheets).
Proof. exact (eda_load_ok sheets table). Qed.

Lemma base_labelled (t : table) : map base (map labelled t) = t.
Proof. rewrite map_map. cbn [labelled base]. apply map_id. Qed.

Lemma loaded_eq sheets table :
  loaded float_str sheets table ->
  table = flat_map (fun s => map (vendor_of float_str s) (vendor_cells float_str s))
                   (filter retained sheets).
Proof.
  intros [H|[H|(d & H & ->)]].
  - now apply eda_load_ok.
  - now apply report_load_ok.
  - apply dash_load_ok in H. rewrite H. apply base_labelled.
Qed.

Lemma loaded_In sheets table r :
  loaded float_str sheets table ->
  In r table
  <-> exists s cells,
        In s sheets /\ retained s = true /\ In cells (rows s)
        /\ boilerplate (py_str float_str (nth 2 cells CNaN)) = false
        /\ r = vendor_of float_str s cells.
Proof.
  intros H. rewrite (loaded_eq sheets table H), in_flat_map. split.
  - intros (s & Hs & Hr). apply filter_In in Hs as [Hs Hret].
    apply in_map_iff in Hr as (cells & <- & Hc).
    apply filter_In in Hc as [Hc Hb]. apply negb_true_iff in Hb.
    exists s, cells. auto.
  - intros (s & cells & Hs & Hret & Hc & Hb & ->).
    exists s. split; [now apply filter_In|].
    apply in_map. apply filter_In. split; [exact Hc|]. now rewrite Hb.
Qed.

End VendorLoads.

Lemma filter_split_length {A} (p : A -> bool) (l : list A) :
  length (filter (fun a => negb (p a)) l) + length (filter p l) = length l.
Proof.
  induction l as [|a l IH]; [reflexivity|].
  cbn [filter]. destruct (p a); cbn [negb length]; lia.
Qed.

Lemma filter_filter {A} (p q : A -> bool) (l : list A) :
  filter p (filter q l) = filter (fun a => q a && p a) l.
Proof.
  induction l as [|a l IH]; [reflexivity|].
  cbn [filter]. destruct (q a); cbn [filter andb]; [|exact IH].
  destruct (p a); now rewrite IH.
Qed.

Lemma list_sum_cons a l : list_sum (a :: l) = a + list_sum l.
Proof. reflexivity. Qed.

Lemma length_flat_map_sum {A B} (f : A -> list B) (l : list A) :
  length (flat_map f l) = list_sum (map (fun a => length (f a)) l).
Proof.
  induction l as [|a l IH]; [reflexivity|].
  cbn [flat_map map]. now rewrite length_app, list_sum_cons, IH.
Qed.

(* ------------------------------------------------------------------ *)
(** ** The kept rows, and a workbook with other commitments *)

Lemma map_flat_map {A B C} (f : B -> C) (g : A -> list B) (l : list A) :
  map f (flat_map g l) = flat_map (fun a => map f (g a)) l.
Proof.
  induction l as [|a l IH]; [reflexivity|].
  cbn [flat_map]. now rewrite map_app, IH.
Qed.

Lemma nth_set_nth_other {A} (n i : nat) (a d : A) (l : list A) :
  i <> n -> nth i (set_nth n a l) d = nth i l d.
Proof.
  revert n i. induction l as [|h t IH]; intros n i Hne; [reflexivity|].
  destruct n as [|n], i as [|i]; cbn [set_nth nth]; try reflexivity;
    try contradiction.
  apply IH. congruence.
Qed.

Section KeptRows.

Variable float_str : float -> string.

Lemma loaded_kept sheets table :
  loaded float_str sheets table ->
  table = map (fun sr => vendor_of float_str (fst sr) (snd sr))
              (kept_rows float_str sheets).
Proof.
  intros H. rewrite (loaded_eq float_str sheets table H).
  unfold kept_rows. rewrite map_flat_map. apply flat_map_ext. intros s.
  now rewrite map_map.
Qed.

Lemma kept_rows_In sheets s r :
  In (s, r) (kept_rows float_str sheets)
  <-> In s sheets /\ retained s = true /\ In r (rows s)
      /\ boilerplate (py_str float_str (nth 2 r CNaN)) = false.
Proof.
  unfold kept_rows, vendor_cells. rewrite in_flat_map. split.
  - intros (s' & Hs & H). apply in_map_iff in H as (r' & [= <- <-] & Hr).
    apply filter_In in Hs as [Hs Hret]. apply filter_In in Hr as [Hr Hb].
    apply negb_true_iff in Hb. auto.
  - intros (Hs & Hret & Hr & Hb). exists s. split; [now apply filter_In|].
    apply in_map. apply filter_In. split; [exact Hr|]. now rewrite Hb.
Qed.

(** One loader returns when another does. *)
Lemma load_ok_iff sheets table :
  Eda.load_vendor_data float_str (Workbook sheets) = Ok table
  <-> first_error (filter retained sheets) = None
      /\ filter retained sheets <> []
      /\ table = List.concat (map (sheet_rows float_str) (filter retained sheets)).
Proof.
  rewrite eda_load_eq. destruct (first_error (filter retained sheets)).
  - split; [discriminate | intros [H _]; discriminate H].
  - destruct (filter retained sheets) as [|s kept].
    + split; [discriminate | intros (_ & H & _); contradiction].
    + split; [intros [= <-]; repeat split; discriminate|].
      intros (_ & _ & ->). reflexivity.
Qed.

Lemma loaded_eda sheets table :
  loaded float_str sheets table ->
  Eda.load_vendor_data float_str (Workbook sheets) = Ok table.
Proof.
  intros [H|[H|(d & H & ->)]]; [exact H | exact H|].
  rewrite dash_load_eq in H. rewrite eda_load_eq.
  destruct (first_error (filter retained sheets)); [discriminate|].
  destruct (filter retained sheets); [discriminate|].
  injection H as <-. now rewrite base_labelled.
Qed.

Lemma eda_dash_load sheets table :
  Eda.load_vendor_data float_str (Workbook sheets) = Ok table ->
  Dashboard.load_vendor_data float_str (Workbook sheets) = Ok (map labelled table).
Proof.
  rewrite dash_load_eq, eda_load_eq.
  destruct (first_error (filter retained sheets)); [discriminate|].
  destruct (filter retained sheets); [discriminate|].
  now intros [= <-].
Qed.

Variable text : list cell -> string.

Lemma retext_error s :
  sheet_error (with_commitment_text text s) = sheet_error s.
Proof.
  unfold sheet_error, narrow. cbn [with_commitment_text width rows].
  destruct (width s <? 7)%nat; [reflexivity|]. now destruct (rows s).
Qed.

Lemma retext_retained sheets :
  filter retained (map (with_commitment_text text) sheets)
  = map (with_commitment_text text) (filter retained sheets).
Proof. now rewrite filter_map_swap. Qed.

Lemma retext_first_error sheets :
  first_error (map (with_commitment_text text) sheets) = first_error sheets.
Proof.
  induction sheets as [|s sheets IH]; [reflexivity|].
  cbn [map first_error]. now rewrite retext_error, IH.
Qed.

Lemma retext_vendor s r :
  other_columns (vendor_of float_str (with_commitment_text text s)
                           (set_nth 6 (CStr (text r)) r))
  = other_columns (vendor_of float_str s r).
Proof.
  unfold other_columns, vendor_of, clean_row, name_row.
  cbn [Contract_Code Name Company Role Email Phone Category
       raw_Contract_Code raw_Name raw_Company raw_Role raw_Email raw_Phone
       with_commitment_text sheet_name].
  now rewrite !nth_set_nth_other by discriminate.
Qed.

Lemma retext_sheet_rows s :
  map other_columns
      (map (vendor_of float_str (with_commitment_text text s))
           (vendor_cells float_str (with_commitment_text text s)))
  = map other_columns (map (vendor_of float_str s) (vendor_cells float_str s)).
Proof.
  unfold vendor_cells. cbn [with_commitment_text rows].
  rewrite filter_map_swap, !map_map.
  rewrite (filter_ext
             (fun a => negb (boilerplate
                               (py_str float_str
                                  (nth 2 (set_nth 6 (CStr (text a)) a) CNaN))))
             (fun r => negb (boilerplate (py_str float_str (nth 2 r CNaN)))))
    by (intros r; now rewrite nth_set_nth_other by discriminate).
  apply map_ext. intros r. apply retext_vendor.
Qed.

(** A workbook that loads still loads with any texts for commitments,
    and the other columns of its rows are the same. *)
Lemma retext_loads sheets table :
  loaded float_str sheets table ->
  exists table',
    Eda.load_vendor_data float_str
      (Workbook (map (with_commitment_text text) sheets)) = Ok table'
    /\ map other_columns table' = map other_columns table.
Proof.
  intros H. pose proof (loaded_eq float_str sheets table H) as E.
  apply loaded_eda, load_ok_iff in H as (H1 & H2 & _).
  eexists. split.
  - apply load_ok_iff. rewrite retext_retained, retext_first_error.
    split; [exact H1|]. split; [|reflexivity].
    intros N. apply map_eq_nil in N. contradiction.
  - rewrite E, map_map, <- flat_map_concat_map, !map_flat_map.
    apply flat_map_ext. intros s. rewrite sheet_rows_cells.
    apply retext_sheet_rows.
Qed.

End KeptRows.

(* ------------------------------------------------------------------ *)
(** ** The coercion of the commitment column *)

Lemma to_numeric_kind (c : cell) :
  in_float_range c = true -> commitment_kind c (to_numeric c).
Proof.
  unfold commitment_kind. destruct c as [|f|z|b|s]; cbn [in_float_range to_numeric].
  - auto.
  - intros _. destruct (FloatFacts.class_cases f) as [H|[H|H]]; auto.
    right; right; split; [exact H | left; reflexivity].
  - auto.
  - intros _. destruct b; auto.
  - intros _. destruct s as [|a s]; [auto|].
    unfold Parse.floatify.
    destruct (Parse.to_double (String a s)) as [x|] eqn:D.
    + apply ParseFacts.to_double_not_inf in D.
      destruct (FloatFacts.class_cases x) as [H|[H|H]]; auto; congruence.
    + destruct (Parse.infinity_name (String a s)) as [x|] eqn:I; [|auto].
      right; right; split; [eauto using ParseFacts.infinity_name_inf|].
      right; eauto.
Qed.

(** A text the parser refuses is coerced to a missing value. *)
Lemma refused_text_is_missing s :
  Parse.floatify s = None -> to_numeric (CStr s) = Float.nan.
Proof. destruct s; cbn [to_numeric]; [reflexivity | now intros ->]. Qed.

(** C1, as stated, fails: the text "inf" in the commitment column is
    loaded as the float infinity, which is neither missing nor finite. *)
Lemma loaded_commitment_not_finite :
  Eda.load_vendor_data no_float_str infinity_workbook = Ok infinity_table
  /\ ~ Forall (fun r => Float.isnan (SDO_Commitment_Pct r) = true
                        \/ Float.isfinite (SDO_Commitment_Pct r) = true)
              infinity_table.
Proof.
  split; [vm_compute; reflexivity|].
  intros H. inversion H as [|? ? _ H2]; subst.
  inversion H2 as [|? ? [H3|H3] _]; subst; discriminate H3.
Qed.

(** C1 (amended). On a workbook that one of the loaders loads, and
    whose whole numbers are within the range of the floats:
    - the commitment column of the table is, row by row, the coercion
      of the commitment cell of the source row that was kept;
    - each value is missing (NaN), finite, or an infinity that the cell
      itself brought (a float that is already infinite, or a text that
      spells infinity);
    - a text the parser refuses is coerced to a missing value, and no
      text makes the load fail: with any texts written in the
      commitment cells the workbook still loads, in both loaders, and
      the other columns of its rows are the same;
    - "0.25" gives 0.25, "abc" and the empty text give NaN. *)
Theorem commitment_missing_finite_or_infinite
        (float_str : float -> string) (sheets : list sheet) (table : table) :
  loaded float_str sheets table ->
  Forall (fun c => in_float_range c = true) (commitment_cells float_str sheets) ->
  map SDO_Commitment_Pct table = map to_numeric (commitment_cells float_str sheets)
  /\ Forall (fun c => commitment_kind c (to_numeric c))
            (commitment_cells float_str sheets)
  /\ (forall s, Parse.floatify s = None -> to_numeric (CStr s) = Float.nan)
  /\ (forall text : list cell -> string,
        exists table',
          Eda.load_vendor_data
            float_str (Workbook (map (with_commitment_text text) sheets))
          = Ok table'
          /\ Dashboard.load_vendor_data
               float_str (Workbook (map (with_commitment_text text) sheets))
             = Ok (map labelled table')
          /\ map other_columns table' = map other_columns table)
  /\ to_numeric (CStr "0.25") = quarter
  /\ to_numeric (CStr "abc") = Float.nan
  /\ to_numeric (CStr "") = Float.nan.
Proof.
  intros Hload Hrange.
  split; [|split; [|split; [|split; [|repeat split; vm_compute; reflexivity]]]].
  - rewrite (loaded_kept float_str sheets table Hload).
    unfold commitment_cells. rewrite !map_map. reflexivity.
  - eapply Forall_impl; [|exact Hrange]. intros c. apply to_numeric_kind.
  - exact refused_text_is_missing.
  - intros text.
    destruct (retext_loads float_str text sheets table Hload) as (table' & L & E).
    exists table'. split; [exact L|]. split; [|exact E].
    now apply eda_dash_load.
Qed.

Lemma commitment_missing_finite_or_infinite_witness :
  loaded no_float_str infinity_sheets infinity_table
  /\ Forall (fun c => in_float_range c = true)
            (commitment_cells no_float_str infinity_sheets)
  /\ map SDO_Commitment_Pct infinity_table
     = map to_numeric (commitment_cells no_float_str infinity_sheets).
Proof.
  assert (loaded no_float_str infinity_sheets infinity_table) as L
    by (left; vm_compute; reflexivity).
  assert (Forall (fun c => in_float_range c = true)
                 (commitment_cells no_float_str infinity_sheets)) as R
    by (vm_compute; repeat constructor).
  split; [exact L|]. split; [exact R|].
  exact (proj1 (commitment_missing_finite_or_infinite
                  no_float_str infinity_sheets infinity_table L R)).
Defined.

(* ------------------------------------------------------------------ *)
(** ** When the vendor loader fails *)

Lemma existsb_narrow_retained sheets :
  existsb (fun s => retained s && narrow s) sheets = true
  <-> Exists narrow_retained sheets.
Proof.
  rewrite existsb_exists, Exists_exists. unfold narrow_retained, narrow.
  split; intros (s & Hin & H); exists s; split; auto.
  - apply andb_true_iff in H as [H1 H2]. now apply Nat.ltb_lt in H2.
  - destruct H as [H1 H2]. apply andb_true_iff. now rewrite Nat.ltb_lt.
Qed.

Lemma filter_retained_nil sheets :
  filter retained sheets = [] <-> Forall (fun s => retained s = false) sheets.
Proof.
  induction sheets as [|s rest IH]; cbn [filter].
  - split; auto.
  - destruct (retained s) eqn:R; split; intros H.
    + discriminate.
    + inversion H; congruence.
    + constructor; [exact R | now apply IH].
    + inversion H; now apply IH.
Qed.

(** C4, as stated, fails: the loader also raises when the workbook opens
    and every sheet is on the skip list, though no retained sheet is
    too narrow. *)
Lemma load_fails_with_nothing_retained :
  raises (Eda.load_vendor_data no_float_str only_abbreviations)
  /\ ~ (only_abbreviations = Unreadable
        \/ exists sheets, only_abbreviations = Workbook sheets
                          /\ Exists narrow_retained sheets).
Proof.
  split.
  - exists NoObjects. vm_compute. reflexivity.
  - intros [H|(sheets & H & Hex)]; [discriminate|].
    injection H as <-. apply existsb_narrow_retained in Hex.
    vm_compute in Hex. discriminate.
Qed.

Lemma first_error_with_rows sheets :
  Forall has_data_rows sheets ->
  first_error (filter retained sheets)
  = if existsb (fun s => retained s && narrow s) sheets
    then Some LengthMismatch else None.
Proof.
  induction 1 as [|s rest Hs _ IH]; [reflexivity|].
  cbn [filter existsb]. destruct (retained s) eqn:R; cbn [andb orb].
  - cbn [first_error]. unfold sheet_error.
    destruct (narrow s); [reflexivity|].
    destruct (rows s) eqn:E; [now destruct (Hs R)|]. exact IH.
  - exact IH.
Qed.

(** A retained sheet without data rows makes the loader raise too. *)
Lemma header_only_sheet_raises :
  Eda.load_vendor_data no_float_str header_only_workbook = Raise KeyMissing.
Proof. reflexivity. Qed.

(** C4 (amended). The loader raises when the workbook cannot be opened.
    On a workbook that opens and whose retained sheets each hold at
    least one data row, it raises in two cases and no other: a retained
    sheet has fewer than seven columns (the seven names do not fit), or
    no sheet is retained (there is nothing to concatenate). The code
    has no error class of its own: these are the library's exceptions. *)
Theorem load_vendor_data_failures float_str :
  Eda.load_vendor_data float_str Unreadable = Raise OpenError
  /\ forall sheets,
       Forall has_data_rows sheets ->
       (Eda.load_vendor_data float_str (Workbook sheets) = Raise LengthMismatch
        <-> Exists narrow_retained sheets)
       /\ (Eda.load_vendor_data float_str (Workbook sheets) = Raise NoObjects
           <-> ~ Exists narrow_retained sheets
               /\ Forall (fun s => retained s = false) sheets)
       /\ (raises (Eda.load_vendor_data float_str (Workbook sheets))
           <-> Exists narrow_retained sheets
               \/ Forall (fun s => retained s = false) sheets)
       /\ (forall e, Eda.load_vendor_data float_str (Workbook sheets) = Raise e ->
                     e = LengthMismatch \/ e = NoObjects).
Proof.
  split; [reflexivity|]. intros sheets Hrows.
  rewrite eda_load_eq, (first_error_with_rows sheets Hrows).
  pose proof (existsb_narrow_retained sheets) as N.
  pose proof (filter_retained_nil sheets) as K.
  destruct (existsb _ sheets) eqn:E.
  - assert (Exists narrow_retained sheets) as Hn by now apply N.
    split; [split; auto|].
    split; [split; [discriminate | intros [H _]; contradiction]|].
    split; [split; [auto | intros _; now exists LengthMismatch]|].
    intros e [= <-]; auto.
  - assert (~ Exists narrow_retained sheets) as NE
      by (intros H; apply N in H; discriminate).
    destruct (filter retained sheets) eqn:F.
    + assert (Forall (fun s => retained s = false) sheets) as Hk by now apply K.
      split; [split; [discriminate | contradiction]|].
      split; [split; auto|].
      split; [split; [auto | intros _; now exists NoObjects]|].
      intros e [= <-]; auto.
    + assert (~ Forall (fun s => retained s = false) sheets) as Hk
        by (intros H; apply K in H; discriminate).
      split; [split; [discriminate | contradiction]|].
      split; [split; [discriminate | intros [_ H]; contradiction]|].
      split; [split; [intros [e He]; discriminate | intros [H|H]; contradiction]|].
      discriminate.
Qed.

Lemma load_vendor_data_failures_witness :
  Forall has_data_rows plain_sheets
  /\ (Eda.load_vendor_data no_float_str (Workbook plain_sheets) = Raise LengthMismatch
      <-> Exists narrow_retained plain_sheets).
Proof.
  assert (Forall has_data_rows plain_sheets) as H
    by (repeat constructor; intros _; discriminate).
  split; [exact H|].
  exact (proj1 (proj2 (load_vendor_data_failures no_float_str) plain_sheets H)).
Defined.

(* ------------------------------------------------------------------ *)
(** ** The three vendor loaders agree *)

(** C10. On every workbook the loader of the report returns what the
    loader of the EDA script returns, and the loader of the dashboard
    returns the same rows in the same order, each with its category
    label added; they raise the same exception when they raise. *)
Theorem vendor_loaders_agree float_str f :
  Report.load_vendor_data float_str f = Eda.load_vendor_data float_str f
  /\ Dashboard.load_vendor_data float_str f
     = match Eda.load_vendor_data float_str f with
       | Ok table =>
           Ok (map (fun r => {| base := r;
                                Category_Label := dict_get CATEGORY_NAMES (Category r) |})
                   table)
       | Raise e => Raise e
       end.
Proof.
  split.
  - destruct f as [|sheets]; reflexivity.
  - destruct f as [|sheets]; [reflexivity|].
    rewrite dash_load_eq, eda_load_eq.
    destruct (first_error _); [reflexivity|].
    destruct (filter retained sheets); reflexivity.
Qed.

(* ------------------------------------------------------------------ *)
(** ** The categorized-company loaders on a narrow sheet *)

Section CategorizedFacts.

Variable float_str : float -> string.

Lemma eda_cat_sheet_eq s :
  Eda.categorized_sheet float_str s
  = if short s then Raise IndexOutOfBounds else Ok (cat_rows float_str s).
Proof.
  unfold Eda.categorized_sheet, company_list, iloc_col, short, cat_rows, bucket.
  destruct (Nat.ltb_spec 1 (width s)), (Nat.ltb_spec 2 (width s)),
    (Nat.ltb_spec 3 (width s)), (Nat.ltb_spec (width s) 4);
    cbn [bind]; try reflexivity; lia.
Qed.

Lemma dash_cat_sheet_eq s :
  Dashboard.categorized_sheet float_str s
  = if short s then Raise IndexOutOfBounds else Ok (cat_rows float_str s).
Proof.
  unfold Dashboard.categorized_sheet, for_buckets, company_list, iloc_col, short,
    cat_rows, bucket.
  destruct (Nat.ltb_spec 1 (width s)), (Nat.ltb_spec 2 (width s)),
    (Nat.ltb_spec 3 (width s)), (Nat.ltb_spec (width s) 4);
    cbn [bind]; rewrite ?app_nil_r; try reflexivity; lia.
Qed.

Lemma report_cat_sheet_eq s :
  Report.categorized_sheet float_str s
  = if short s then Raise IndexOutOfBounds else Ok (cat_rows float_str s).
Proof. exact (dash_cat_sheet_eq s). Qed.

Lemma for_all_sheets_eq (body : sheet -> result (list categorized_row)) sheets :
  (forall s, body s = if short s then Raise IndexOutOfBounds else Ok (cat_rows float_str s)) ->
  for_all_sheets body sheets
  = if existsb short sheets then Raise IndexOutOfBounds
    else Ok (flat_map (cat_rows float_str) sheets).
Proof.
  intros Hbody. induction sheets as [|s rest IH]; cbn [for_all_sheets existsb flat_map].
  - reflexivity.
  - rewrite Hbody, IH. destruct (short s); cbn [bind orb]; [reflexivity|].
    destruct (existsb short rest); reflexivity.
Qed.

End CategorizedFacts.

(** C5, as stated, fails: on a sheet with three columns the loaders
    raise, and no record is returned for the two buckets that exist. *)
Lemma narrow_categorized_sheet_raises :
  Eda.load_categorized_companies no_float_str three_column_workbook
  = Raise IndexOutOfBounds
  /\ Dashboard.load_categorized_companies no_float_str three_column_workbook
     = Raise IndexOutOfBounds
  /\ Report.load_categorized_companies no_float_str three_column_workbook
     = Raise IndexOutOfBounds.
Proof. repeat split; vm_compute; reflexivity. Qed.

(** C5 (amended). A workbook that holds a sheet with fewer than four
    columns makes the categorized-company loaders raise the library's
    index error (the positional read of a column that does not exist);
    nothing is returned. *)
Theorem load_categorized_raises_on_short_sheet float_str sheets :
  Exists (fun s => (width s < 4)%nat) sheets ->
  Eda.load_categorized_companies float_str (Workbook sheets) = Raise IndexOutOfBounds
  /\ Dashboard.load_categorized_companies float_str (Workbook sheets)
     = Raise IndexOutOfBounds
  /\ Report.load_categorized_companies float_str (Workbook sheets)
     = Raise IndexOutOfBounds.
Proof.
  intros H.
  assert (existsb short sheets = true) as E.
  { apply existsb_exists. apply Exists_exists in H as (s & Hin & Hw).
    exists s. split; [exact Hin|]. now apply Nat.ltb_lt. }
  unfold Eda.load_categorized_companies, Dashboard.load_categorized_companies,
    Report.load_categorized_companies.
  rewrite (for_all_sheets_eq float_str) by apply eda_cat_sheet_eq.
  rewrite (for_all_sheets_eq float_str) by apply dash_cat_sheet_eq.
  rewrite (for_all_sheets_eq float_str) by apply report_cat_sheet_eq.
  rewrite E. repeat split; reflexivity.
Qed.

Lemma load_categorized_raises_on_short_sheet_witness :
  Eda.load_categorized_companies no_float_str
    (Workbook [ {| sheet_name := "Energy"; width := 2; rows := [] |} ])
  = Raise IndexOutOfBounds
  /\ Dashboard.load_categorized_companies no_float_str
       (Workbook [ {| sheet_name := "Energy"; width := 2; rows := [] |} ])
     = Raise IndexOutOfBounds
  /\ Report.load_categorized_companies no_float_str
       (Workbook [ {| sheet_name := "Energy"; width := 2; rows := [] |} ])
     = Raise IndexOutOfBounds.
Proof.
  apply (load_categorized_raises_on_short_sheet no_float_str).
  constructor. simpl. lia.
Defined.

(* ------------------------------------------------------------------ *)
(** ** Phrases, trimming and newlines *)

Module StrFacts.
Import Str.

Lemma prefix_app n a w : prefix n a = true -> prefix n (a ++ w)%string = true.
Proof.
  revert a. induction n as [|c n IH]; intros a;
    [intros _; destruct (a ++ w)%string; reflexivity|].
  destruct a as [|d a]; simpl; [discriminate|].
  destruct (ascii_dec c d); [apply IH | discriminate].
Qed.

Lemma prefix_nil_l n : prefix n "" = true -> n = ""%string.
Proof. destruct n; [reflexivity | discriminate]. Qed.

Lemma contains_empty w : contains "" w = true.
Proof. destruct w; reflexivity. Qed.

Lemma contains_app n a w :
  contains n a = true -> contains n (a ++ w)%string = true.
Proof.
  induction a as [|c a IH]; simpl.
  - rewrite orb_false_r. intros H. apply prefix_nil_l in H as ->.
    apply contains_empty.
  - intros H. apply orb_true_iff in H as [H|H]; apply orb_true_iff.
    + left. now apply (prefix_app n (String c a) w).
    + right. now apply IH.
Qed.

Lemma contains_tail n c t : contains n t = true -> contains n (String c t) = true.
Proof. intros H. simpl. rewrite H. apply orb_true_r. Qed.

Lemma contains_lstrip n s : contains n (lstrip s) = true -> contains n s = true.
Proof.
  induction s as [|c s IH]; [auto|].
  cbn [lstrip]. destruct (isspace c); [|auto].
  intros H. apply contains_tail. now apply IH.
Qed.

(** What [rstrip] returns is the text without its end. *)
Lemma rstrip_app s : exists w, s = (rstrip s ++ w)%string.
Proof.
  induction s as [|c s (w & IH)]; [exists ""%string; reflexivity|].
  cbn [rstrip]. destruct (rstrip s) as [|d r] eqn:R.
  - destruct (isspace c).
    + exists (String c s). reflexivity.
    + exists s. reflexivity.
  - exists w. simpl. now rewrite IH at 1.
Qed.

Lemma contains_rstrip n s : contains n (rstrip s) = true -> contains n s = true.
Proof.
  intros H. destruct (rstrip_app s) as (w & E). rewrite E.
  now apply contains_app.
Qed.

Lemma contains_strip n s : contains n (strip s) = true -> contains n s = true.
Proof. intros H. now apply contains_lstrip, contains_rstrip. Qed.

Lemma isspace_lower c : isspace (lower_char c) = isspace c.
Proof. destruct c as [[] [] [] [] [] [] [] []]; reflexivity. Qed.

Lemma lower_lstrip s : lower (lstrip s) = lstrip (lower s).
Proof.
  induction s as [|c s IH]; [reflexivity|].
  cbn [lstrip lower]. rewrite isspace_lower.
  destruct (isspace c); [exact IH | reflexivity].
Qed.

Lemma lower_rstrip s : lower (rstrip s) = rstrip (lower s).
Proof.
  induction s as [|c s IH]; [reflexivity|].
  cbn [rstrip lower]. rewrite <- IH, isspace_lower.
  destruct (rstrip s); cbn [lower]; [|reflexivity].
  destruct (isspace c); reflexivity.
Qed.

Lemma lower_strip s : lower (strip s) = strip (lower s).
Proof. unfold strip. now rewrite lower_rstrip, lower_lstrip. Qed.

(** A text without a newline is left as it is. *)
Lemma replace_newline_absent s :
  contains (String newline "") s = false -> replace newline space s = s.
Proof.
  induction s as [|c s IH]; [reflexivity|].
  cbn [contains prefix replace]. intros H.
  apply orb_false_iff in H as [H1 H2].
  rewrite (IH H2).
  destruct (Ascii.eqb_spec c newline) as [->|]; [|reflexivity].
  destruct (ascii_dec newline newline); [|contradiction].
  destruct s; discriminate H1.
Qed.

End StrFacts.

Lemma boilerplate_strip s : boilerplate (Str.strip s) = true -> boilerplate s = true.
Proof.
  unfold boilerplate. rewrite !existsb_exists.
  intros (kw & Hin & H). exists kw. split; [exact Hin|].
  rewrite StrFacts.lower_strip in H. now apply StrFacts.contains_strip in H.
Qed.

(* ------------------------------------------------------------------ *)
(** ** The boilerplate filter *)

(** C3, as stated, fails: the filter reads the company before the
    newline is collapsed, so "Mass(newline)Gov" passes it and the final
    table holds the company "Mass Gov". *)
Lemma phrase_appears_after_newline_collapse :
  Eda.load_vendor_data no_float_str newline_workbook = Ok newline_table
  /\ ~ Forall (fun r => boilerplate (Company r) = false) newline_table.
Proof.
  split; [vm_compute; reflexivity|].
  intros H. inversion H as [|? ? H1 _]; subst. vm_compute in H1. discriminate.
Qed.

Lemma boilerplate_false x :
  boilerplate x = false
  <-> forall kw, In kw metadata_keywords ->
                 Str.contains (Str.lower kw) (Str.lower x) = false.
Proof.
  unfold boilerplate. split.
  - intros H kw Hkw.
    destruct (Str.contains (Str.lower kw) (Str.lower x)) eqn:E; [|reflexivity].
    assert (existsb (fun kw => Str.contains (Str.lower kw) (Str.lower x))
                    metadata_keywords = true) by (apply existsb_exists; eauto).
    congruence.
  - intros H.
    destruct (existsb (fun kw => Str.contains (Str.lower kw) (Str.lower x))
                      metadata_keywords) eqn:E; [|reflexivity].
    apply existsb_exists in E as (kw & Hkw & E). rewrite (H kw Hkw) in E.
    discriminate E.
Qed.

Lemma one_line_contains s :
  one_line s -> Str.contains (String Str.newline "") s = false.
Proof.
  unfold one_line. induction s as [|c s IH]; [reflexivity|].
  cbn [Str.chars list_ascii_of_string In]. intros H.
  cbn [Str.contains prefix].
  rewrite IH by (intros Hin; apply H; now right).
  destruct (ascii_dec Str.newline c) as [E|E]; [|reflexivity].
  exfalso. apply H. left. now symmetry.
Qed.

Lemma list_sum_split {A} (f g h : A -> nat) (l : list A) :
  (forall a, f a + g a = h a) ->
  list_sum (map f l) + list_sum (map g l) = list_sum (map h l).
Proof.
  intros H. induction l as [|a l IH]; [reflexivity|].
  cbn [map]. rewrite !list_sum_cons. specialize (H a). lia.
Qed.

(** C3 (amended). The table one of the loaders returns holds one
    record per kept row, in the order of the workbook, and the kept
    rows are the rows of the retained sheets whose company cell, as
    text and before any cleaning, holds none of the phrases in any case
    (a substring test): a row that matches is left out, not blanked, so
    the records and the matching rows add up to the rows of the
    retained sheets. The company of a record is the text of its cell
    with newlines turned into spaces, trimmed; it holds none of the
    phrases either when the text of the cell has no newline. *)
Theorem loaded_company_not_boilerplate
        (float_str : float -> string) (sheets : list sheet) (table : table) :
  loaded float_str sheets table ->
  table = map (fun sr => vendor_of float_str (fst sr) (snd sr))
              (kept_rows float_str sheets)
  /\ (forall s r,
        In (s, r) (kept_rows float_str sheets)
        <-> In s sheets /\ retained s = true /\ In r (rows s)
            /\ forall kw, In kw metadata_keywords ->
                 Str.contains (Str.lower kw)
                              (Str.lower (py_str float_str (nth 2 r CNaN))) = false)
  /\ length table
     + list_sum (map (fun s =>
                        length (filter (fun r => boilerplate
                                                   (py_str float_str (nth 2 r CNaN)))
                                       (rows s)))
                     (filter retained sheets))
     = list_sum (map (fun s => length (rows s)) (filter retained sheets))
  /\ (forall s r,
        Company (vendor_of float_str s r)
        = Str.strip (Str.replace Str.newline Str.space
                                 (py_str float_str (nth 2 r CNaN))))
  /\ (forall s r,
        In (s, r) (kept_rows float_str sheets) ->
        one_line (py_str float_str (nth 2 r CNaN)) ->
        forall kw, In kw metadata_keywords ->
          Str.contains (Str.lower kw)
                       (Str.lower (Company (vendor_of float_str s r))) = false).
Proof.
  intros H. pose proof (loaded_kept float_str sheets table H) as E.
  split; [exact E|]. split; [|split; [|split]].
  - intros s r. rewrite kept_rows_In, boilerplate_false. reflexivity.
  - rewrite E, length_map. unfold kept_rows. rewrite length_flat_map_sum.
    apply list_sum_split. intros s. rewrite length_map. unfold vendor_cells.
    apply filter_split_length.
  - reflexivity.
  - intros s r Hk Hl. apply kept_rows_In in Hk as (_ & _ & _ & Hb).
    apply boilerplate_false.
    unfold vendor_of, clean_row, clean_cell, name_row. cbn [Company raw_Company].
    rewrite (StrFacts.replace_newline_absent _ (one_line_contains _ Hl)).
    destruct (boilerplate (Str.strip (py_str float_str (nth 2 r CNaN)))) eqn:B;
      [|reflexivity].
    apply boilerplate_strip in B. congruence.
Qed.

Lemma loaded_company_not_boilerplate_witness :
  loaded no_float_str plain_sheets [plain_row]
  /\ length [plain_row]
     + list_sum (map (fun s =>
                        length (filter (fun r => boilerplate
                                                   (py_str no_float_str (nth 2 r CNaN)))
                                       (rows s)))
                     (filter retained plain_sheets))
     = list_sum (map (fun s => length (rows s)) (filter retained plain_sheets)).
Proof.
  assert (loaded no_float_str plain_sheets [plain_row]) as L
    by (left; vm_compute; reflexivity).
  split; [exact L|].
  exact (proj1 (proj2 (proj2 (loaded_company_not_boilerplate
                                no_float_str plain_sheets [plain_row] L)))).
Defined.

(* ------------------------------------------------------------------ *)
(** ** Capping *)

Module CapFacts.
Import Float.

Lemma compare_refl (x : float) : isnan x = false -> SFcompare x x = Some Eq.
Proof.
  destruct x as [s|s| |s m e]; simpl; try discriminate; intros _.
  - reflexivity.
  - destruct s; reflexivity.
  - destruct s; rewrite Z.compare_refl;
      change (Pos.compare_cont Eq m m) with (m ?= m)%positive;
      rewrite Pos.compare_refl; reflexivity.
Qed.

Lemma eqb_refl (x : float) : isnan x = false -> eqb x x = true.
Proof. intros H. unfold eqb, SFeqb. now rewrite compare_refl. Qed.

Lemma leb_refl (x : float) : isnan x = false -> leb x x = true.
Proof. intros H. unfold leb, SFleb. now rewrite compare_refl. Qed.

Lemma cap_le (x : float) : leb x one = true -> cap x = x.
Proof.
  intros H. unfold cap, clip_upper.
  rewrite (FloatFacts.leb_not_nan x one H). now rewrite H.
Qed.

Lemma cap_gt (x : float) : ltb one x = true -> cap x = one.
Proof.
  intros H. unfold cap, clip_upper.
  rewrite (FloatFacts.ltb_not_nan_r one x H).
  now rewrite (FloatFacts.ltb_not_leb one x H).
Qed.

Lemma cap_idempotent (x : float) : cap (cap x) = cap x.
Proof.
  unfold cap, clip_upper.
  destruct (isnan x) eqn:N; [reflexivity|].
  destruct (leb x one) eqn:L.
  - now rewrite N, L.
  - reflexivity.
Qed.

Lemma cap_not_nan (x : float) : isnan x = false -> isnan (cap x) = false.
Proof.
  intros N. unfold cap, clip_upper. rewrite N.
  destruct (leb x one); [exact N | reflexivity].
Qed.

(** A capped number is at most 1.0. *)
Lemma cap_le_one (x : float) : isnan x = false -> leb (cap x) one = true.
Proof.
  intros N. unfold cap, clip_upper. rewrite N.
  destruct (leb x one) eqn:L; [exact L | reflexivity].
Qed.

End CapFacts.

Lemma filter_all {A} (p : A -> bool) (l : list A) :
  (forall a, In a l -> p a = true) -> filter p l = l.
Proof.
  induction l as [|a l IH]; intros H; simpl; [reflexivity|].
  rewrite (H a (or_introl eq_refl)). f_equal. apply IH.
  intros b Hb. apply H. now right.
Qed.

Lemma with_sdo_In {A} (sdo : A -> float) (df : list A) r :
  In r (with_sdo sdo df)
  <-> In r df /\ Float.isnan (sdo r) = false /\ Float.gtb (sdo r) Float.zero = true.
Proof.
  unfold with_sdo, positive, dropna. rewrite !filter_In, negb_true_iff. tauto.
Qed.

(** Outside the values the views cap: the cap of NaN is NaN, which is
    not [==] to itself. *)
Lemma cap_of_nan_not_equal :
  Float.eqb (cap (cap Float.nan)) (cap Float.nan) = false.
Proof. reflexivity. Qed.

(** C7. For every float [x] that is a number (not NaN): capping twice
    is capping once, [cap x == x] when [x <= 1.0], and [cap x == 1.0]
    when [x > 1.0]; in each case the two sides are the same float. And
    every value the views cap is a number: the frames of BQ2 and BQ6
    and the dashboard's [vendor_with_sdo] cap the commitments that
    passed [dropna] and the test [> 0], each value on its own. *)
Theorem cap_properties :
  (forall x : float,
      Float.isnan x = false ->
      (Float.eqb (cap (cap x)) (cap x) = true /\ cap (cap x) = cap x)
      /\ (Float.leb x Float.one = true ->
          Float.eqb (cap x) x = true /\ cap x = x)
      /\ (Float.gtb x Float.one = true ->
          Float.eqb (cap x) Float.one = true /\ cap x = Float.one))
  /\ (forall (vendor_df : table) r,
         In r (bq2_sdo_capped vendor_df) ->
         exists r0, In r0 vendor_df
                    /\ Float.isnan (SDO_Commitment_Pct r0) = false
                    /\ Float.gtb (SDO_Commitment_Pct r0) Float.zero = true
                    /\ SDO_Commitment_Pct r = cap (SDO_Commitment_Pct r0))
  /\ (forall (vendor_df : table) c,
         In c (bq6_sdo_df vendor_df) ->
         In (row c) vendor_df
         /\ Float.isnan (SDO_Commitment_Pct (row c)) = false
         /\ Float.gtb (SDO_Commitment_Pct (row c)) Float.zero = true
         /\ SDO_Capped c = cap (SDO_Commitment_Pct (row c)))
  /\ (forall (dash_df : list dash_row) c,
         In c (vendor_with_sdo dash_df) ->
         In (row c) dash_df
         /\ Float.isnan (SDO_Commitment_Pct (base (row c))) = false
         /\ Float.gtb (SDO_Commitment_Pct (base (row c))) Float.zero = true
         /\ SDO_Capped c = cap (SDO_Commitment_Pct (base (row c)))).
Proof.
  split; [|split; [|split]].
  - intros x N. split; [|split].
    + rewrite CapFacts.cap_idempotent. split; [|reflexivity].
      apply CapFacts.eqb_refl. now apply CapFacts.cap_not_nan.
    + intros L. rewrite (CapFacts.cap_le x L). split; [|reflexivity].
      now apply CapFacts.eqb_refl.
    + intros G. unfold Float.gtb in G. fold (Float.ltb Float.one x) in G.
      rewrite (CapFacts.cap_gt x G). split; reflexivity.
  - intros vendor_df r Hr. unfold bq2_sdo_capped in Hr.
    apply in_map_iff in Hr as (r0 & <- & Hr0).
    apply with_sdo_In in Hr0 as (Hin & N & G). exists r0. auto.
  - intros vendor_df c Hc. unfold bq6_sdo_df in Hc.
    apply in_map_iff in Hc as (r0 & <- & Hr0).
    apply with_sdo_In in Hr0 as (Hin & N & G). cbn [row SDO_Capped]. auto.
  - intros dash_df c Hc. unfold vendor_with_sdo in Hc.
    apply in_map_iff in Hc as (r0 & <- & Hr0).
    apply with_sdo_In in Hr0 as (Hin & N & G). cbn [row SDO_Capped]. auto.
Qed.

Lemma cap_properties_witness :
  (Float.eqb (cap (cap one_and_a_half)) (cap one_and_a_half) = true
   /\ cap (cap one_and_a_half) = cap one_and_a_half)
  /\ (Float.leb one_and_a_half Float.one = true ->
      Float.eqb (cap one_and_a_half) one_and_a_half = true
      /\ cap one_and_a_half = one_and_a_half)
  /\ (Float.gtb one_and_a_half Float.one = true ->
      Float.eqb (cap one_and_a_half) Float.one = true
      /\ cap one_and_a_half = Float.one).
Proof. apply (proj1 cap_properties one_and_a_half). reflexivity. Defined.

(* ------------------------------------------------------------------ *)
(** ** Group keys and the inclusion threshold *)

Lemma insert_key_In {K} (cmp : K -> K -> comparison) :
  (forall a b, cmp a b = Eq -> a = b) ->
  forall k x keys, In x (insert_key cmp k keys) <-> x = k \/ In x keys.
Proof.
  intros Heq k x keys. induction keys as [|h t IH]; cbn [insert_key].
  - simpl. intuition.
  - destruct (cmp k h) eqn:C.
    + apply Heq in C as ->. simpl. intuition.
    + simpl. intuition.
    + simpl. rewrite IH. intuition.
Qed.

Lemma group_keys_In {K} (cmp : K -> K -> comparison) :
  (forall a b, cmp a b = Eq -> a = b) ->
  forall x column, In x (group_keys cmp column) <-> In x column.
Proof.
  intros Heq x column. induction column as [|k t IH]; cbn [group_keys fold_right].
  - reflexivity.
  - fold (group_keys cmp t). rewrite (insert_key_In cmp Heq), IH. simpl. intuition.
Qed.

Lemma pair_compare_eq a b : pair_compare a b = Eq -> a = b.
Proof.
  destruct a as [a1 a2], b as [b1 b2]. unfold pair_compare. cbn [fst snd].
  destruct (String.compare a1 b1) eqn:C1; try discriminate.
  intros C2. apply String.compare_eq_iff in C1, C2. congruence.
Qed.

Lemma isin_In values x : isin values x = true <-> In x values.
Proof.
  unfold isin, Str.mem. rewrite existsb_exists. split.
  - intros (y & Hin & E). apply String.eqb_eq in E. now subst.
  - intros Hin. exists x. split; [exact Hin | apply String.eqb_refl].
Qed.

Section Threshold.
Context {A : Type} (category : A -> string).

Lemma valid_cats_In threshold df c :
  In c (valid_cats_at threshold category df)
  <-> In c (map category df) /\ threshold <= rows_of_category category df c.
Proof.
  unfold valid_cats_at, category_sizes, rows_of_category.
  rewrite in_map_iff. split.
  - intros ([c' n] & <- & H). apply filter_In in H as [H1 H2].
    apply in_map_iff in H1 as (c'' & [= -> <-] & H1).
    apply (proj1 (group_keys_In _ String.compare_eq_iff _ _)) in H1.
    cbn [snd] in H2. apply Nat.leb_le in H2. cbn [fst]. auto.
  - intros [H1 H2].
    exists (c, length (filter (fun r => String.eqb (category r) c) df)).
    split; [reflexivity|]. apply filter_In. split.
    + apply in_map_iff. exists c. split; [reflexivity|].
      now apply (proj2 (group_keys_In _ String.compare_eq_iff _ _)).
    + cbn [snd]. now apply Nat.leb_le.
Qed.

Lemma valid_cats_monotone t1 t2 df :
  t1 <= t2 -> incl (valid_cats_at t2 category df) (valid_cats_at t1 category df).
Proof.
  intros Hle c Hc. apply (proj1 (valid_cats_In _ _ _)) in Hc as [H1 H2].
  apply valid_cats_In. split; [exact H1 | lia].
Qed.

Lemma sdo_valid_monotone t1 t2 df :
  t1 <= t2 -> incl (sdo_valid_at t2 category df) (sdo_valid_at t1 category df).
Proof.
  intros Hle r Hr. unfold sdo_valid_at in *.
  apply filter_In in Hr as [H1 H2]. apply filter_In. split; [exact H1|].
  apply isin_In. apply (proj1 (isin_In _ _)) in H2.
  now apply (valid_cats_monotone t1 t2).
Qed.

Lemma sdo_valid_enough threshold df r :
  In r (sdo_valid_at threshold category df) ->
  threshold <= rows_of_category category df (category r).
Proof.
  unfold sdo_valid_at. intros H. apply filter_In in H as [_ H].
  apply isin_In in H. now apply (proj1 (valid_cats_In _ _ _)) in H.
Qed.

End Threshold.

Lemma length_filter_map {A B} (f : A -> B) (p : B -> bool) (l : list A) :
  length (filter p (map f l)) = length (filter (fun a => p (f a)) l).
Proof.
  induction l as [|a l IH]; simpl; [reflexivity|].
  destruct (p (f a)); simpl; now rewrite IH.
Qed.

(** C6. A category with fewer than 10 SDO-eligible rows has no row in
    the box-plot frame of the EDA script nor in that of the dashboard;
    and for thresholds t1 <= t2 the categories (and the rows) included
    at t2 are among those included at t1. *)
Theorem category_threshold :
  (forall (vendor_df : table) c,
      length (filter (fun r => String.eqb (Category r) c)
                     (with_sdo SDO_Commitment_Pct vendor_df)) < 10 ->
      ~ In c (map (fun r => Category (row r))
                  (bq6_sdo_distribution_outliers vendor_df)))
  /\ (forall (vendor_df : list dash_row) c,
         length (filter (fun r => String.eqb (Category (base r)) c)
                        (with_sdo (fun r => SDO_Commitment_Pct (base r)) vendor_df)) < 10 ->
         ~ In c (map (fun r => Category (base (row r))) (make_bq6_chart vendor_df)))
  /\ (forall A (category : A -> string) (df : list A) t1 t2,
         t1 <= t2 ->
         incl (valid_cats_at t2 category df) (valid_cats_at t1 category df)
         /\ incl (sdo_valid_at t2 category df) (sdo_valid_at t1 category df)).
Proof.
  split; [|split].
  - intros vendor_df c Hlt Hin.
    apply in_map_iff in Hin as (r & <- & Hr).
    apply sdo_valid_enough in Hr.
    unfold rows_of_category, bq6_sdo_df in Hr.
    rewrite (length_filter_map _ (fun r0 => String.eqb (Category (row r0)) _)) in Hr.
    cbn [row] in Hr. lia.
  - intros vendor_df c Hlt Hin.
    apply in_map_iff in Hin as (r & <- & Hr).
    apply sdo_valid_enough in Hr.
    unfold rows_of_category, vendor_with_sdo in Hr.
    rewrite (length_filter_map _ (fun r0 => String.eqb (Category (base (row r0))) _)) in Hr.
    cbn [row] in Hr. lia.
  - intros A category df t1 t2 Hle. split.
    + now apply valid_cats_monotone.
    + now apply sdo_valid_monotone.
Qed.

(* ------------------------------------------------------------------ *)
(** ** Sorting a frame by one column *)

Section TakeFacts.
Context {A : Type}.

Lemma take_app (i1 i2 : list nat) (l : list A) :
  take (i1 ++ i2) l = take i1 l ++ take i2 l.
Proof. unfold take. apply flat_map_app. Qed.

Lemma take_rev (idx : list nat) (l : list A) :
  take (rev idx) l = rev (take idx l).
Proof.
  induction idx as [|i idx IH]; [reflexivity|].
  cbn [rev]. rewrite take_app, IH. unfold take at 2 3. cbn [flat_map].
  rewrite rev_app_distr, app_nil_r.
  destruct (nth_error l i); reflexivity.
Qed.

Lemma take_seq_app (l1 l2 : list A) :
  take (seq (length l1) (length l2)) (l1 ++ l2) = l2.
Proof.
  revert l1. induction l2 as [|a l2 IH]; intros l1; [reflexivity|].
  cbn [length seq]. unfold take. cbn [flat_map].
  rewrite nth_error_app2, Nat.sub_diag by lia. cbn [nth_error app].
  f_equal. specialize (IH (l1 ++ [a])).
  rewrite length_app, Nat.add_1_r, <- app_assoc in IH. exact IH.
Qed.

Lemma take_seq (l : list A) : take (seq 0 (length l)) l = l.
Proof. exact (take_seq_app [] l). Qed.

Lemma Permutation_take (idx : list nat) (l : list A) :
  Permutation idx (seq 0 (length l)) -> Permutation (take idx l) l.
Proof.
  intros H. rewrite <- (take_seq l) at 2. unfold take.
  now apply Permutation_flat_map.
Qed.

(** Reading positions through positions. *)
Lemma nth_error_take (r : list nat) (l : list A) :
  Forall (fun i => i < length l) r ->
  forall j, nth_error (take r l) j
            = match nth_error r j with
              | Some i => nth_error l i
              | None => None
              end.
Proof.
  induction 1 as [|i r Hi _ IH]; intros j.
  - now destruct j.
  - unfold take. cbn [flat_map]. fold (take r l).
    destruct (nth_error l i) as [a|] eqn:E.
    + destruct j; cbn [nth_error app]; [now rewrite E | apply IH].
    + apply nth_error_None in E. lia.
Qed.

End TakeFacts.

Lemma take_cons {A} i (idx : list nat) (l : list A) :
  take (i :: idx) l
  = match nth_error l i with Some a => [a] | None => [] end ++ take idx l.
Proof. reflexivity. Qed.

Lemma take_take {A} (j r : list nat) (l : list A) :
  Forall (fun i => i < length l) r ->
  take (take j r) l = take j (take r l).
Proof.
  intros Hr. induction j as [|k j IH]; [reflexivity|].
  rewrite (take_cons k j r), (take_cons k j (take r l)), take_app, IH.
  f_equal. rewrite (nth_error_take r l Hr k).
  destruct (nth_error r k) as [i|]; [|reflexivity].
  rewrite take_cons. apply app_nil_r.
Qed.

Lemma take_map {A B} (f : A -> B) (idx : list nat) (l : list A) :
  map f (take idx l) = take idx (map f l).
Proof.
  induction idx as [|i idx IH]; [reflexivity|].
  unfold take. cbn [flat_map]. rewrite map_app. fold (take idx l).
  fold (take idx (map f l)). rewrite IH, nth_error_map.
  destruct (nth_error l i); reflexivity.
Qed.

Lemma seq_bound n : Forall (fun i => i < n) (seq 0 n).
Proof. apply Forall_forall. intros i H. apply in_seq in H. lia. Qed.

Lemma select_true {A} (mask : list bool) (l : list A) :
  length mask = length l -> Forall (fun b => b = true) mask -> select mask l = l.
Proof.
  unfold select. revert mask. induction l as [|a l IH]; intros [|b mask] Hlen H;
    try reflexivity; try discriminate.
  inversion H; subst. cbn [combine filter snd map fst]. f_equal.
  apply IH; [now injection Hlen | assumption].
Qed.

Lemma select_false {A} (mask : list bool) (l : list A) :
  Forall (fun b => b = false) mask -> select mask l = [].
Proof.
  unfold select. revert mask. induction l as [|a l IH]; intros [|b mask] H;
    try reflexivity.
  inversion H; subst. cbn [combine filter snd]. now apply IH.
Qed.

Lemma Sorted_snoc {A} (R : A -> A -> Prop) (l : list A) (a : A) :
  Sorted R l -> (forall l' b, l = l' ++ [b] -> R b a) -> Sorted R (l ++ [a]).
Proof.
  induction 1 as [|x l Hs IH Hd]; intros Hlast.
  - repeat constructor.
  - cbn [app]. constructor.
    + apply IH. intros l' b ->. now apply (Hlast (x :: l') b).
    + destruct l as [|y l]; cbn [app].
      * constructor. now apply (Hlast [] x).
      * constructor. now inversion Hd.
Qed.

Section SortedFacts.
Context {A : Type} (R : A -> A -> Prop).

Lemma Sorted_rev (l : list A) :
  Sorted R l -> Sorted (fun a b => R b a) (rev l).
Proof.
  induction 1 as [|x l Hs IH Hd]; [constructor|].
  cbn [rev]. apply Sorted_snoc; [exact IH|].
  intros l' b E. destruct l as [|y l].
  - destruct l'; discriminate E.
  - inversion Hd as [|? ? Hxy]; subst.
    cbn [rev] in E. apply app_inj_tail in E as [_ <-]. exact Hxy.
Qed.

Lemma Sorted_firstn n (l : list A) : Sorted R l -> Sorted R (firstn n l).
Proof.
  intros H. revert n. induction H as [|x l Hs IH Hd]; intros [|n];
    try constructor.
  - apply IH.
  - destruct Hd as [|y l' Hxy]; destruct n; constructor. exact Hxy.
Qed.

Lemma Sorted_skipn n (l : list A) : Sorted R l -> Sorted R (skipn n l).
Proof.
  intros H. revert n. induction H as [|x l Hs IH Hd]; intros [|n];
    try constructor; auto.
  apply IH.
Qed.

End SortedFacts.

Lemma Sorted_map {A B} (f : A -> B) (R : B -> B -> Prop) (l : list A) :
  Sorted R (map f l) -> Sorted (fun a b => R (f a) (f b)) l.
Proof.
  induction l as [|a l IH]; [constructor|].
  cbn [map]. intros H. inversion H as [|? ? Hs Hd]; subst. constructor.
  - now apply IH.
  - destruct l; constructor. now inversion Hd.
Qed.

Section SortValues.

Variable argsort : list float -> list nat.
Hypothesis argsort_ok : argsort_spec argsort.

Context {A : Type} (by_ : A -> float).

Lemma masks (df : list A) :
  no_nan by_ df ->
  Forall (fun b => b = false) (map Float.isnan (map by_ df))
  /\ Forall (fun b => b = true) (map negb (map Float.isnan (map by_ df))).
Proof.
  unfold no_nan. intros H. split.
  - apply Forall_map. eapply Forall_impl; [|exact H]. auto.
  - apply Forall_map, Forall_map. eapply Forall_impl; [|exact H].
    cbn beta. intros v ->. reflexivity.
Qed.

Lemma sort_values_ascending (df : list A) :
  no_nan by_ df ->
  sort_values argsort by_ true df = take (argsort (map by_ df)) df.
Proof.
  intros H. destruct (masks df H) as [Hf Ht].
  unfold sort_values, nargsort.
  rewrite (select_false _ _ Hf), app_nil_r.
  rewrite !select_true; try exact Ht; rewrite ?length_map, ?length_seq; try reflexivity.
  rewrite ?length_map, take_take by apply seq_bound.
  now rewrite take_seq.
Qed.

Lemma sort_values_descending (df : list A) :
  no_nan by_ df ->
  sort_values argsort by_ false df
  = rev (take (argsort (map by_ (rev df))) (rev df)).
Proof.
  intros H. destruct (masks df H) as [Hf Ht].
  unfold sort_values, nargsort.
  rewrite (select_false _ _ Hf), app_nil_r.
  rewrite !select_true; try exact Ht; rewrite ?length_map, ?length_seq; try reflexivity.
  rewrite ?length_map, take_rev. f_equal.
  rewrite take_take by apply Forall_rev, seq_bound.
  now rewrite take_rev, take_seq, map_rev.
Qed.

Lemma no_nan_rev (df : list A) : no_nan by_ df -> no_nan by_ (rev df).
Proof. unfold no_nan. rewrite map_rev. apply Forall_rev. Qed.

Lemma sort_values_perm (ascending : bool) (df : list A) :
  no_nan by_ df -> Permutation (sort_values argsort by_ ascending df) df.
Proof.
  intros H. destruct ascending.
  - rewrite sort_values_ascending by exact H.
    apply Permutation_take. rewrite <- (length_map by_ df).
    now apply argsort_ok.
  - rewrite sort_values_descending by exact H.
    apply Permutation_trans with (take (argsort (map by_ (rev df))) (rev df));
      [apply Permutation_sym, Permutation_rev|].
    apply Permutation_trans with (rev df);
      [|apply Permutation_sym, Permutation_rev].
    apply Permutation_take. rewrite <- (length_map by_ (rev df)).
    now apply argsort_ok, no_nan_rev.
Qed.

Lemma sort_values_increasing (df : list A) :
  no_nan by_ df ->
  Sorted (fun a b => Float.leb (by_ a) (by_ b) = true)
         (sort_values argsort by_ true df).
Proof.
  intros H. rewrite sort_values_ascending by exact H.
  apply (Sorted_map by_ (fun a b => Float.leb a b = true)).
  rewrite take_map. now apply argsort_ok.
Qed.

Lemma sort_values_decreasing (df : list A) :
  no_nan by_ df ->
  Sorted (fun a b => Float.leb (by_ b) (by_ a) = true)
         (sort_values argsort by_ false df).
Proof.
  intros H. rewrite sort_values_descending by exact H.
  apply (Sorted_rev (fun a b => Float.leb (by_ a) (by_ b) = true)).
  apply (Sorted_map by_ (fun a b => Float.leb a b = true)).
  rewrite take_map. now apply argsort_ok, no_nan_rev.
Qed.

End SortValues.
(* ------------------------------------------------------------------ *)
(** ** Sorting a column that may hold missing values *)

Lemma select_In {A} (mask : list bool) (l : list A) x :
  In x (select mask l) -> In x l.
Proof.
  unfold select. intros H. apply in_map_iff in H as ([y b] & <- & H).
  apply filter_In in H as [H _]. now apply in_combine_l in H.
Qed.

Lemma take_select_seq {A} (mask : list bool) (l pre : list A) :
  length mask = length l ->
  take (select mask (seq (length pre) (length l))) (pre ++ l) = select mask l.
Proof.
  revert mask pre. induction l as [|a l IH]; intros [|b mask] pre Hlen;
    try discriminate Hlen; [reflexivity|].
  injection Hlen as Hlen. cbn [length seq]. unfold select.
  cbn [combine filter snd]. fold (select mask (seq (S (length pre)) (length l))).
  fold (select mask l).
  specialize (IH mask (pre ++ [a]) Hlen).
  rewrite length_app, Nat.add_1_r, <- app_assoc in IH. cbn [app] in IH.
  destruct b; cbn [map fst]; [|exact IH].
  fold (select mask (seq (S (length pre)) (length l))). fold (select mask l).
  rewrite take_cons, nth_error_app2, Nat.sub_diag by lia. cbn [nth_error app].
  now rewrite IH.
Qed.

Lemma filter_partition {A} (p : A -> bool) (l : list A) :
  Permutation (filter (fun a => negb (p a)) l ++ filter p l) l.
Proof.
  induction l as [|a l IH]; [reflexivity|].
  cbn [filter]. destruct (p a); cbn [negb app].
  - apply Permutation_sym, Permutation_cons_app, Permutation_sym, IH.
  - now constructor.
Qed.

Section SortWithMissing.

Variable argsort : list float -> list nat.
Hypothesis argsort_ok : argsort_spec argsort.

Context {A : Type} (by_ : A -> float).

Lemma dropna_no_nan (df : list A) : no_nan by_ (dropna by_ df).
Proof.
  unfold no_nan, dropna. apply Forall_map, Forall_forall. intros r Hr.
  apply filter_In in Hr as [_ Hr]. now apply negb_true_iff in Hr.
Qed.

(** The rows with a value come first, in the order of the routine; the
    rows without one follow, in the order of the frame. *)
Lemma sort_values_nan_last (df : list A) :
  sort_values argsort by_ true df
  = take (argsort (map by_ (dropna by_ df))) (dropna by_ df)
    ++ filter (fun r => Float.isnan (by_ r)) df.
Proof.
  unfold sort_values, nargsort. cbv zeta. rewrite take_app.
  assert (select (map negb (map Float.isnan (map by_ df))) df = dropna by_ df) as E1.
  { rewrite !map_map. apply (select_map (fun r => negb (Float.isnan (by_ r)))). }
  assert (select (map Float.isnan (map by_ df)) df
          = filter (fun r => Float.isnan (by_ r)) df) as E2.
  { rewrite !map_map. apply (select_map (fun r => Float.isnan (by_ r))). }
  assert (select (map negb (map Float.isnan (map by_ df))) (map by_ df)
          = map by_ (dropna by_ df)) as E3.
  { rewrite (map_map Float.isnan negb (map by_ df)).
    rewrite (select_map (fun v => negb (Float.isnan v)) (map by_ df)).
    exact (filter_map_swap by_ (fun v => negb (Float.isnan v)) df). }
  rewrite E3, !length_map.
  rewrite take_take.
  - rewrite (take_select_seq _ df []) by now rewrite !length_map.
    rewrite (take_select_seq _ df []) by now rewrite !length_map.
    now rewrite E1, E2.
  - apply Forall_forall. intros i Hi. apply select_In, in_seq in Hi. lia.
Qed.

Lemma sort_values_perm_all (df : list A) :
  Permutation (sort_values argsort by_ true df) df.
Proof.
  rewrite sort_values_nan_last.
  apply Permutation_trans
    with (dropna by_ df ++ filter (fun r => Float.isnan (by_ r)) df).
  - apply Permutation_app_tail, Permutation_take.
    rewrite <- (length_map by_ (dropna by_ df)).
    apply argsort_ok, dropna_no_nan.
  - apply (filter_partition (fun r => Float.isnan (by_ r))).
Qed.

Lemma Sorted_nan_last (l l' : list A) :
  Sorted (fun a b => Float.leb (by_ a) (by_ b) = true) l ->
  Forall (fun b => Float.isnan (by_ b) = true) l' ->
  Sorted (fun a b => Float.leb (by_ a) (by_ b) = true
                     \/ Float.isnan (by_ b) = true) (l ++ l').
Proof.
  intros Hs Hn. induction Hs as [|a l Hs IH Hd]; cbn [app].
  - induction Hn as [|b l' Hb Hn IH]; constructor; [exact IH|].
    destruct Hn; constructor. now right.
  - constructor; [exact IH|]. destruct Hd as [|a' l Ha'].
    + cbn [app]. destruct Hn; constructor. now right.
    + constructor. now left.
Qed.

Lemma sort_values_increasing_all (df : list A) :
  Sorted (fun a b => Float.leb (by_ a) (by_ b) = true
                     \/ Float.isnan (by_ b) = true)
         (sort_values argsort by_ true df).
Proof.
  rewrite sort_values_nan_last. apply Sorted_nan_last.
  - apply (Sorted_map by_ (fun a b => Float.leb a b = true)).
    rewrite take_map. apply argsort_ok, dropna_no_nan.
  - apply Forall_forall. intros r Hr. now apply filter_In in Hr.
Qed.

End SortWithMissing.

(* ------------------------------------------------------------------ *)
(** ** The insertion routine meets the contract *)

Module InsertionSort.

Lemma insert_pos_perm p l : Permutation (insert_pos p l) (p :: l).
Proof.
  induction l as [|h t IH]; cbn [insert_pos]; [reflexivity|].
  destruct (Float.leb (snd p) (snd h)); [reflexivity|].
  rewrite IH. apply perm_swap.
Qed.

Lemma sort_perm l : Permutation (fold_right insert_pos [] l) l.
Proof.
  induction l as [|p l IH]; cbn [fold_right]; [reflexivity|].
  rewrite insert_pos_perm. now constructor.
Qed.

Lemma insert_pos_sorted p l :
  Float.isnan (snd p) = false ->
  Forall (fun q => Float.isnan (snd q) = false) l ->
  Sorted by_value l -> Sorted by_value (insert_pos p l).
Proof.
  intros Hp Hl Hs. induction Hs as [|h t Hs IH Hd]; cbn [insert_pos].
  - repeat constructor.
  - inversion Hl as [|? ? Hh Ht]; subst.
    destruct (Float.leb (snd p) (snd h)) eqn:L.
    + constructor; [now constructor | now constructor].
    + constructor; [now apply IH|].
      assert (by_value h p) as Hhp.
      { destruct (FloatFacts.leb_total (snd p) (snd h) Hp Hh) as [E|E];
          [congruence | exact E]. }
      destruct t as [|k t]; cbn [insert_pos]; [now constructor|].
      destruct (Float.leb (snd p) (snd k)); constructor; [exact Hhp|].
      now inversion Hd.
Qed.

Lemma sort_sorted l :
  Forall (fun q => Float.isnan (snd q) = false) l ->
  Sorted by_value (fold_right insert_pos [] l).
Proof.
  induction 1 as [|p l Hp Hl IH]; cbn [fold_right]; [constructor|].
  apply insert_pos_sorted; [exact Hp| |exact IH].
  eapply Permutation_Forall; [|exact Hl]. apply Permutation_sym, sort_perm.
Qed.

Lemma map_fst_combine {A B} (a : list A) (b : list B) :
  length a = length b -> map fst (combine a b) = a.
Proof.
  revert b. induction a as [|x a IH]; intros [|y b] H; try reflexivity;
    try discriminate.
  cbn [combine map fst]. f_equal. apply IH. now injection H.
Qed.

Lemma map_snd_combine {A B} (a : list A) (b : list B) :
  length a = length b -> map snd (combine a b) = b.
Proof.
  revert b. induction a as [|x a IH]; intros [|y b] H; try reflexivity;
    try discriminate.
  cbn [combine map snd]. f_equal. apply IH. now injection H.
Qed.

(** Each pair holds a position and the value at that position. *)
Lemma positions_read (l1 l2 : list float) :
  Forall (fun p => nth_error (l1 ++ l2) (fst p) = Some (snd p))
         (combine (seq (length l1) (length l2)) l2).
Proof.
  revert l1. induction l2 as [|v l2 IH]; intros l1; [constructor|].
  cbn [length seq combine]. constructor.
  - cbn [fst snd]. rewrite nth_error_app2, Nat.sub_diag by lia. reflexivity.
  - specialize (IH (l1 ++ [v])).
    rewrite length_app, Nat.add_1_r, <- app_assoc in IH. exact IH.
Qed.

Lemma take_positions (items : list float) (ps : list (nat * float)) :
  Forall (fun p => nth_error items (fst p) = Some (snd p)) ps ->
  take (map fst ps) items = map snd ps.
Proof.
  induction 1 as [|p ps Hp _ IH]; [reflexivity|].
  cbn [map]. rewrite take_cons, Hp, IH. reflexivity.
Qed.

Lemma Sorted_map_snd (ps : list (nat * float)) :
  Sorted by_value ps -> Sorted (fun a b => Float.leb a b = true) (map snd ps).
Proof.
  induction 1 as [|p ps Hs IH Hd]; [constructor|].
  cbn [map]. constructor; [exact IH|].
  destruct Hd; constructor. assumption.
Qed.

Lemma meets_contract : argsort_spec insertion_argsort.
Proof.
  intros items Hnan. unfold insertion_argsort.
  set (pairs := combine (seq 0 (length items)) items).
  assert (Permutation (fold_right insert_pos [] pairs) pairs) as P
    by apply sort_perm.
  split.
  - rewrite <- (map_fst_combine (seq 0 (length items)) items)
      by now rewrite length_seq.
    now apply Permutation_map.
  - rewrite take_positions.
    + apply Sorted_map_snd, sort_sorted.
      apply Forall_forall. intros p Hp.
      rewrite Forall_forall in Hnan. apply Hnan.
      assert (In (snd p) (map snd pairs)) as H by now apply in_map.
      unfold pairs in H.
      now rewrite map_snd_combine in H by now rewrite length_seq.
    + eapply Permutation_Forall; [apply Permutation_sym, P|].
      exact (positions_read [] items).
Qed.

End InsertionSort.

(* ------------------------------------------------------------------ *)
(** ** BQ1: groups and their maxima *)

Module GroupMax.
Import Float.

Lemma fold_max_In l m : In (fold_left fmax l m) (m :: l).
Proof.
  revert m. induction l as [|v l IH]; intros m; [now left|].
  cbn [fold_left]. destruct (IH (fmax m v)) as [H|H].
  - rewrite <- H. unfold fmax. destruct (ltb m v); simpl; auto.
  - right. now right.
Qed.

Lemma fold_max_upper l m :
  isnan m = false -> Forall (fun v => isnan v = false) l ->
  leb m (fold_left fmax l m) = true
  /\ forall v, In v l -> leb v (fold_left fmax l m) = true.
Proof.
  intros Hm Hl. revert m Hm.
  induction Hl as [|v l Hv Hl IH]; intros m Hm.
  - split; [now apply CapFacts.leb_refl | intros v []].
  - cbn [fold_left].
    assert (isnan (fmax m v) = false /\ leb m (fmax m v) = true
            /\ leb v (fmax m v) = true) as (N & L1 & L2).
    { unfold fmax. destruct (ltb m v) eqn:T.
      - split; [exact Hv|]. split;
          [now apply FloatOrder.ltb_leb | now apply CapFacts.leb_refl].
      - split; [exact Hm|]. split;
          [now apply CapFacts.leb_refl | now apply FloatOrder.not_ltb_leb]. }
    destruct (IH (fmax m v) N) as [U1 U2]. split.
    + eapply FloatOrder.leb_trans; eauto.
    + intros w [<-|Hw]; [eapply FloatOrder.leb_trans; eauto | now apply U2].
Qed.

(** The maximum of a group of numbers is one of them and none is
    above it. *)
Lemma group_max_spec l :
  l <> [] -> Forall (fun v => isnan v = false) l ->
  In (group_max l) l /\ forall v, In v l -> leb v (group_max l) = true.
Proof.
  intros Hne Hl. unfold group_max.
  rewrite filter_all
    by (intros v Hv; rewrite Forall_forall in Hl; now rewrite (Hl v Hv)).
  destruct l as [|v0 l0] eqn:E; [contradiction|]. rewrite <- E in *.
  change (fun m v => if ltb m v then v else m) with fmax.
  destruct (fold_max_upper l neg_inf eq_refl Hl) as [_ U].
  split; [|exact U].
  destruct (fold_max_In l neg_inf) as [H|H]; [|exact H].
  assert (In v0 l) as Hv0 by (rewrite E; now left).
  pose proof (U v0 Hv0) as L. rewrite <- H in L.
  apply FloatOrder.leb_neg_inf in L. rewrite <- H, <- L. exact Hv0.
Qed.

End GroupMax.

Lemma pair_eqb_eq a b : pair_eqb a b = true <-> a = b.
Proof.
  destruct a as [a1 a2], b as [b1 b2]. unfold pair_eqb. cbn [fst snd].
  rewrite andb_true_iff, !String.eqb_eq. split; [intros []|intros [=]]; subst; auto.
Qed.

Lemma present_In {A} (l : list (option A)) a : In a (present l) <-> In (Some a) l.
Proof.
  induction l as [|[b|] l IH]; cbn [present]; simpl.
  - tauto.
  - rewrite IH. split; intros [H|H]; auto; left; congruence.
  - rewrite IH. split; [auto | intros [H|H]; [discriminate | exact H]].
Qed.

Lemma In_firstn {A} n (l : list A) a : In a (firstn n l) -> In a l.
Proof. intros H. rewrite <- (firstn_skipn n l). apply in_or_app. now left. Qed.

Lemma In_skipn {A} n (l : list A) a : In a (skipn n l) -> In a l.
Proof. intros H. rewrite <- (firstn_skipn n l). apply in_or_app. now right. Qed.

Lemma bq1_it_with_sdo_In vendor_df r :
  In r (bq1_it_with_sdo vendor_df) <-> In r vendor_df /\ it_eligible r.
Proof.
  unfold bq1_it_with_sdo, it_eligible. rewrite with_sdo_In, filter_In, isin_In.
  tauto.
Qed.

(** What a row of the grouped frame of BQ1 says. *)
Lemma bq1_group_spec (rows : table) g :
  Forall (fun r => Float.isnan (SDO_Commitment_Pct r) = false) rows ->
  In g (bq1_groups rows) ->
  Float.isnan (SDO_Max g) = false
  /\ (exists r, In r rows /\ Company r = bq1_Company g
                /\ Category r = bq1_Category g
                /\ SDO_Commitment_Pct r = SDO_Max g)
  /\ (forall r, In r rows -> Company r = bq1_Company g ->
                Category r = bq1_Category g ->
                Float.leb (SDO_Commitment_Pct r) (SDO_Max g) = true).
Proof.
  intros Hnan Hg. unfold bq1_groups in Hg.
  apply in_map_iff in Hg as (k & <- & Hk).
  apply (proj1 (group_keys_In _ pair_compare_eq _ _)) in Hk.
  apply in_map_iff in Hk as (r0 & Hr0 & Hin0).
  cbn [SDO_Max bq1_Company bq1_Category].
  set (grp := filter (fun r => pair_eqb (bq1_key r) k) rows).
  assert (In r0 grp) as Hgrp
    by (apply filter_In; split; [exact Hin0 | now apply pair_eqb_eq]).
  assert (Forall (fun v => Float.isnan v = false) (map SDO_Commitment_Pct grp)) as Hv.
  { apply Forall_map, Forall_forall. intros r Hr. apply filter_In in Hr as [Hr _].
    rewrite Forall_forall in Hnan. now apply Hnan. }
  destruct (GroupMax.group_max_spec (map SDO_Commitment_Pct grp)) as [M U].
  { intros E. apply map_eq_nil in E. rewrite E in Hgrp. contradiction. }
  { exact Hv. }
  split; [|split].
  - rewrite Forall_forall in Hv. now apply Hv.
  - apply in_map_iff in M as (r & Hr & Hin). apply filter_In in Hin as [Hin Hkey].
    apply (proj1 (pair_eqb_eq _ _)) in Hkey. exists r. rewrite <- Hkey.
    cbn [bq1_key fst snd]. repeat split; auto.
  - intros r Hin Hc Hcat. apply U. apply in_map. apply filter_In.
    split; [exact Hin|]. apply pair_eqb_eq. unfold bq1_key.
    rewrite Hc, Hcat. now destruct k.
Qed.

Lemma vendor_with_sdo_In (vendor_df : list dash_row) c :
  In c (vendor_with_sdo vendor_df)
  <-> exists r, In r vendor_df /\ dash_eligible r
                /\ c = {| row := r; SDO_Capped := cap (SDO_Commitment_Pct (base r)) |}.
Proof.
  unfold vendor_with_sdo, dash_eligible. rewrite in_map_iff. split.
  - intros (r & <- & Hr). apply with_sdo_In in Hr. exists r. tauto.
  - intros (r & Hin & He & ->). exists r. split; [reflexivity|].
    apply with_sdo_In. tauto.
Qed.

Lemma dash_bq1_group_spec (df : list (capped dash_row)) g :
  Forall (fun r => Float.isnan (SDO_Capped r) = false) df ->
  In g (dash_bq1_groups df) ->
  Float.isnan (d1_SDO_Max g) = false
  /\ (exists r, In r df /\ Company (base (row r)) = d1_Company g
                /\ Category_Label (row r) = Some (d1_Category_Label g)
                /\ SDO_Capped r = d1_SDO_Max g)
  /\ (forall r, In r df -> Company (base (row r)) = d1_Company g ->
                Category_Label (row r) = Some (d1_Category_Label g) ->
                Float.leb (SDO_Capped r) (d1_SDO_Max g) = true).
Proof.
  intros Hnan Hg. unfold dash_bq1_groups in Hg.
  apply in_map_iff in Hg as (k & <- & Hk).
  apply (proj1 (group_keys_In _ pair_compare_eq _ _)) in Hk.
  apply present_In, in_map_iff in Hk as (r0 & Hr0 & Hin0).
  cbn [d1_SDO_Max d1_Company d1_Category_Label].
  set (grp := filter (has_key k) df).
  assert (forall r, has_key k r = true
                    <-> Company (base (row r)) = fst k
                        /\ Category_Label (row r) = Some (snd k)) as Hkey.
  { intros r. unfold has_key, dash_bq1_key.
    destruct (Category_Label (row r)) as [l|].
    - rewrite pair_eqb_eq. destruct k as [k1 k2]. cbn [fst snd].
      split; [intros [= -> ->]; auto | intros [-> [= ->]]; reflexivity].
    - split; [discriminate | intros [_ [=]]]. }
  assert (In r0 grp) as Hgrp.
  { apply filter_In. split; [exact Hin0|]. unfold has_key. rewrite Hr0.
    now apply pair_eqb_eq. }
  assert (Forall (fun v => Float.isnan v = false) (map SDO_Capped grp)) as Hv.
  { apply Forall_map, Forall_forall. intros r Hr. apply filter_In in Hr as [Hr _].
    rewrite Forall_forall in Hnan. now apply Hnan. }
  destruct (GroupMax.group_max_spec (map SDO_Capped grp)) as [M U].
  { intros E. apply map_eq_nil in E. rewrite E in Hgrp. contradiction. }
  { exact Hv. }
  split; [|split].
  - rewrite Forall_forall in Hv. now apply Hv.
  - apply in_map_iff in M as (r & Hr & Hin). apply filter_In in Hin as [Hin Hk].
    apply (proj1 (Hkey r)) in Hk as [Hc Hl]. exists r. repeat split; auto.
  - intros r Hin Hc Hl. apply U. apply in_map. apply filter_In.
    split; [exact Hin|]. now apply Hkey.
Qed.
(* ------------------------------------------------------------------ *)
(** ** Group keys: in increasing order, each once *)

Module KeyFacts.

Lemma string_compare_lt_trans a b c :
  String.compare a b = Lt -> String.compare b c = Lt -> String.compare a c = Lt.
Proof.
  intros H1 H2.
  apply (proj2 (OrderedTypeEx.String_as_OT.cmp_lt a c)).
  eapply OrderedTypeEx.String_as_OT.lt_trans;
    apply (proj1 (OrderedTypeEx.String_as_OT.cmp_lt _ _)); eassumption.
Qed.

Lemma string_compare_gt_lt a b : String.compare a b = Gt -> String.compare b a = Lt.
Proof.
  intros H. rewrite String.compare_antisym, H. reflexivity.
Qed.

Lemma string_compare_irrefl a : String.compare a a <> Lt.
Proof.
  intros H. pose proof (String.compare_antisym a a) as E.
  rewrite H in E. discriminate E.
Qed.

Lemma string_compare_refl a : String.compare a a = Eq.
Proof.
  pose proof (String.compare_antisym a a) as E.
  destruct (String.compare a a); try reflexivity; discriminate E.
Qed.

Section Keys.

Context {K : Type} (cmp : K -> K -> comparison).
Hypothesis cmp_eq : forall a b, cmp a b = Eq -> a = b.
Hypothesis cmp_gt : forall a b, cmp a b = Gt -> cmp b a = Lt.
Hypothesis cmp_trans : forall a b c, cmp a b = Lt -> cmp b c = Lt -> cmp a c = Lt.
Hypothesis cmp_irrefl : forall a, cmp a a <> Lt.

Lemma insert_key_sorted k keys :
  StronglySorted (fun a b => cmp a b = Lt) keys -> StronglySorted (fun a b => cmp a b = Lt) (insert_key cmp k keys).
Proof.
  induction 1 as [|h t Hs IH Hh]; cbn [insert_key].
  - repeat constructor.
  - destruct (cmp k h) eqn:C.
    + now constructor.
    + constructor; [now constructor|]. constructor; [exact C|].
      eapply Forall_impl; [|exact Hh]. intros x Hx. now apply (cmp_trans k h x).
    + constructor; [exact IH|].
      apply Forall_forall. intros x Hx.
      apply (insert_key_In cmp cmp_eq) in Hx as [->|Hx].
      * now apply cmp_gt.
      * rewrite Forall_forall in Hh. now apply Hh.
Qed.

Lemma group_keys_sorted column : StronglySorted (fun a b => cmp a b = Lt) (group_keys cmp column).
Proof.
  induction column as [|k t IH]; cbn [group_keys fold_right]; [constructor|].
  now apply insert_key_sorted.
Qed.

Lemma sorted_NoDup keys : StronglySorted (fun a b => cmp a b = Lt) keys -> NoDup keys.
Proof.
  induction 1 as [|h t Hs IH Hh]; constructor; [|exact IH].
  intros Hin. rewrite Forall_forall in Hh. now apply (cmp_irrefl h), Hh.
Qed.

Lemma group_keys_NoDup column : NoDup (group_keys cmp column).
Proof. apply sorted_NoDup, group_keys_sorted. Qed.

End Keys.

Lemma string_keys_NoDup column : NoDup (group_keys String.compare column).
Proof.
  apply group_keys_NoDup;
    [exact String.compare_eq_iff | exact string_compare_gt_lt | exact string_compare_lt_trans
     | exact string_compare_irrefl].
Qed.

Lemma string_keys_sorted column :
  StronglySorted (fun a b => String.compare a b = Lt)
                 (group_keys String.compare column).
Proof.
  apply group_keys_sorted;
    [exact String.compare_eq_iff | exact string_compare_gt_lt | exact string_compare_lt_trans].
Qed.

Lemma string_keys_In x column :
  In x (group_keys String.compare column) <-> In x column.
Proof. apply group_keys_In. exact String.compare_eq_iff. Qed.

End KeyFacts.

Module PairKeys.

Lemma pair_compare_gt_lt a b : pair_compare a b = Gt -> pair_compare b a = Lt.
Proof.
  unfold pair_compare. rewrite (String.compare_antisym (fst a) (fst b)).
  rewrite (String.compare_antisym (snd a) (snd b)).
  destruct (String.compare (fst b) (fst a)); cbn [CompOpp]; try discriminate;
    [|reflexivity].
  destruct (String.compare (snd b) (snd a)); cbn [CompOpp]; try discriminate.
  reflexivity.
Qed.

Lemma pair_compare_lt_trans a b c :
  pair_compare a b = Lt -> pair_compare b c = Lt -> pair_compare a c = Lt.
Proof.
  unfold pair_compare.
  destruct (String.compare (fst a) (fst b)) eqn:E1; try discriminate;
    destruct (String.compare (fst b) (fst c)) eqn:E2; try discriminate;
    intros H1 H2.
  - apply String.compare_eq_iff in E1, E2. rewrite E1, E2, KeyFacts.string_compare_refl.
    now apply (KeyFacts.string_compare_lt_trans _ (snd b)).
  - apply String.compare_eq_iff in E1. now rewrite E1, E2.
  - apply String.compare_eq_iff in E2. now rewrite <- E2, E1.
  - now rewrite (KeyFacts.string_compare_lt_trans _ _ _ E1 E2).
Qed.

Lemma pair_compare_irrefl a : pair_compare a a <> Lt.
Proof.
  unfold pair_compare. rewrite !KeyFacts.string_compare_refl. discriminate.
Qed.

Lemma pair_keys_NoDup column : NoDup (group_keys pair_compare column).
Proof.
  apply KeyFacts.group_keys_NoDup;
    [exact pair_compare_eq | exact pair_compare_gt_lt | exact pair_compare_lt_trans
     | exact pair_compare_irrefl].
Qed.

Lemma pair_keys_sorted column :
  StronglySorted (fun a b => pair_compare a b = Lt) (group_keys pair_compare column).
Proof.
  apply KeyFacts.group_keys_sorted;
    [exact pair_compare_eq | exact pair_compare_gt_lt | exact pair_compare_lt_trans].
Qed.

Lemma pair_keys_In x column : In x (group_keys pair_compare column) <-> In x column.
Proof. apply group_keys_In. exact pair_compare_eq. Qed.

End PairKeys.

(* ------------------------------------------------------------------ *)
(** ** Every row falls in one group *)


Section Partition.

Context {A K : Type} (key : A -> K) (eqb : K -> K -> bool).
Hypothesis eqb_eq : forall a b, eqb a b = true <-> a = b.

Lemma indicator_absent (x : K) keys :
  ~ In x keys ->
  list_sum (map (fun k => if eqb x k then 1 else 0) keys) = 0.
Proof.
  induction keys as [|k keys IH]; intros H; [reflexivity|].
  cbn [map]. rewrite list_sum_cons, IH by (intros Hin; apply H; now right).
  destruct (eqb x k) eqn:E; [|reflexivity].
  apply eqb_eq in E. subst. exfalso. apply H. now left.
Qed.

Lemma indicator_once (x : K) keys :
  NoDup keys -> In x keys ->
  list_sum (map (fun k => if eqb x k then 1 else 0) keys) = 1.
Proof.
  induction 1 as [|k keys Hk Hnd IH]; intros Hin; [contradiction|].
  cbn [map]. rewrite list_sum_cons. destruct Hin as [->|Hin].
  - rewrite (proj2 (eqb_eq x x) eq_refl), indicator_absent by exact Hk. reflexivity.
  - rewrite IH by exact Hin. destruct (eqb x k) eqn:E; [|reflexivity].
    apply eqb_eq in E. subst. contradiction.
Qed.

Lemma group_sizes_cons r df keys :
  list_sum (map (fun k => length (filter (fun r => eqb (key r) k) (r :: df))) keys)
  = list_sum (map (fun k => if eqb (key r) k then 1 else 0) keys)
    + list_sum (map (fun k => length (filter (fun r => eqb (key r) k) df)) keys).
Proof.
  induction keys as [|k keys IH]; [reflexivity|].
  cbn [map]. rewrite !list_sum_cons, IH. cbn [filter].
  destruct (eqb (key r) k); cbn [length]; lia.
Qed.

(** The sizes of the groups add up to the number of rows. *)
Lemma group_sizes_total df keys :
  NoDup keys -> (forall r, In r df -> In (key r) keys) ->
  list_sum (map (fun k => length (filter (fun r => eqb (key r) k) df)) keys)
  = length df.
Proof.
  intros Hnd. induction df as [|r df IH]; intros Hin.
  - cbn [filter length]. clear Hnd Hin. induction keys; [reflexivity|].
    cbn [map]. now rewrite list_sum_cons.
  - rewrite group_sizes_cons, indicator_once, IH; cbn [length]; auto.
    + intros x Hx. apply Hin. now right.
    + apply Hin. now left.
Qed.

End Partition.

Lemma string_eqb_eq (a b : string) : String.eqb a b = true <-> a = b.
Proof. apply String.eqb_eq. Qed.

(* ------------------------------------------------------------------ *)
(** ** Sorting by a column of counts *)

Section SortCounts.

Variable argsort : list nat -> list nat.
Hypothesis argsort_ok : argsort_counts_spec argsort.

Context {A : Type} (by_ : A -> nat).

Lemma count_masks (items : list nat) :
  Forall (fun b => b = false) (map (fun _ : nat => false) items)
  /\ Forall (fun b => b = true) (map negb (map (fun _ : nat => false) items)).
Proof.
  split; [apply Forall_map | apply Forall_map, Forall_map];
    apply Forall_forall; reflexivity.
Qed.

Lemma sort_counts_ascending (df : list A) :
  sort_counts argsort by_ true df = take (argsort (map by_ df)) df.
Proof.
  destruct (count_masks (map by_ df)) as [Hf Ht].
  unfold sort_counts, nargsort_counts.
  rewrite (select_false _ _ Hf), app_nil_r.
  rewrite !select_true; try exact Ht; rewrite ?length_map, ?length_seq; try reflexivity.
  rewrite ?length_map, take_take by apply seq_bound.
  now rewrite take_seq.
Qed.

Lemma sort_counts_descending (df : list A) :
  sort_counts argsort by_ false df
  = rev (take (argsort (map by_ (rev df))) (rev df)).
Proof.
  destruct (count_masks (map by_ df)) as [Hf Ht].
  unfold sort_counts, nargsort_counts.
  rewrite (select_false _ _ Hf), app_nil_r.
  rewrite !select_true; try exact Ht; rewrite ?length_map, ?length_seq; try reflexivity.
  rewrite ?length_map, take_rev. f_equal.
  rewrite take_take by apply Forall_rev, seq_bound.
  now rewrite take_rev, take_seq, map_rev.
Qed.

Lemma sort_counts_perm (ascending : bool) (df : list A) :
  Permutation (sort_counts argsort by_ ascending df) df.
Proof.
  destruct ascending.
  - rewrite sort_counts_ascending.
    apply Permutation_take. rewrite <- (length_map by_ df).
    apply argsort_ok.
  - rewrite sort_counts_descending.
    apply Permutation_trans with (take (argsort (map by_ (rev df))) (rev df));
      [apply Permutation_sym, Permutation_rev|].
    apply Permutation_trans with (rev df);
      [|apply Permutation_sym, Permutation_rev].
    apply Permutation_take. rewrite <- (length_map by_ (rev df)).
    apply argsort_ok.
Qed.

Lemma sort_counts_increasing (df : list A) :
  Sorted (fun a b => by_ a <= by_ b) (sort_counts argsort by_ true df).
Proof.
  rewrite sort_counts_ascending.
  apply (Sorted_map by_ le).
  rewrite take_map. apply argsort_ok.
Qed.

Lemma sort_counts_decreasing (df : list A) :
  Sorted (fun a b => by_ b <= by_ a) (sort_counts argsort by_ false df).
Proof.
  rewrite sort_counts_descending.
  apply (Sorted_rev (fun a b => by_ a <= by_ b)).
  apply (Sorted_map by_ le).
  rewrite take_map. apply argsort_ok.
Qed.

Lemma sort_counts_In (ascending : bool) (df : list A) x :
  In x (sort_counts argsort by_ ascending df) <-> In x df.
Proof.
  split; apply Permutation_in;
    [|apply Permutation_sym]; apply sort_counts_perm.
Qed.

Lemma sort_counts_length (ascending : bool) (df : list A) :
  length (sort_counts argsort by_ ascending df) = length df.
Proof. apply Permutation_length, sort_counts_perm. Qed.

End SortCounts.

(** The first rows of a frame in decreasing order hold the largest
    counts. *)
Lemma head_dominates {A} (by_ : A -> nat) n (l : list A) :
  Sorted (fun a b => by_ b <= by_ a) l ->
  forall a b, In a (firstn n l) -> In b (skipn n l) -> by_ b <= by_ a.
Proof.
  intros Hs. apply Sorted_StronglySorted in Hs;
    [|intros x y z Hxy Hyz; cbn beta in *; lia].
  revert n. induction Hs as [|h t Hs IH Hh]; intros n a b Ha Hb.
  - destruct n; contradiction.
  - destruct n as [|n]; [contradiction|].
    cbn [firstn skipn] in Ha, Hb. destruct Ha as [<-|Ha].
    + rewrite Forall_forall in Hh. apply Hh. now apply In_skipn in Hb.
    + now apply (IH n).
Qed.

Lemma list_sum_perm (l l' : list nat) : Permutation l l' -> list_sum l = list_sum l'.
Proof. induction 1; rewrite ?list_sum_cons; lia. Qed.

Lemma total_perm (l l' : list (string * nat)) :
  Permutation l l' -> total l = total l'.
Proof.
  intros P. unfold total. induction P; cbn [map]; rewrite ?list_sum_cons; lia.
Qed.

Lemma total_app (l l' : list (string * nat)) :
  total (l ++ l') = total l + total l'.
Proof. unfold total. now rewrite map_app, list_sum_app. Qed.

(* ------------------------------------------------------------------ *)
(** ** The insertion routine on counts meets the contract *)

Module CountInsertion.

Lemma insert_count_perm p l : Permutation (insert_count p l) (p :: l).
Proof.
  induction l as [|h t IH]; cbn [insert_count]; [reflexivity|].
  destruct (snd p <=? snd h)%nat; [reflexivity|].
  rewrite IH. apply perm_swap.
Qed.

Lemma count_sort_perm l : Permutation (fold_right insert_count [] l) l.
Proof.
  induction l as [|p l IH]; cbn [fold_right]; [reflexivity|].
  rewrite insert_count_perm. now constructor.
Qed.

Lemma insert_count_sorted p l :
  Sorted by_count l -> Sorted by_count (insert_count p l).
Proof.
  intros Hs. induction Hs as [|h t Hs IH Hd]; cbn [insert_count].
  - repeat constructor.
  - destruct (Nat.leb_spec (snd p) (snd h)) as [L|L].
    + constructor; [now constructor | now constructor].
    + constructor; [exact IH|].
      assert (by_count h p) as Hhp by (unfold by_count; lia).
      destruct t as [|k t]; cbn [insert_count]; [now constructor|].
      destruct (snd p <=? snd k)%nat; constructor; [exact Hhp|].
      now inversion Hd.
Qed.

Lemma count_sort_sorted l : Sorted by_count (fold_right insert_count [] l).
Proof.
  induction l as [|p l IH]; cbn [fold_right]; [constructor|].
  now apply insert_count_sorted.
Qed.

Lemma count_positions_read (l1 l2 : list nat) :
  Forall (fun p => nth_error (l1 ++ l2) (fst p) = Some (snd p))
         (combine (seq (length l1) (length l2)) l2).
Proof.
  revert l1. induction l2 as [|v l2 IH]; intros l1; [constructor|].
  cbn [length seq combine]. constructor.
  - cbn [fst snd]. rewrite nth_error_app2, Nat.sub_diag by lia. reflexivity.
  - specialize (IH (l1 ++ [v])).
    rewrite length_app, Nat.add_1_r, <- app_assoc in IH. exact IH.
Qed.

Lemma take_count_positions (items : list nat) (ps : list (nat * nat)) :
  Forall (fun p => nth_error items (fst p) = Some (snd p)) ps ->
  take (map fst ps) items = map snd ps.
Proof.
  induction 1 as [|p ps Hp _ IH]; [reflexivity|].
  cbn [map]. rewrite take_cons, Hp, IH. reflexivity.
Qed.

Lemma Sorted_counts_snd (ps : list (nat * nat)) :
  Sorted by_count ps -> Sorted le (map snd ps).
Proof.
  induction 1 as [|p ps Hs IH Hd]; [constructor|].
  cbn [map]. constructor; [exact IH|].
  destruct Hd; constructor. assumption.
Qed.

Lemma counts_meet_contract : argsort_counts_spec insertion_argsort_counts.
Proof.
  intros items. unfold insertion_argsort_counts.
  set (pairs := combine (seq 0 (length items)) items).
  assert (Permutation (fold_right insert_count [] pairs) pairs) as P
    by apply count_sort_perm.
  split.
  - rewrite <- (InsertionSort.map_fst_combine (seq 0 (length items)) items)
      by now rewrite length_seq.
    now apply Permutation_map.
  - rewrite take_count_positions.
    + apply Sorted_counts_snd, count_sort_sorted.
    + eapply Permutation_Forall; [apply Permutation_sym, P|].
      exact (count_positions_read [] items).
Qed.

End CountInsertion.

(* ------------------------------------------------------------------ *)
(** ** BQ8: which rows count, and when a correlation is computed *)

(** The dashboard's filter on the capped column removes nothing. *)
Lemma capped_filter_vacuous (vendor_df : list dash_row) :
  filter (fun r => Float.leb (SDO_Capped r) Float.one) (vendor_with_sdo vendor_df)
  = vendor_with_sdo vendor_df.
Proof.
  apply filter_all. intros r Hr. unfold vendor_with_sdo in Hr.
  apply in_map_iff in Hr as (d & <- & Hd). cbn [SDO_Capped].
  apply with_sdo_In in Hd as (_ & N & _). now apply CapFacts.cap_le_one.
Qed.

Section Bq8Facts.

Variable mean : list float -> float.
Variable pearsonr : list nat -> list float -> float * float.
Variable polyfit1 : list nat -> list float -> float * float.
Variable linregress :
  list nat -> list float -> float * float * float * float * float.

Lemma category_stats_In {A} (category company : A -> string) (sdo : A -> float)
      (df : list A) c :
  In c (map cs_Category (category_stats mean category company sdo df))
  <-> In c (map category df).
Proof.
  unfold category_stats. rewrite map_map. cbn [cs_Category]. rewrite map_id.
  apply (group_keys_In _ String.compare_eq_iff).
Qed.

(** In the EDA script a category has a pair only through a row whose
    commitment is above 0 and at most 1.0. *)
Lemma bq8_category_has_row_within_one (vendor_df : table) c :
  In c (map cs_Category
            (cat_stats (bq8_vendor_count_vs_sdo mean pearsonr polyfit1 vendor_df)))
  <-> exists r, In r vendor_df /\ Category r = c
                /\ Float.gtb (SDO_Commitment_Pct r) Float.zero = true
                /\ Float.leb (SDO_Commitment_Pct r) Float.one = true.
Proof.
  cbn [bq8_vendor_count_vs_sdo cat_stats]. rewrite category_stats_In, in_map_iff.
  split.
  - intros (r & <- & Hr). apply filter_In in Hr as [Hr L].
    apply with_sdo_In in Hr as (Hin & _ & G). eauto 6.
  - intros (r & Hin & <- & G & L). exists r. split; [reflexivity|].
    apply filter_In. split; [|exact L]. apply with_sdo_In.
    split; [exact Hin|]. split; [|exact G].
    now apply (FloatFacts.leb_not_nan _ Float.one).
Qed.

(** In the dashboard every SDO-eligible row gives its category a pair. *)
Lemma make_bq8_category_has_eligible_row (vendor_df : list dash_row) c :
  In c (map cs_Category (stats (make_bq8_chart mean linregress vendor_df)))
  <-> exists r, In r vendor_df /\ Category (base r) = c
                /\ Float.isnan (SDO_Commitment_Pct (base r)) = false
                /\ Float.gtb (SDO_Commitment_Pct (base r)) Float.zero = true.
Proof.
  cbn [make_bq8_chart stats]. rewrite capped_filter_vacuous.
  rewrite category_stats_In. unfold vendor_with_sdo. rewrite map_map.
  cbn [row]. rewrite in_map_iff. split.
  - intros (r & <- & Hr). apply with_sdo_In in Hr as (Hin & N & G). eauto 6.
  - intros (r & Hin & <- & N & G). exists r. split; [reflexivity|].
    now apply with_sdo_In.
Qed.

Lemma category_stats_map {A B} (f : A -> B) (category company : B -> string)
      (sdo : B -> float) (l : list A) :
  category_stats mean category company sdo (map f l)
  = category_stats mean (fun a => category (f a)) (fun a => company (f a))
                   (fun a => sdo (f a)) l.
Proof.
  unfold category_stats. rewrite map_map. apply map_ext. intros c.
  now rewrite filter_map_swap, !map_map.
Qed.

Lemma category_stats_ext {A} (category company : A -> string)
      (sdo sdo' : A -> float) (l : list A) :
  (forall a, In a l -> sdo a = sdo' a) ->
  category_stats mean category company sdo l
  = category_stats mean category company sdo' l.
Proof.
  intros H. unfold category_stats. apply map_ext. intros c. do 2 f_equal.
  apply map_ext_in. intros a Ha. apply filter_In in Ha as [Ha _]. now apply H.
Qed.


End Bq8Facts.



(** A frame of one row is in order. *)
Lemma sort_values_one {A} (argsort : list float -> list nat) (by_ : A -> float)
      (a : A) :
  argsort_spec argsort -> sort_values argsort by_ true [a] = [a].
Proof.
  intros H. apply Permutation_length_1_inv, Permutation_sym.
  now apply sort_values_perm_all.
Qed.

(** C8 (the code at the failing input). The dashboard filters on the
    capped column, so its filter removes nothing and every SDO-eligible
    row gives its category a pair: the row at 150% gives ITE a pair,
    averaged at its capped value. The EDA script filters on
    the raw column and has no pair; its coverage view counts the row and
    its outlier frame keeps it, raw value and capped value side by side. *)
Theorem dashboard_scatter_keeps_rows_above_one
        (mean : list float -> float)
        (pearsonr polyfit1 : list nat -> list float -> float * float)
        (linregress : list nat -> list float -> float * float * float * float * float) :
  (forall vendor_df : list dash_row,
      filter (fun r => Float.leb (SDO_Capped r) Float.one) (vendor_with_sdo vendor_df)
      = vendor_with_sdo vendor_df)
  /\ (forall (vendor_df : list dash_row) c,
         In c (map cs_Category (stats (make_bq8_chart mean linregress vendor_df)))
         <-> exists r, In r vendor_df /\ Category (base r) = c
                       /\ Float.isnan (SDO_Commitment_Pct (base r)) = false
                       /\ Float.gtb (SDO_Commitment_Pct (base r)) Float.zero = true)
  /\ stats (make_bq8_chart mean linregress (map labelled over_commitment_table))
     = [ {| cs_Category := "ITE"; Vendor_Count := 1; Avg_SDO := mean [Float.one] |} ]
  /\ cat_stats (bq8_vendor_count_vs_sdo mean pearsonr polyfit1 over_commitment_table)
     = []
  /\ (forall argsort, argsort_spec argsort ->
        bq7_sdo_coverage_rate argsort over_commitment_table
        = [ {| cov_Category := "ITE"; Has_SDO := 1; No_SDO := 0; Total := 1;
               Coverage_Rate := Float.one;
               cov_Label := "IT Equipment & Services" |} ])
  /\ map (fun r => (SDO_Commitment_Pct (row r), SDO_Capped r))
         (bq6_sdo_df over_commitment_table)
     = [ (one_and_a_half, Float.one) ].
Proof.
  split; [exact capped_filter_vacuous|].
  split; [exact (make_bq8_category_has_eligible_row mean linregress)|].
  split; [reflexivity|]. split; [reflexivity|]. split; [|reflexivity].
  intros argsort Hsort. unfold bq7_sdo_coverage_rate.
  match goal with |- sort_values _ _ _ ?l = _ =>
    replace l with [ {| cov_Category := "ITE"; Has_SDO := 1; No_SDO := 0; Total := 1;
                        Coverage_Rate := Float.one;
                        cov_Label := "IT Equipment & Services" |} ]
      by (vm_compute; reflexivity) end.
  now apply sort_values_one.
Qed.

(* ------------------------------------------------------------------ *)
(** ** BQ8: when a correlation is computed *)









(* ------------------------------------------------------------------ *)
(** ** BQ1: the top companies *)

(** C2, as stated, fails in both variants, here with a stable sorting
    routine: the EDA script ranks the raw commitment (150% stays 1.5,
    above the cap), and the dashboard returns its rows in increasing
    order (20% before 50%). *)
Lemma bq1_not_capped_not_descending :
  ~ Forall (fun g => Float.leb (SDO_Max g) Float.one = true)
           (bq1_it_sector_top_sdo insertion_argsort over_commitment_table)
  /\ ~ Sorted (fun a b => Float.leb (d1_SDO_Max b) (d1_SDO_Max a) = true)
              (make_bq1_chart insertion_argsort "All"
                              (map labelled two_vendor_table)).
Proof.
  split.
  - replace (bq1_it_sector_top_sdo insertion_argsort over_commitment_table)
      with [ {| bq1_Company := "Delta Networks"; bq1_Category := "ITE";
                SDO_Max := one_and_a_half; Contract_Count := 1 |} ]
      by (vm_compute; reflexivity).
    intros H. inversion H as [|? ? H1 _]. discriminate H1.
  - replace (make_bq1_chart insertion_argsort "All" (map labelled two_vendor_table))
      with [ {| d1_Company := "Fir Telecom";
                d1_Category_Label := "Telecom & Networking";
                d1_SDO_Max := fifth |};
             {| d1_Company := "Elm Software";
                d1_Category_Label := "IT Software & Services";
                d1_SDO_Max := half |} ]
      by (vm_compute; reflexivity).
    intros H. inversion H as [|? ? _ H2]; subst.
    inversion H2 as [|? ? H3]; subst. discriminate H3.
Qed.

(** In a frame in order, the rows before a cut and the rows after it. *)
Lemma largest_first {A} (by_ : A -> float) n (l : list A) :
  Sorted (fun a b => Float.leb (by_ b) (by_ a) = true) l ->
  forall a b, In a (firstn n l) -> In b (skipn n l) ->
              Float.leb (by_ b) (by_ a) = true.
Proof.
  intros Hs. apply Sorted_StronglySorted in Hs;
    [|intros x y z Hxy Hyz; cbn beta in *; eapply FloatOrder.leb_trans; eauto].
  revert n. induction Hs as [|h t Hs IH Hh]; intros n a b Ha Hb.
  - destruct n; contradiction.
  - destruct n as [|n]; [contradiction|].
    cbn [firstn skipn] in Ha, Hb. destruct Ha as [<-|Ha].
    + rewrite Forall_forall in Hh. apply Hh. now apply In_skipn in Hb.
    + now apply (IH n).
Qed.

Lemma largest_last {A} (by_ : A -> float) n (l : list A) :
  Sorted (fun a b => Float.leb (by_ a) (by_ b) = true) l ->
  forall a b, In a (skipn n l) -> In b (firstn n l) ->
              Float.leb (by_ b) (by_ a) = true.
Proof.
  intros Hs. apply Sorted_StronglySorted in Hs;
    [|intros x y z Hxy Hyz; cbn beta in *; eapply FloatOrder.leb_trans; eauto].
  revert n. induction Hs as [|h t Hs IH Hh]; intros n a b Ha Hb.
  - destruct n; contradiction.
  - destruct n as [|n]; [contradiction|].
    cbn [firstn skipn] in Ha, Hb. destruct Hb as [<-|Hb].
    + rewrite Forall_forall in Hh. apply Hh. now apply In_skipn in Ha.
    + now apply (IH n).
Qed.

(** The keys of the grouped frames. *)
Lemma bq1_group_keys (rows : table) :
  map (fun g => (bq1_Company g, bq1_Category g)) (bq1_groups rows)
  = group_keys pair_compare (map bq1_key rows).
Proof.
  unfold bq1_groups. rewrite map_map. cbn [bq1_Company bq1_Category].
  rewrite <- (map_id (group_keys pair_compare (map bq1_key rows))) at 2.
  apply map_ext. now intros [c k].
Qed.

Lemma dash_bq1_group_keys (df : list (capped dash_row)) :
  map (fun g => (d1_Company g, d1_Category_Label g)) (dash_bq1_groups df)
  = group_keys pair_compare (present (map dash_bq1_key df)).
Proof.
  unfold dash_bq1_groups. rewrite map_map. cbn [d1_Company d1_Category_Label].
  rewrite <- (map_id (group_keys pair_compare (present (map dash_bq1_key df)))) at 2.
  apply map_ext. now intros [c k].
Qed.

(** The rows the dashboard ranks, as rows of its table. *)
Lemma dash_ranked_In (it_cats : list string) (dash_df : list dash_row) c :
  In c (filter (fun r => isin it_cats (Category (base (row r))))
               (vendor_with_sdo dash_df))
  <-> exists r, In r dash_df /\ dash_eligible r /\ In (Category (base r)) it_cats
                /\ c = {| row := r; SDO_Capped := cap (SDO_Commitment_Pct (base r)) |}.
Proof.
  rewrite filter_In, vendor_with_sdo_In, isin_In. split.
  - intros ((r & Hr & He & ->) & Hc). exists r. cbn [row] in Hc. auto.
  - intros (r & Hr & He & Hc & ->). cbn [row]. split; [|exact Hc]. eauto.
Qed.

Section Bq1.

Variable argsort : list float -> list nat.
Hypothesis argsort_ok : argsort_spec argsort.

Lemma bq1_groups_no_nan (vendor_df : table) :
  no_nan SDO_Max (bq1_groups (bq1_it_with_sdo vendor_df)).
Proof.
  unfold no_nan. apply Forall_map, Forall_forall. intros g Hg.
  eapply bq1_group_spec; [|exact Hg].
  apply Forall_forall. intros r Hr.
  now apply bq1_it_with_sdo_In in Hr as (_ & _ & N & _).
Qed.

Lemma dash_rows_no_nan (it_cats : list string) (vendor_df : list dash_row) :
  Forall (fun r => Float.isnan (SDO_Capped r) = false)
         (filter (fun r => isin it_cats (Category (base (row r))))
                 (vendor_with_sdo vendor_df)).
Proof.
  apply Forall_forall. intros c Hc. apply filter_In in Hc as [Hc _].
  apply vendor_with_sdo_In in Hc as (r & _ & [N _] & ->).
  now apply CapFacts.cap_not_nan.
Qed.

Lemma dash_groups_no_nan (it_cats : list string) (vendor_df : list dash_row) :
  no_nan d1_SDO_Max
         (dash_bq1_groups
            (filter (fun r => isin it_cats (Category (base (row r))))
                    (vendor_with_sdo vendor_df))).
Proof.
  unfold no_nan. apply Forall_map, Forall_forall. intros g Hg.
  eapply dash_bq1_group_spec; [|exact Hg]. apply dash_rows_no_nan.
Qed.

(** C2 (amended). With a sorting routine that orders the values and
    promises nothing about ties:
    - the EDA view keeps the rows of the IT categories with a
      commitment above 0 and groups them by (company, category): one
      group per pair that has such a row, with the maximum raw
      commitment of its rows. It orders the groups by decreasing
      maximum and returns the first 15 (all of them when there are
      fewer): no group left out has a larger maximum than a group
      returned;
    - the dashboard view keeps the rows of the chosen IT categories
      with a commitment above 0 and groups them by (company, category
      label): one group per pair that has such a row, with the maximum
      capped commitment of its rows, which is at most 1.0. It orders
      the groups by increasing maximum and returns the last 15 (all of
      them when there are fewer): no group left out has a larger
      maximum than a group returned. *)
Theorem bq1_top_fifteen (vendor_df : table) (it_filter : string)
        (dash_df : list dash_row) :
  let groups := bq1_groups (bq1_it_with_sdo vendor_df) in
  let top15 := bq1_it_sector_top_sdo argsort vendor_df in
  let it_cats := if String.eqb it_filter "All" then IT_CATEGORIES else [it_filter] in
  let dash_groups :=
    dash_bq1_groups (filter (fun r => isin it_cats (Category (base (row r))))
                            (vendor_with_sdo dash_df)) in
  let top := make_bq1_chart argsort it_filter dash_df in
  (NoDup (map (fun g => (bq1_Company g, bq1_Category g)) groups)
   /\ (forall company category,
         In (company, category) (map (fun g => (bq1_Company g, bq1_Category g)) groups)
         <-> exists r, In r vendor_df /\ it_eligible r
                       /\ Company r = company /\ Category r = category)
   /\ (forall g, In g groups ->
         (exists r, In r vendor_df /\ it_eligible r
                    /\ Company r = bq1_Company g /\ Category r = bq1_Category g
                    /\ SDO_Commitment_Pct r = SDO_Max g)
         /\ (forall r, In r vendor_df -> it_eligible r ->
                       Company r = bq1_Company g -> Category r = bq1_Category g ->
                       Float.leb (SDO_Commitment_Pct r) (SDO_Max g) = true))
   /\ length top15 = Nat.min 15 (length groups)
   /\ Sorted (fun a b => Float.leb (SDO_Max b) (SDO_Max a) = true) top15
   /\ exists rest,
        Permutation (top15 ++ rest) groups
        /\ forall g h, In g top15 -> In h rest ->
                       Float.leb (SDO_Max h) (SDO_Max g) = true)
  /\ (NoDup (map (fun g => (d1_Company g, d1_Category_Label g)) dash_groups)
      /\ (forall company label,
            In (company, label)
               (map (fun g => (d1_Company g, d1_Category_Label g)) dash_groups)
            <-> exists r, In r dash_df /\ dash_eligible r
                          /\ In (Category (base r)) it_cats
                          /\ Company (base r) = company
                          /\ Category_Label r = Some label)
      /\ (forall g, In g dash_groups ->
            Float.leb (d1_SDO_Max g) Float.one = true
            /\ (exists r, In r dash_df /\ dash_eligible r
                          /\ In (Category (base r)) it_cats
                          /\ Company (base r) = d1_Company g
                          /\ Category_Label r = Some (d1_Category_Label g)
                          /\ cap (SDO_Commitment_Pct (base r)) = d1_SDO_Max g)
            /\ (forall r, In r dash_df -> dash_eligible r ->
                          In (Category (base r)) it_cats ->
                          Company (base r) = d1_Company g ->
                          Category_Label r = Some (d1_Category_Label g) ->
                          Float.leb (cap (SDO_Commitment_Pct (base r)))
                                    (d1_SDO_Max g) = true))
      /\ length top = Nat.min 15 (length dash_groups)
      /\ Sorted (fun a b => Float.leb (d1_SDO_Max a) (d1_SDO_Max b) = true) top
      /\ exists rest,
           Permutation (rest ++ top) dash_groups
           /\ forall g h, In g top -> In h rest ->
                          Float.leb (d1_SDO_Max h) (d1_SDO_Max g) = true).
Proof.
  intros groups top15 it_cats dash_groups top.
  pose proof (bq1_groups_no_nan vendor_df) as Hn. fold groups in Hn.
  pose proof (sort_values_perm argsort argsort_ok SDO_Max false groups Hn) as P.
  pose proof (sort_values_decreasing argsort argsort_ok SDO_Max groups Hn) as S.
  pose proof (dash_groups_no_nan it_cats dash_df) as Hd. fold dash_groups in Hd.
  pose proof (sort_values_perm argsort argsort_ok d1_SDO_Max true dash_groups Hd) as Q.
  pose proof (sort_values_increasing argsort argsort_ok d1_SDO_Max dash_groups Hd) as T.
  split; [split; [|split; [|split; [|split; [|split]]]]
         |split; [|split; [|split; [|split; [|split]]]]].
  - unfold groups. rewrite bq1_group_keys. apply PairKeys.pair_keys_NoDup.
  - intros company category. unfold groups.
    rewrite bq1_group_keys, PairKeys.pair_keys_In, in_map_iff. split.
    + intros (r & [= <- <-] & Hr). apply bq1_it_with_sdo_In in Hr as [Hr He].
      exists r. auto.
    + intros (r & Hr & He & <- & <-). exists r. split; [reflexivity|].
      now apply bq1_it_with_sdo_In.
  - intros g Hg.
    destruct (bq1_group_spec (bq1_it_with_sdo vendor_df) g) as (_ & E & U).
    { apply Forall_forall. intros r Hr.
      now apply bq1_it_with_sdo_In in Hr as (_ & _ & N & _). }
    { exact Hg. }
    split.
    + destruct E as (r & Hr & E). apply bq1_it_with_sdo_In in Hr as [Hr He].
      exists r. auto.
    + intros r Hr He. apply U. apply bq1_it_with_sdo_In. auto.
  - unfold top15, bq1_it_sector_top_sdo, head. fold groups.
    rewrite length_firstn. now rewrite (Permutation_length P).
  - unfold top15, bq1_it_sector_top_sdo, head. fold groups.
    now apply Sorted_firstn.
  - exists (skipn 15 (sort_values argsort SDO_Max false groups)).
    unfold top15, bq1_it_sector_top_sdo, head. fold groups. split.
    + now rewrite firstn_skipn.
    + intros g h Hg Hh.
      now apply (largest_first SDO_Max 15 (sort_values argsort SDO_Max false groups) S).
  - unfold dash_groups. rewrite dash_bq1_group_keys. apply PairKeys.pair_keys_NoDup.
  - intros company label. unfold dash_groups.
    rewrite dash_bq1_group_keys, PairKeys.pair_keys_In, present_In, in_map_iff.
    split.
    + intros (c & K & Hc). apply dash_ranked_In in Hc as (r & Hr & He & Hc & ->).
      unfold dash_bq1_key in K. cbn [row] in K.
      destruct (Category_Label r) as [l|] eqn:L; [|discriminate].
      injection K as <- <-. exists r. auto.
    + intros (r & Hr & He & Hc & <- & L).
      exists {| row := r; SDO_Capped := cap (SDO_Commitment_Pct (base r)) |}.
      split; [unfold dash_bq1_key; cbn [row]; now rewrite L|].
      apply dash_ranked_In. exists r. auto.
  - intros g Hg.
    destruct (dash_bq1_group_spec _ g (dash_rows_no_nan it_cats dash_df) Hg)
      as (_ & (c & Hc & E1 & E2 & E3) & U).
    apply dash_ranked_In in Hc as (r & Hr & He & Hc & ->).
    cbn [row SDO_Capped] in *. split; [|split].
    + rewrite <- E3. apply CapFacts.cap_le_one. apply He.
    + exists r. auto 7.
    + intros r' Hr' He' Hc' E1' E2'.
      apply (U {| row := r'; SDO_Capped := cap (SDO_Commitment_Pct (base r')) |});
        [|exact E1' | exact E2'].
      apply dash_ranked_In. exists r'. auto.
  - unfold top, make_bq1_chart, tail. fold it_cats. fold dash_groups.
    rewrite length_skipn, (Permutation_length Q). lia.
  - unfold top, make_bq1_chart, tail. fold it_cats. fold dash_groups.
    now apply Sorted_skipn.
  - unfold top, make_bq1_chart, tail. fold it_cats. fold dash_groups.
    set (sorted := sort_values argsort d1_SDO_Max true dash_groups) in *.
    exists (firstn (length sorted - 15) sorted). split.
    + now rewrite firstn_skipn.
    + intros g h Hg Hh.
      now apply (largest_last d1_SDO_Max (length sorted - 15) sorted T).
Qed.

End Bq1.

Lemma bq1_top_fifteen_witness :
  argsort_spec insertion_argsort
  /\ length (bq1_groups (bq1_it_with_sdo sixteen_vendor_table)) = 16
  /\ length (bq1_it_sector_top_sdo insertion_argsort sixteen_vendor_table)
     = Nat.min 15 (length (bq1_groups (bq1_it_with_sdo sixteen_vendor_table))).
Proof.
  split; [exact InsertionSort.meets_contract|].
  split; [vm_compute; reflexivity|].
  exact (proj1 (proj2 (proj2 (proj2 (proj1
           (bq1_top_fifteen insertion_argsort InsertionSort.meets_contract
              sixteen_vendor_table "All" (map labelled sixteen_vendor_table))))))).
Defined.
(* ------------------------------------------------------------------ *)
(** ** Trimming twice, and the characters that stay *)

Module TrimFacts.
Import Str.

Lemma lstrip_no_lead s : no_lead (lstrip s).
Proof.
  induction s as [|c s IH]; [exact I|].
  cbn [lstrip]. destruct (isspace c) eqn:E; [exact IH | exact E].
Qed.

Lemma lstrip_fixed s : no_lead s -> lstrip s = s.
Proof. destruct s as [|c s]; [reflexivity|]. cbn. now intros ->. Qed.

Lemma rstrip_no_lead s : no_lead s -> no_lead (rstrip s).
Proof.
  destruct s as [|c s]; [auto|]. cbn [no_lead rstrip]. intros E.
  destruct (rstrip s); rewrite ?E; exact E.
Qed.

Lemma rstrip_idempotent s : rstrip (rstrip s) = rstrip s.
Proof.
  induction s as [|c s IH]; [reflexivity|].
  cbn [rstrip]. destruct (rstrip s) as [|d r] eqn:R.
  - destruct (isspace c) eqn:E; [reflexivity|].
    cbn [rstrip]. now rewrite E.
  - change (rstrip (String c (String d r)))
      with (match rstrip (String d r) with
            | EmptyString => if isspace c then EmptyString else String c EmptyString
            | t' => String c t'
            end).
    now rewrite IH.
Qed.

Lemma strip_idempotent s : strip (strip s) = strip s.
Proof.
  unfold strip.
  rewrite (lstrip_fixed (rstrip (lstrip s)))
    by apply rstrip_no_lead, lstrip_no_lead.
  apply rstrip_idempotent.
Qed.

Lemma lstrip_chars s c : In c (chars (lstrip s)) -> In c (chars s).
Proof.
  induction s as [|d s IH]; [auto|].
  cbn [lstrip]. destruct (isspace d); [|auto].
  intros H. right. now apply IH.
Qed.

Lemma chars_app a b : chars (a ++ b)%string = chars a ++ chars b.
Proof. induction a as [|c a IH]; [reflexivity|]. cbn. now rewrite <- IH. Qed.

Lemma rstrip_chars s c : In c (chars (rstrip s)) -> In c (chars s).
Proof.
  intros H. destruct (StrFacts.rstrip_app s) as (w & E).
  rewrite E, chars_app. apply in_or_app. now left.
Qed.

Lemma strip_chars s c : In c (chars (strip s)) -> In c (chars s).
Proof. intros H. now apply lstrip_chars, rstrip_chars. Qed.

Lemma replace_removes a b s : a <> b -> ~ In a (chars (replace a b s)).
Proof.
  intros Hab. induction s as [|c s IH]; [auto|].
  cbn [replace]. intros [H|H]; [|now apply IH].
  destruct (Ascii.eqb_spec c a); congruence.
Qed.

Lemma newline_not_space : newline <> space.
Proof. discriminate. Qed.

(** A cleaned text holds no newline and nothing to trim. *)
Lemma cleaned s :
  let t := strip (replace newline space s) in
  ~ In newline (chars t) /\ strip t = t.
Proof.
  split.
  - intros H. apply strip_chars in H.
    exact (replace_removes _ _ s newline_not_space H).
  - apply strip_idempotent.
Qed.

End TrimFacts.
(* ------------------------------------------------------------------ *)
(** ** The categorized-company loaders on the sheets they can read *)

Section CategorizedLoads.

Variable float_str : float -> string.

Lemma dash_cat_load_eq sheets :
  Dashboard.load_categorized_companies float_str (Workbook sheets)
  = if existsb short sheets then Raise IndexOutOfBounds
    else Ok (flat_map (cat_rows float_str) sheets).
Proof.
  cbn [Dashboard.load_categorized_companies].
  apply for_all_sheets_eq, dash_cat_sheet_eq.
Qed.

Lemma report_cat_load_eq sheets :
  Report.load_categorized_companies float_str (Workbook sheets)
  = if existsb short sheets then Raise IndexOutOfBounds
    else Ok (flat_map (cat_rows float_str) sheets).
Proof. exact (dash_cat_load_eq sheets). Qed.

Lemma eda_cat_load_eq sheets :
  Eda.load_categorized_companies float_str (Workbook sheets)
  = if existsb short sheets then Raise IndexOutOfBounds
    else match flat_map (cat_rows float_str) sheets with
         | [] => Raise KeyMissing
         | r :: t => Ok (r :: t)
         end.
Proof.
  cbn [Eda.load_categorized_companies].
  rewrite (for_all_sheets_eq float_str _ sheets (eda_cat_sheet_eq float_str)).
  destruct (existsb short sheets); cbn [bind]; [reflexivity|].
  destruct (flat_map (cat_rows float_str) sheets); reflexivity.
Qed.

(** The records of one bucket, cell by cell. *)
Lemma bucket_In s c typ r :
  In r (bucket float_str s c typ)
  <-> exists cells,
        In cells (skipn 2 (rows s))
        /\ isna (nth c cells CNaN) = false
        /\ keep_company (Cat_Company r) = true
        /\ r = {| Industry := Str.strip (sheet_name s);
                  Cat_Company := Str.strip (py_str float_str (nth c cells CNaN));
                  Type_ := typ |}.
Proof.
  unfold bucket, records, astype_str. rewrite in_map_iff. split.
  - intros (company & <- & H). apply filter_In in H as [H K].
    apply in_map_iff in H as (text & <- & H).
    apply in_map_iff in H as (x & <- & H).
    apply filter_In in H as [H N].
    apply in_map_iff in H as (cells & <- & H).
    exists cells. cbn [Cat_Company]. apply negb_true_iff in N. auto.
  - intros (cells & H & N & K & ->). cbn [Cat_Company] in K.
    exists (Str.strip (py_str float_str (nth c cells CNaN))).
    split; [reflexivity|]. apply filter_In. split; [|exact K].
    apply in_map. apply in_map. apply filter_In.
    split; [|now rewrite N]. apply in_map_iff. now exists cells.
Qed.

Lemma cat_rows_In s r :
  In r (cat_rows float_str s)
  <-> exists cells c,
        In cells (skipn 2 (rows s))
        /\ In (c, Type_ r) buckets
        /\ isna (nth c cells CNaN) = false
        /\ keep_company (Cat_Company r) = true
        /\ Industry r = Str.strip (sheet_name s)
        /\ Cat_Company r = Str.strip (py_str float_str (nth c cells CNaN)).
Proof.
  unfold cat_rows. rewrite !in_app_iff, !bucket_In. unfold buckets. split.
  - intros [H|[H|H]]; destruct H as (cells & H & N & K & E);
      [exists cells, 1 | exists cells, 2 | exists cells, 3];
      rewrite E in *; cbn [Type_ Industry Cat_Company In] in *; auto 10.
  - intros (cells & c & H & B & N & K & I & E).
    assert (r = {| Industry := Str.strip (sheet_name s);
                   Cat_Company := Str.strip (py_str float_str (nth c cells CNaN));
                   Type_ := Type_ r |}) as R
      by (destruct r as [i k t]; cbn [Industry Cat_Company Type_] in *; congruence).
    cbn [In] in B. destruct B as [B|[B|[B|[]]]]; injection B as <- B;
      [left | right; left | right; right]; exists cells;
      (split; [exact H|]); (split; [exact N|]); (split; [exact K|]);
      rewrite B; exact R.
Qed.

End CategorizedLoads.

Lemma keep_company_spec company :
  keep_company company = true <-> company <> ""%string /\ company <> "nan"%string.
Proof.
  unfold keep_company. rewrite andb_true_iff, !negb_true_iff.
  split; intros [H1 H2].
  - apply String.eqb_neq in H1, H2. auto.
  - split; now apply String.eqb_neq.
Qed.

(** X1. The three loaders of the categorized companies agree: the one of
    the report is the one of the dashboard, and the one of the EDA script
    raises what the dashboard's raises and returns what it returns,
    except when no record is found: the dashboard's then returns the
    empty frame, and the EDA script raises [KeyError] on the line that
    prints the number of industries. *)
Theorem categorized_loaders_agree (float_str : float -> string) (f : file) :
  Report.load_categorized_companies float_str f
  = Dashboard.load_categorized_companies float_str f
  /\ match Dashboard.load_categorized_companies float_str f with
     | Raise e => Eda.load_categorized_companies float_str f = Raise e
     | Ok [] => Eda.load_categorized_companies float_str f = Raise KeyMissing
     | Ok (r :: t) => Eda.load_categorized_companies float_str f = Ok (r :: t)
     end.
Proof.
  split; [reflexivity|]. destruct f as [|sheets]; [reflexivity|].
  rewrite dash_cat_load_eq, eda_cat_load_eq.
  destruct (existsb short sheets); [reflexivity|].
  destruct (flat_map (cat_rows float_str) sheets); reflexivity.
Qed.

Lemma cat_rows_buckets (float_str : float -> string) (s : sheet) :
  cat_rows float_str s
  = flat_map
      (fun b =>
         map (fun company => {| Industry := Str.strip (sheet_name s);
                                Cat_Company := company;
                                Type_ := snd b |})
             (filter keep_company
                     (map (fun x => Str.strip (py_str float_str x))
                          (filter (fun x => negb (isna x))
                                  (map (fun r => nth (fst b) r CNaN)
                                       (skipn 2 (rows s)))))))
      buckets.
Proof.
  unfold cat_rows, bucket, records, astype_str, buckets.
  cbn [flat_map fst snd]. now rewrite app_nil_r, !map_map.
Qed.

(** X2. The frame a loader of the categorized companies returns holds,
    sheet after sheet and in each sheet column 1, then 2, then 3, one
    record per cell from the third row on that is not empty and whose
    trimmed text is neither empty nor "nan", in the order of the rows:
    the industry is the trimmed name of the sheet, the type is given by
    the column, and the company is the trimmed text, which has nothing
    left to trim. *)
Theorem categorized_records (float_str : float -> string) (sheets : list sheet)
        (table : list categorized_row) :
  Dashboard.load_categorized_companies float_str (Workbook sheets) = Ok table
  \/ Report.load_categorized_companies float_str (Workbook sheets) = Ok table
  \/ Eda.load_categorized_companies float_str (Workbook sheets) = Ok table ->
  table
  = flat_map
      (fun s =>
         flat_map
           (fun b =>
              map (fun company => {| Industry := Str.strip (sheet_name s);
                                     Cat_Company := company;
                                     Type_ := snd b |})
                  (filter keep_company
                          (map (fun x => Str.strip (py_str float_str x))
                               (filter (fun x => negb (isna x))
                                       (map (fun r => nth (fst b) r CNaN)
                                            (skipn 2 (rows s)))))))
           buckets)
      sheets
  /\ forall r,
       (In r table
        <-> exists s cells c,
              In s sheets /\ In cells (skipn 2 (rows s)) /\ In (c, Type_ r) buckets
              /\ isna (nth c cells CNaN) = false
              /\ Cat_Company r <> ""%string /\ Cat_Company r <> "nan"%string
              /\ Industry r = Str.strip (sheet_name s)
              /\ Cat_Company r = Str.strip (py_str float_str (nth c cells CNaN)))
       /\ (In r table -> Str.strip (Cat_Company r) = Cat_Company r).
Proof.
  intros H.
  assert (table = flat_map (cat_rows float_str) sheets) as ->.
  { rewrite report_cat_load_eq, dash_cat_load_eq, eda_cat_load_eq in H.
    destruct (existsb short sheets);
      [destruct H as [H|[H|H]]; discriminate H|].
    destruct H as [H|[H|H]]; try (now injection H).
    destruct (flat_map (cat_rows float_str) sheets); [discriminate|].
    now injection H. }
  split; [apply flat_map_ext; intros s; apply cat_rows_buckets|].
  intros r.
  assert (In r (flat_map (cat_rows float_str) sheets)
          <-> exists s cells c,
                In s sheets /\ In cells (skipn 2 (rows s))
                /\ In (c, Type_ r) buckets
                /\ isna (nth c cells CNaN) = false
                /\ Cat_Company r <> ""%string /\ Cat_Company r <> "nan"%string
                /\ Industry r = Str.strip (sheet_name s)
                /\ Cat_Company r = Str.strip (py_str float_str (nth c cells CNaN)))
    as Hiff.
  { rewrite in_flat_map. split.
    - intros (s & Hs & Hr). apply cat_rows_In in Hr
        as (cells & c & H1 & H2 & H3 & H4 & H5 & H6).
      apply keep_company_spec in H4 as [H4 H4'].
      exists s, cells, c. auto 10.
    - intros (s & cells & c & Hs & H1 & H2 & H3 & H4 & H4' & H5 & H6).
      exists s. split; [exact Hs|]. apply cat_rows_In.
      exists cells, c. rewrite keep_company_spec. auto 10. }
  split; [exact Hiff|].
  intros Hr. apply Hiff in Hr as (s & cells & c & _ & _ & _ & _ & _ & _ & _ & E).
  rewrite E. apply TrimFacts.strip_idempotent.
Qed.

Lemma categorized_records_witness :
  Dashboard.load_categorized_companies no_float_str finance_workbook
  = Ok finance_table
  /\ Str.strip "Harbor Credit" = "Harbor Credit"%string.
Proof.
  assert (Dashboard.load_categorized_companies no_float_str finance_workbook
          = Ok finance_table) as L by (vm_compute; reflexivity).
  split; [exact L|].
  refine (proj2 (proj2 (categorized_records no_float_str _ finance_table
                          (or_introl L))
                       {| Industry := "Finance"; Cat_Company := "Harbor Credit";
                          Type_ := Local |}) _).
  cbn [finance_table In]. auto.
Defined.

(** The three columns the loaders read of a sheet. *)
Lemma payload_columns s s' c :
  In c [1; 2; 3] -> payload s = payload s' ->
  map (fun r => nth c r CNaN) (skipn 2 (rows s))
  = map (fun r => nth c r CNaN) (skipn 2 (rows s')).
Proof.
  unfold payload. intros Hc [= _ _ E].
  set (three := fun r : list cell => (nth 1 r CNaN, nth 2 r CNaN, nth 3 r CNaN)) in E.
  cbn [In] in Hc. destruct Hc as [<-|[<-|[<-|[]]]].
  - apply (f_equal (map (fun x : cell * cell * cell => fst (fst x)))) in E.
    now rewrite !map_map in E.
  - apply (f_equal (map (fun x : cell * cell * cell => snd (fst x)))) in E.
    now rewrite !map_map in E.
  - apply (f_equal (map (fun x : cell * cell * cell => snd x))) in E.
    now rewrite !map_map in E.
Qed.

Lemma payload_cat_rows float_str s s' :
  payload s = payload s' -> cat_rows float_str s = cat_rows float_str s'.
Proof.
  intros E. unfold cat_rows, bucket.
  rewrite (payload_columns s s' 1), (payload_columns s s' 2),
    (payload_columns s s' 3) by (cbn [In]; auto).
  injection E as -> _ _. reflexivity.
Qed.

Lemma payload_loads float_str sheets sheets' :
  map payload sheets = map payload sheets' ->
  existsb short sheets = existsb short sheets'
  /\ flat_map (cat_rows float_str) sheets = flat_map (cat_rows float_str) sheets'.
Proof.
  revert sheets'. induction sheets as [|s sheets IH]; intros [|s' sheets'] E;
    try discriminate E; [split; reflexivity|].
  cbn [map] in E.
  pose proof (f_equal (hd (payload s)) E) as E1.
  pose proof (f_equal (@tl _) E) as E2. cbn [hd tl] in E1, E2.
  destruct (IH sheets' E2) as [IH1 IH2].
  cbn [existsb flat_map]. rewrite IH1, IH2, (payload_cat_rows float_str s s' E1).
  split; [|reflexivity]. f_equal. unfold payload in E1. now injection E1.
Qed.

(** X3. The loaders of the categorized companies read nothing but the
    name of each sheet, whether it has fewer than four columns, and the
    cells of the columns 1, 2 and 3 from the third row on: two workbooks
    that agree on these give the same result, whatever their first two
    rows, their first column and their columns after the fourth hold. *)
Theorem categorized_loaders_read_three_columns
        (float_str : float -> string) (sheets sheets' : list sheet) :
  map payload sheets = map payload sheets' ->
  Eda.load_categorized_companies float_str (Workbook sheets)
  = Eda.load_categorized_companies float_str (Workbook sheets')
  /\ Dashboard.load_categorized_companies float_str (Workbook sheets)
     = Dashboard.load_categorized_companies float_str (Workbook sheets')
  /\ Report.load_categorized_companies float_str (Workbook sheets)
     = Report.load_categorized_companies float_str (Workbook sheets').
Proof.
  intros E. destruct (payload_loads float_str sheets sheets' E) as [E1 E2].
  rewrite !eda_cat_load_eq, !dash_cat_load_eq, ?report_cat_load_eq, E1, E2.
  auto.
Qed.

Lemma categorized_loaders_read_three_columns_witness :
  map payload finance_sheets = map payload retitled_sheets
  /\ Dashboard.load_categorized_companies no_float_str (Workbook finance_sheets)
     = Dashboard.load_categorized_companies no_float_str (Workbook retitled_sheets).
Proof.
  assert (map payload finance_sheets = map payload retitled_sheets) as E
    by (vm_compute; reflexivity).
  split; [exact E|].
  exact (proj1 (proj2 (categorized_loaders_read_three_columns
                         no_float_str finance_sheets retitled_sheets E))).
Defined.
(* ------------------------------------------------------------------ *)
(** ** The rows of a loaded table *)

Lemma wide_table_loaded : loaded no_float_str wide_sheets wide_table.
Proof. left. vm_compute. reflexivity. Qed.

(** X4. The table a vendor loader returns holds one row for every row of
    every retained sheet whose company text holds no boilerplate phrase,
    in the order of the workbook: each row is cleaned on its own, and no
    row is dropped or added for what its other cells hold (a commitment
    that is not a number stays as a missing value). *)
Theorem vendor_rows_in_workbook_order (float_str : float -> string)
        (sheets : list sheet) (table : table) :
  loaded float_str sheets table ->
  table = flat_map (fun s => map (vendor_of float_str s) (vendor_cells float_str s))
                   (filter retained sheets)
  /\ length table
     = list_sum (map (fun s => length (vendor_cells float_str s))
                     (filter retained sheets)).
Proof.
  intros H. pose proof (loaded_eq float_str sheets table H) as E.
  split; [exact E|]. rewrite E, length_flat_map_sum.
  f_equal. apply map_ext. intros s. apply length_map.
Qed.

Lemma vendor_rows_in_workbook_order_witness :
  loaded no_float_str wide_sheets wide_table
  /\ length wide_table
     = list_sum (map (fun s => length (vendor_cells no_float_str s))
                     (filter retained wide_sheets)).
Proof.
  split; [exact wide_table_loaded|].
  exact (proj2 (vendor_rows_in_workbook_order no_float_str wide_sheets wide_table
                  wide_table_loaded)).
Defined.

Lemma nan_text_not_boilerplate : boilerplate "nan" = false.
Proof. vm_compute. reflexivity. Qed.

(** X5. A row of a retained sheet whose company cell is empty is kept:
    its company is the text "nan". *)
Theorem missing_company_is_kept (float_str : float -> string)
        (sheets : list sheet) (table : table) (s : sheet) (cells : list cell) :
  loaded float_str sheets table ->
  In s sheets -> retained s = true -> In cells (rows s) ->
  nth 2 cells CNaN = CNaN ->
  In (vendor_of float_str s cells) table
  /\ Company (vendor_of float_str s cells) = "nan"%string.
Proof.
  intros H Hs Hret Hc E. split.
  - apply (loaded_In float_str sheets table _ H). exists s, cells.
    rewrite E. cbn [py_str]. rewrite nan_text_not_boilerplate. auto.
  - unfold vendor_of, clean_row, name_row. cbn [Company raw_Company].
    rewrite E. reflexivity.
Qed.

Lemma missing_company_is_kept_witness :
  loaded no_float_str wide_sheets wide_table
  /\ In (nth 0 wide_table plain_row) wide_table
  /\ Company (nth 0 wide_table plain_row) = "nan"%string.
Proof.
  split; [exact wide_table_loaded|].
  refine (missing_company_is_kept no_float_str wide_sheets wide_table
            (nth 0 wide_sheets {| sheet_name := ""; width := 0; rows := [] |})
            [CStr "OFF47"; CStr "Gus Hale"; CNaN; CStr "Sales";
             CStr "gus@grove.test"; CStr "555-0130"; CStr "12%"; CStr "a note"]
            wide_table_loaded _ _ _ _).
  - cbn. auto.
  - reflexivity.
  - cbn. auto.
  - reflexivity.
Defined.

(** X6. In every row of a loaded table the contract code, the name and
    the company hold no newline and have nothing left to trim. *)
Theorem loaded_text_is_clean (float_str : float -> string)
        (sheets : list sheet) (table : table) (r : vendor_row) :
  loaded float_str sheets table -> In r table ->
  Forall (fun t => one_line t /\ Str.strip t = t)
         [Contract_Code r; Name r; Company r].
Proof.
  intros H Hr.
  apply (loaded_In float_str sheets table r H) in Hr as (s & cells & _ & _ & _ & _ & ->).
  unfold vendor_of, clean_row, clean_cell.
  cbn [Contract_Code Name Company].
  repeat constructor; try apply TrimFacts.strip_idempotent;
    intros Hn; apply TrimFacts.strip_chars in Hn;
    exact (TrimFacts.replace_removes _ _ _ TrimFacts.newline_not_space Hn).
Qed.

Lemma loaded_text_is_clean_witness :
  loaded no_float_str wide_sheets wide_table
  /\ Forall (fun t => one_line t /\ Str.strip t = t)
            ["OFF47"; "Ida Voss"; "Iris Paper"]%string.
Proof.
  split; [exact wide_table_loaded|].
  refine (loaded_text_is_clean no_float_str wide_sheets wide_table
            (nth 1 wide_table plain_row) wide_table_loaded _).
  cbn. auto.
Defined.

Lemma skipped_strip name : skipped (Str.strip name) = skipped name.
Proof. unfold skipped. now rewrite TrimFacts.strip_idempotent. Qed.

Lemma nunique_incl (l l' : list string) :
  incl l l' -> nunique l <= length l'.
Proof.
  intros H. unfold nunique. apply NoDup_incl_length; [apply NoDup_nodup|].
  intros x Hx. apply nodup_In in Hx. now apply H.
Qed.

Lemma loaded_category_origin float_str sheets table r :
  loaded float_str sheets table -> In r table ->
  exists s, In s sheets /\ retained s = true
            /\ Category r = Str.strip (sheet_name s).
Proof.
  intros H Hr.
  apply (loaded_In float_str sheets table r H) in Hr
    as (s & cells & Hs & Hret & _ & _ & ->).
  exists s. auto.
Qed.

Lemma loaded_category_count float_str sheets table :
  loaded float_str sheets table ->
  nunique (map Category table) <= length (filter retained sheets).
Proof.
  intros H. rewrite <- (length_map (fun s => Str.strip (sheet_name s))).
  apply nunique_incl. intros c Hc.
  apply in_map_iff in Hc as (r & <- & Hr).
  destruct (loaded_category_origin float_str sheets table r H Hr)
    as (s & Hs & Hret & ->).
  apply in_map_iff. exists s. split; [reflexivity | now apply filter_In].
Qed.

(** X7. The category of every loaded row is the trimmed name of a
    retained sheet, never a name of the skip list; the table holds at
    most as many categories as the workbook holds retained sheets. *)
Theorem loaded_categories (float_str : float -> string)
        (sheets : list sheet) (table : table) :
  loaded float_str sheets table ->
  (forall r, In r table ->
             skipped (Category r) = false
             /\ exists s, In s sheets /\ retained s = true
                          /\ Category r = Str.strip (sheet_name s))
  /\ nunique (map Category table) <= length (filter retained sheets).
Proof.
  intros H. split; [|now apply (loaded_category_count float_str)].
  intros r Hr.
  destruct (loaded_category_origin float_str sheets table r H Hr)
    as (s & Hs & Hret & E).
  split; [|now exists s]. rewrite E, skipped_strip.
  unfold retained in Hret. now apply negb_true_iff in Hret.
Qed.

Lemma loaded_categories_witness :
  loaded no_float_str wide_sheets wide_table
  /\ nunique (map Category wide_table) <= length (filter retained wide_sheets).
Proof.
  split; [exact wide_table_loaded|].
  exact (proj2 (loaded_categories no_float_str wide_sheets wide_table
                  wide_table_loaded)).
Defined.

(* ------------------------------------------------------------------ *)
(** ** What the vendor loaders do not read *)

Lemma retained_iloc s : retained (iloc_cols 7 s) = retained s.
Proof. reflexivity. Qed.

Lemma sheet_error_iloc s : sheet_error (iloc_cols 7 s) = sheet_error s.
Proof.
  unfold sheet_error, narrow. cbn [iloc_cols width rows].
  assert ((Nat.min 7 (width s) <? 7)%nat = (width s <? 7)%nat) as ->.
  { destruct (Nat.ltb_spec (width s) 7), (Nat.ltb_spec (Nat.min 7 (width s)) 7);
      try reflexivity; lia. }
  destruct (width s <? 7)%nat; [reflexivity|]. now destruct (rows s).
Qed.

Lemma sheet_rows_iloc float_str s :
  sheet_rows float_str (iloc_cols 7 s) = sheet_rows float_str s.
Proof.
  unfold sheet_rows. cbn [iloc_cols sheet_name rows].
  replace (map (firstn 7) (map (firstn 7) (rows s))) with (map (firstn 7) (rows s));
    [reflexivity|].
  rewrite map_map. apply map_ext. intros r. now rewrite firstn_firstn.
Qed.

Lemma filter_retained_payload sheets :
  filter retained (map (iloc_cols 7) (filter retained sheets))
  = map (iloc_cols 7) (filter retained sheets).
Proof.
  induction sheets as [|s sheets IH]; [reflexivity|].
  cbn [filter]. destruct (retained s) eqn:R; [|exact IH].
  cbn [map filter]. rewrite retained_iloc, R. now rewrite IH.
Qed.

Lemma first_error_payload sheets :
  first_error (map (iloc_cols 7) sheets) = first_error sheets.
Proof.
  induction sheets as [|s sheets IH]; [reflexivity|].
  cbn [map first_error]. rewrite sheet_error_iloc, IH. reflexivity.
Qed.

Lemma sheet_rows_payload float_str sheets :
  map (sheet_rows float_str) (map (iloc_cols 7) sheets)
  = map (sheet_rows float_str) sheets.
Proof. rewrite map_map. apply map_ext, sheet_rows_iloc. Qed.

(** X8. The vendor loaders read nothing of the sheets of the skip list
    and nothing after the seventh column of the others: a workbook and
    the same workbook without them give the same result, the same
    exception included. *)
Theorem vendor_loaders_read_seven_columns (float_str : float -> string) (f : file) :
  Eda.load_vendor_data float_str (vendor_payload f)
  = Eda.load_vendor_data float_str f
  /\ Dashboard.load_vendor_data float_str (vendor_payload f)
     = Dashboard.load_vendor_data float_str f
  /\ Report.load_vendor_data float_str (vendor_payload f)
     = Report.load_vendor_data float_str f.
Proof.
  destruct f as [|sheets]; [repeat split|].
  cbn [vendor_payload].
  assert (Eda.load_vendor_data float_str
            (Workbook (map (iloc_cols 7) (filter retained sheets)))
          = Eda.load_vendor_data float_str (Workbook sheets)) as E.
  { rewrite !eda_load_eq, filter_retained_payload, first_error_payload.
    destruct (first_error (filter retained sheets)); [reflexivity|].
    destruct (filter retained sheets) as [|s kept]; [reflexivity|].
    change (map (iloc_cols 7) (s :: kept))
      with (iloc_cols 7 s :: map (iloc_cols 7) kept).
    cbv iota. change (iloc_cols 7 s :: map (iloc_cols 7) kept)
      with (map (iloc_cols 7) (s :: kept)).
    now rewrite sheet_rows_payload. }
  split; [exact E|]. split; [|exact E].
  rewrite !dash_load_eq, filter_retained_payload, first_error_payload.
  destruct (first_error (filter retained sheets)); [reflexivity|].
  destruct (filter retained sheets) as [|s kept]; [reflexivity|].
  change (map (iloc_cols 7) (s :: kept))
    with (iloc_cols 7 s :: map (iloc_cols 7) kept).
  cbv iota. change (iloc_cols 7 s :: map (iloc_cols 7) kept)
    with (map (iloc_cols 7) (s :: kept)).
  now rewrite sheet_rows_payload.
Qed.
(* ------------------------------------------------------------------ *)
(** ** The characters the numeric parser accepts *)

Module ParseChars.
Import Parse.

Lemma consumed_refl p : consumed p p.
Proof. exists []. split; reflexivity. Qed.

Lemma consumed_trans p q r : consumed p q -> consumed q r -> consumed p r.
Proof.
  intros (a & -> & Ha) (b & -> & Hb). exists (a ++ b).
  split; [now rewrite app_assoc|]. rewrite forallb_app, Ha, Hb. reflexivity.
Qed.

Lemma consumed_step c p q :
  number_char c = true -> consumed p q -> consumed (c :: p) q.
Proof.
  intros Hc (a & -> & Ha). exists (c :: a). split; [reflexivity|].
  cbn [forallb]. now rewrite Hc, Ha.
Qed.

Lemma space_char c : isspace_ascii c = true -> number_char c = true.
Proof. unfold number_char. now intros ->. Qed.

Lemma digit_char c : isdigit_ascii c = true -> number_char c = true.
Proof. unfold number_char. intros ->. now rewrite orb_true_r. Qed.

Lemma is_char_eq a c : is_char a c = true -> c = a.
Proof. unfold is_char. intros H. now apply Ascii.eqb_eq in H. Qed.

Lemma skip_space_consumed p : consumed p (skip_space p).
Proof.
  induction p as [|c p IH]; [apply consumed_refl|].
  cbn [skip_space]. destruct (isspace_ascii c) eqn:E; [|apply consumed_refl].
  apply consumed_step; [now apply space_char | exact IH].
Qed.

Lemma sign_consumed p p' b : sign p = (p', b) -> consumed p p'.
Proof.
  destruct p as [|c p]; cbn [sign].
  - intros [= <- _]. apply consumed_refl.
  - destruct (is_char "-" c) eqn:E1.
    + intros [= <- _]. apply is_char_eq in E1 as ->.
      apply consumed_step; [reflexivity | apply consumed_refl].
    + destruct (is_char "+" c) eqn:E2; intros [= <- _].
      * apply is_char_eq in E2 as ->.
        apply consumed_step; [reflexivity | apply consumed_refl].
      * apply consumed_refl.
Qed.

Lemma int_digits_consumed p number nd ex p' number' nd' ex' :
  int_digits p number nd ex = (p', number', nd', ex') -> consumed p p'.
Proof.
  revert number nd ex. induction p as [|c p IH]; intros number nd ex; cbn [int_digits].
  - intros [= <- _ _ _]. apply consumed_refl.
  - destruct (isdigit_ascii c) eqn:D.
    + destruct (nd <? max_digits)%nat; intros H; apply IH in H;
        (apply consumed_step; [now apply digit_char | exact H]).
    + intros [= <- _ _ _]. apply consumed_refl.
Qed.

Lemma frac_digits_consumed p number nd dec p' number' nd' dec' :
  frac_digits p number nd dec = (p', number', nd', dec') -> consumed p p'.
Proof.
  revert number nd dec. induction p as [|c p IH]; intros number nd dec;
    cbn [frac_digits].
  - intros [= <- _ _ _]. apply consumed_refl.
  - destruct ((nd <? max_digits)%nat && isdigit_ascii c) eqn:D.
    + apply andb_true_iff in D as [_ D]. intros H. apply IH in H.
      apply consumed_step; [now apply digit_char | exact H].
    + intros [= <- _ _ _]. apply consumed_refl.
Qed.

Lemma skip_digits_consumed p : consumed p (skip_digits p).
Proof.
  induction p as [|c p IH]; [apply consumed_refl|].
  cbn [skip_digits]. destruct (isdigit_ascii c) eqn:E; [|apply consumed_refl].
  apply consumed_step; [now apply digit_char | exact IH].
Qed.

Lemma exp_digits_consumed p n nd p' n' nd' :
  exp_digits p n nd = (p', n', nd') -> consumed p p'.
Proof.
  revert n nd. induction p as [|c p IH]; intros n nd; cbn [exp_digits].
  - intros [= <- _ _]. apply consumed_refl.
  - destruct ((nd <? max_digits)%nat && isdigit_ascii c) eqn:D.
    + apply andb_true_iff in D as [_ D]. intros H. apply IH in H.
      apply consumed_step; [now apply digit_char | exact H].
    + intros [= <- _ _]. apply consumed_refl.
Qed.

(** What is left when only white space is left. *)
Lemma skip_space_nil p : skip_space p = [] -> forallb number_char p = true.
Proof.
  induction p as [|c p IH]; [reflexivity|].
  cbn [skip_space forallb]. destruct (isspace_ascii c) eqn:E; [|discriminate].
  intros H. now rewrite (space_char c E), IH.
Qed.

Lemma consumed_all p q :
  consumed p q -> forallb number_char q = true -> forallb number_char p = true.
Proof. intros (a & -> & Ha) Hq. now rewrite forallb_app, Ha, Hq. Qed.

(** The fraction, when there is one. *)
Lemma fraction_consumed p number nd ex r :
  match p with
  | c :: t =>
      if is_char "." c then
        let '(p, number, num_digits, num_decimals) := frac_digits t number nd 0%Z in
        let p := if (max_digits <=? num_digits)%nat then skip_digits p else p in
        (p, number, num_digits, (ex - num_decimals)%Z)
      else (p, number, nd, ex)
  | [] => (p, number, nd, ex)
  end = r ->
  consumed p (fst (fst (fst r))).
Proof.
  destruct p as [|c t]; [intros <-; apply consumed_refl|].
  destruct (is_char "." c) eqn:E; [|intros <-; apply consumed_refl].
  apply is_char_eq in E as ->.
  destruct (frac_digits t number nd 0%Z) as [[[p1 n1] d1] k1] eqn:F.
  apply frac_digits_consumed in F. intros <-. cbn [fst].
  apply consumed_step; [reflexivity|].
  destruct (max_digits <=? d1)%nat; [|exact F].
  eapply consumed_trans; [exact F | apply skip_digits_consumed].
Qed.

(** The exponent, when there is one. *)
Lemma exponent_consumed p ex r :
  match p with
  | c :: t =>
      if is_char "e" c || is_char "E" c then
        let '(p', neg) := sign t in
        let '(p', n, nd) := exp_digits p' 0%Z 0%nat in
        if (nd =? 0)%nat then (p, ex)
        else (p', if neg then (ex - n)%Z else (ex + n)%Z)
      else (p, ex)
  | [] => (p, ex)
  end = r ->
  consumed p (fst r).
Proof.
  destruct p as [|c t]; [intros <-; apply consumed_refl|].
  destruct (is_char "e" c || is_char "E" c) eqn:E; [|intros <-; apply consumed_refl].
  assert (number_char c = true) as Hc.
  { apply orb_true_iff in E as [E|E]; apply is_char_eq in E as ->; reflexivity. }
  destruct (sign t) as [p1 neg] eqn:S. apply sign_consumed in S.
  destruct (exp_digits p1 0%Z 0%nat) as [[p2 n] d] eqn:X.
  apply exp_digits_consumed in X.
  destruct (d =? 0)%nat; intros <-; cbn [fst]; [apply consumed_refl|].
  apply consumed_step; [exact Hc|]. eapply consumed_trans; eassumption.
Qed.

(** A text the parser reads as a number is written with the characters
    of numbers only. *)
Lemma to_double_chars s x :
  to_double s = Some x -> forallb number_char (Str.chars s) = true.
Proof.
  unfold to_double.
  pose proof (skip_space_consumed (Str.chars s)) as C0.
  destruct (sign (skip_space (Str.chars s))) as [p1 negative] eqn:E1.
  pose proof (sign_consumed _ _ _ E1) as C1.
  destruct (int_digits p1 Float.zero 0%nat 0%Z) as [[[p2 number] nd] ex] eqn:E2.
  pose proof (int_digits_consumed _ _ _ _ _ _ _ _ E2) as C2.
  match goal with |- context [match p2 with [] => ?a | c :: t => @?b c t end] =>
    destruct (match p2 with [] => a | c :: t => b c t end)
      as [[[p3 number3] nd3] ex3] eqn:E3 end.
  pose proof (fraction_consumed _ _ _ _ _ E3) as C3. cbn [fst] in C3.
  destruct (nd3 =? 0)%nat; [discriminate|].
  match goal with |- context [match p3 with [] => ?a | c :: t => @?b c t end] =>
    destruct (match p3 with [] => a | c :: t => b c t end)
      as [p4 ex4] eqn:E4 end.
  pose proof (exponent_consumed _ _ _ E4) as C4. cbn [fst] in C4.
  destruct (scale _ ex4); [|discriminate].
  destruct (skip_space p4) eqn:K; [|discriminate]. intros _.
  apply skip_space_nil in K.
  eapply consumed_all; [|exact K].
  eapply consumed_trans; [exact C0|]. eapply consumed_trans; [exact C1|].
  eapply consumed_trans; [exact C2|]. eapply consumed_trans; [exact C3|].
  exact C4.
Qed.

End ParseChars.

(** X9. A text cell that holds a character no number is written with
    (anything but white space, a digit, a sign, the point, [e] and [E]:
    a percent sign, a comma, a currency mark) is coerced to the missing
    value, unless the text is one of the spellings of infinity. *)
Theorem text_with_foreign_character_is_missing (s : string) :
  forallb number_char (Str.chars s) = false ->
  Parse.infinity_name s = None ->
  to_numeric (CStr s) = Float.nan.
Proof.
  intros Hc Hinf. cbn [to_numeric]. destruct s as [|c s]; [reflexivity|].
  unfold Parse.floatify. rewrite Hinf.
  destruct (Parse.to_double (String c s)) as [x|] eqn:E; [|reflexivity].
  apply ParseChars.to_double_chars in E. congruence.
Qed.

Lemma text_with_foreign_character_is_missing_witness :
  to_numeric (CStr "12%") = Float.nan.
Proof.
  apply text_with_foreign_character_is_missing; vm_compute; reflexivity.
Defined.
(* ------------------------------------------------------------------ *)
(** ** The capped frames *)

Lemma one_positive : Float.gtb Float.one Float.zero = true.
Proof. vm_compute. reflexivity. Qed.

Lemma cap_in_unit (x : float) :
  Float.isnan x = false -> Float.gtb x Float.zero = true ->
  in_unit (cap x)
  /\ (Float.leb x Float.one = true -> cap x = x)
  /\ (Float.leb x Float.one = false -> cap x = Float.one).
Proof.
  intros N G. unfold in_unit.
  split; [split; [now apply CapFacts.cap_not_nan|split]|split].
  - unfold cap, clip_upper. rewrite N.
    destruct (Float.leb x Float.one); [exact G | exact one_positive].
  - now apply CapFacts.cap_le_one.
  - apply CapFacts.cap_le.
  - intros L. unfold cap, clip_upper. now rewrite N, L.
Qed.

Lemma Forall2_map_self {A B} (R : B -> A -> Prop) (f : A -> B) (l : list A) :
  (forall a, In a l -> R (f a) a) -> Forall2 R (map f l) l.
Proof.
  induction l as [|a l IH]; intros H; cbn [map]; constructor.
  - apply H. now left.
  - apply IH. intros b Hb. apply H. now right.
Qed.

(** X10. The capped commitments the views average and draw (the
    dashboard's [vendor_with_sdo], the frames of BQ2 and BQ6) are those
    of the rows with a commitment above 0, one per row and in order;
    each lies above 0 and at most at 1.0, is the raw value when that is
    at most 1.0 and is 1.0 otherwise (an infinite commitment included).
    The frame of BQ2 holds the capped value in the place of the raw
    one and leaves the other columns as they are. *)
Theorem capped_frames_within_unit_interval
        (vendor_df : table) (dash_df : list dash_row) :
  (map row (vendor_with_sdo dash_df)
   = with_sdo (fun r => SDO_Commitment_Pct (base r)) dash_df
   /\ Forall (fun c => in_unit (SDO_Capped c)
                       /\ SDO_Capped c = cap (SDO_Commitment_Pct (base (row c))))
             (vendor_with_sdo dash_df))
  /\ (map row (bq6_sdo_df vendor_df) = with_sdo SDO_Commitment_Pct vendor_df
      /\ Forall (fun c => in_unit (SDO_Capped c)
                          /\ SDO_Capped c = cap (SDO_Commitment_Pct (row c)))
                (bq6_sdo_df vendor_df))
  /\ Forall2 (fun c r => in_unit (SDO_Commitment_Pct c)
                         /\ SDO_Commitment_Pct c = cap (SDO_Commitment_Pct r)
                         /\ other_columns c = other_columns r)
             (bq2_sdo_capped vendor_df) (with_sdo SDO_Commitment_Pct vendor_df)
  /\ (forall x, Float.isnan x = false -> Float.gtb x Float.zero = true ->
                (Float.leb x Float.one = true -> cap x = x)
                /\ (Float.leb x Float.one = false -> cap x = Float.one))
  /\ cap Float.inf = Float.one.
Proof.
  split; [|split; [|split; [|split]]].
  - split.
    + unfold vendor_with_sdo. rewrite map_map. cbn [row]. apply map_id.
    + apply Forall_forall. intros c Hc. unfold vendor_with_sdo in Hc.
      apply in_map_iff in Hc as (r & <- & Hr). cbn [SDO_Capped row].
      apply with_sdo_In in Hr as (_ & N & G).
      split; [now apply cap_in_unit | reflexivity].
  - split.
    + unfold bq6_sdo_df. rewrite map_map. cbn [row]. apply map_id.
    + apply Forall_forall. intros c Hc. unfold bq6_sdo_df in Hc.
      apply in_map_iff in Hc as (r & <- & Hr). cbn [SDO_Capped row].
      apply with_sdo_In in Hr as (_ & N & G).
      split; [now apply cap_in_unit | reflexivity].
  - unfold bq2_sdo_capped. apply Forall2_map_self. intros r Hr.
    cbn [SDO_Commitment_Pct]. apply with_sdo_In in Hr as (_ & N & G).
    split; [now apply cap_in_unit|]. split; reflexivity.
  - intros x N G. now apply cap_in_unit.
  - vm_compute. reflexivity.
Qed.

(* ------------------------------------------------------------------ *)
(** ** The same view in the EDA script and in the dashboard *)

Lemma with_sdo_map {A B} (f : A -> B) (sdo : B -> float) (l : list A) :
  with_sdo sdo (map f l) = map f (with_sdo (fun a => sdo (f a)) l).
Proof.
  unfold with_sdo, positive, dropna. now rewrite !filter_map_swap.
Qed.

Lemma vendor_with_sdo_labelled (vendor_df : table) :
  vendor_with_sdo (map labelled vendor_df) = map with_label (bq6_sdo_df vendor_df).
Proof.
  unfold vendor_with_sdo, bq6_sdo_df. rewrite with_sdo_map, !map_map.
  reflexivity.
Qed.

Lemma category_sizes_map {A B} (f : A -> B) (category : B -> string) (l : list A) :
  category_sizes category (map f l) = category_sizes (fun a => category (f a)) l.
Proof.
  unfold category_sizes. rewrite map_map. apply map_ext. intros c.
  now rewrite filter_map_swap, length_map.
Qed.

Lemma sdo_valid_at_map {A B} (f : A -> B) threshold (category : B -> string)
      (l : list A) :
  sdo_valid_at threshold category (map f l)
  = map f (sdo_valid_at threshold (fun a => category (f a)) l).
Proof.
  unfold sdo_valid_at, valid_cats_at.
  now rewrite category_sizes_map, filter_map_swap.
Qed.

(** X11. On the same vendor table the box plot of the dashboard is drawn
    from the rows the EDA script keeps for its own (the rows of the
    categories with at least 10 eligible rows), each under its label and
    with the same capped commitment. *)
Theorem bq6_views_agree (vendor_df : table) :
  make_bq6_chart (map labelled vendor_df)
  = map with_label (bq6_sdo_distribution_outliers vendor_df).
Proof.
  unfold make_bq6_chart, bq6_sdo_distribution_outliers.
  rewrite vendor_with_sdo_labelled. now rewrite sdo_valid_at_map.
Qed.

Section Bq8Agreement.

Variable mean : list float -> float.
Variable pearsonr : list nat -> list float -> float * float.
Variable polyfit1 : list nat -> list float -> float * float.
Variable linregress :
  list nat -> list float -> float * float * float * float * float.

(** X12. When no commitment above 0 exceeds 1.0, the scatter of the
    dashboard and that of the EDA script hold the same pairs: the same
    categories, the same vendor counts and the mean of the same
    values. *)
Theorem bq8_views_agree_below_one (vendor_df : table) :
  (forall r, In r vendor_df ->
             Float.isnan (SDO_Commitment_Pct r) = false ->
             Float.gtb (SDO_Commitment_Pct r) Float.zero = true ->
             Float.leb (SDO_Commitment_Pct r) Float.one = true) ->
  stats (make_bq8_chart mean linregress (map labelled vendor_df))
  = cat_stats (bq8_vendor_count_vs_sdo mean pearsonr polyfit1 vendor_df).
Proof.
  intros H. cbn [make_bq8_chart stats bq8_vendor_count_vs_sdo cat_stats].
  rewrite capped_filter_vacuous, vendor_with_sdo_labelled.
  unfold bq6_sdo_df. rewrite map_map, category_stats_map.
  cbn [with_label row labelled base SDO_Capped].
  rewrite (filter_all (fun r => Float.leb (SDO_Commitment_Pct r) Float.one)).
  - apply category_stats_ext. intros r Hr.
    apply with_sdo_In in Hr as (Hin & N & G).
    apply CapFacts.cap_le. now apply H.
  - intros r Hr. apply with_sdo_In in Hr as (Hin & N & G). now apply H.
Qed.

End Bq8Agreement.

Lemma bq8_views_agree_below_one_witness :
  stats (make_bq8_chart (fun _ => Float.zero)
                        (fun _ _ => (Float.zero, Float.zero, Float.zero,
                                     Float.zero, Float.zero))
                        (map labelled two_vendor_table))
  = cat_stats (bq8_vendor_count_vs_sdo (fun _ => Float.zero)
                                       (fun _ _ => (Float.zero, Float.zero))
                                       (fun _ _ => (Float.zero, Float.zero))
                                       two_vendor_table).
Proof.
  apply bq8_views_agree_below_one.
  intros r [<-|[<-|[]]] _ _; vm_compute; reflexivity.
Defined.

(* ------------------------------------------------------------------ *)
(** ** BQ7: every row is counted once *)

Lemma group_sum_filter {A} (category : A -> string) (p : A -> bool) (df : list A) :
  list_sum (map (fun c => length (filter p (filter (fun r => String.eqb (category r) c) df)))
                (group_keys String.compare (map category df)))
  = length (filter p df).
Proof.
  rewrite <- (group_sizes_total category String.eqb string_eqb_eq (filter p df)
                (group_keys String.compare (map category df))).
  - f_equal. apply map_ext. intros c. f_equal.
    rewrite !filter_filter. apply filter_ext. intros r. apply andb_comm.
  - apply KeyFacts.string_keys_NoDup.
  - intros r Hr. apply filter_In in Hr as [Hr _].
    apply KeyFacts.string_keys_In. now apply in_map.
Qed.

Section CoverageFacts.

Variable argsort : list float -> list nat.
Hypothesis argsort_ok : argsort_spec argsort.

(** The frame of BQ7 before it is sorted, in terms of the rows. *)
Lemma coverage_rows (vendor_df : table) :
  Permutation
    (bq7_sdo_coverage_rate argsort vendor_df)
    (map (fun c =>
            let g := filter (fun r => String.eqb (Category r) c) vendor_df in
            {| cov_Category := c;
               Has_SDO :=
                 length (filter (fun r => negb (Float.isnan (SDO_Commitment_Pct r))) g);
               No_SDO := length (filter (fun r => Float.isnan (SDO_Commitment_Pct r)) g);
               Total := length g;
               Coverage_Rate :=
                 Float.div
                   (Float.of_Z
                      (Z.of_nat
                         (length (filter (fun r => negb (Float.isnan
                                                           (SDO_Commitment_Pct r))) g))))
                   (Float.of_Z (Z.of_nat (length g)));
               cov_Label := get_category_label c |})
         (group_keys String.compare (map Category vendor_df))).
Proof.
  unfold bq7_sdo_coverage_rate.
  eapply Permutation_trans; [apply (sort_values_perm_all argsort argsort_ok)|].
  apply Permutation_refl'. apply map_ext. intros c. cbv zeta. unfold notna_mean.
  rewrite (length_filter_map SDO_Commitment_Pct (fun v => negb (Float.isnan v))).
  rewrite (length_filter_map SDO_Commitment_Pct Float.isnan).
  now rewrite length_map.
Qed.

(** X13. On a table with at least one row the coverage view counts
    every row once and lists the categories by increasing rate: there
    is one row per category of the table; in each the rows with and
    without a commitment add up to the total, which is at least 1, the
    rate is the quotient of the rows with a commitment by the total, as
    floats, and the label is that of the category; the rows come by
    increasing rate (a rate that is not a number would come last); over
    the categories the totals add up to the number of rows, and the
    rows without a commitment to the number of rows without one. *)
Theorem bq7_coverage_counts_every_row (vendor_df : table) :
  vendor_df <> [] ->
  let coverage := bq7_sdo_coverage_rate argsort vendor_df in
  Forall (fun c =>
            let g := filter (fun r => String.eqb (Category r) (cov_Category c))
                            vendor_df in
            Total c = length g /\ 1 <= Total c
            /\ No_SDO c = length (filter (fun r => Float.isnan (SDO_Commitment_Pct r)) g)
            /\ Has_SDO c + No_SDO c = Total c
            /\ Coverage_Rate c
               = Float.div (Float.of_Z (Z.of_nat (Has_SDO c)))
                           (Float.of_Z (Z.of_nat (Total c)))
            /\ cov_Label c = get_category_label (cov_Category c))
         coverage
  /\ NoDup (map cov_Category coverage)
  /\ (forall c, In c (map cov_Category coverage) <-> In c (map Category vendor_df))
  /\ Sorted (fun a b => Float.leb (Coverage_Rate a) (Coverage_Rate b) = true
                        \/ Float.isnan (Coverage_Rate b) = true)
            coverage
  /\ list_sum (map Total coverage) = length vendor_df
  /\ list_sum (map No_SDO coverage)
     = length (filter (fun r => Float.isnan (SDO_Commitment_Pct r)) vendor_df)
  /\ list_sum (map Has_SDO coverage)
     = length (filter (fun r => negb (Float.isnan (SDO_Commitment_Pct r))) vendor_df).
Proof.
  intros _ coverage. pose proof (coverage_rows vendor_df) as P. fold coverage in P.
  set (unsorted := map _ (group_keys String.compare (map Category vendor_df))) in P.
  assert (map cov_Category unsorted
          = group_keys String.compare (map Category vendor_df)) as K
    by (unfold unsorted; rewrite map_map; cbn [cov_Category]; apply map_id).
  pose proof (Permutation_map cov_Category P) as PK. rewrite K in PK.
  split; [|split; [|split; [|split; [|split; [|split]]]]].
  - apply (Permutation_Forall (Permutation_sym P)).
    apply Forall_forall. intros c Hc. unfold unsorted in Hc.
    apply in_map_iff in Hc as (k & <- & Hk).
    cbn [Has_SDO No_SDO Total cov_Category Coverage_Rate cov_Label].
    split; [reflexivity|]. split; [|split; [reflexivity|split;
      [apply filter_split_length | split; reflexivity]]].
    apply (proj1 (KeyFacts.string_keys_In _ _)) in Hk.
    apply in_map_iff in Hk as (r & <- & Hr).
    assert (In r (filter (fun r0 => String.eqb (Category r0) (Category r)) vendor_df))
      as Hin by (apply filter_In; split; [exact Hr | apply String.eqb_refl]).
    destruct (filter _ vendor_df); [contradiction | cbn [length]; lia].
  - apply (Permutation_NoDup (Permutation_sym PK)), KeyFacts.string_keys_NoDup.
  - intros c. split; intros Hc.
    + apply (proj1 (KeyFacts.string_keys_In c (map Category vendor_df))).
      exact (Permutation_in _ PK Hc).
    + apply (Permutation_in _ (Permutation_sym PK)).
      now apply KeyFacts.string_keys_In.
  - apply (sort_values_increasing_all argsort argsort_ok).
  - rewrite (list_sum_perm _ _ (Permutation_map Total P)).
    unfold unsorted. rewrite map_map. cbn [Total].
    apply (group_sizes_total Category String.eqb string_eqb_eq).
    + apply KeyFacts.string_keys_NoDup.
    + intros r Hr. apply KeyFacts.string_keys_In. now apply in_map.
  - rewrite (list_sum_perm _ _ (Permutation_map No_SDO P)).
    unfold unsorted. rewrite map_map. cbn [No_SDO]. apply group_sum_filter.
  - rewrite (list_sum_perm _ _ (Permutation_map Has_SDO P)).
    unfold unsorted. rewrite map_map. cbn [Has_SDO]. apply group_sum_filter.
Qed.

End CoverageFacts.

Lemma bq7_coverage_counts_every_row_witness :
  coverage_table <> []
  /\ argsort_spec insertion_argsort
  /\ map cov_Category (bq7_sdo_coverage_rate insertion_argsort coverage_table)
     = ["VEH"; "FAC"]
  /\ Sorted (fun a b => Float.leb (Coverage_Rate a) (Coverage_Rate b) = true
                        \/ Float.isnan (Coverage_Rate b) = true)
            (bq7_sdo_coverage_rate insertion_argsort coverage_table).
Proof.
  assert (coverage_table <> []) as H by discriminate.
  split; [exact H|]. split; [exact InsertionSort.meets_contract|].
  split; [vm_compute; reflexivity|].
  exact (proj1 (proj2 (proj2 (proj2
           (bq7_coverage_counts_every_row
              insertion_argsort InsertionSort.meets_contract coverage_table H))))).
Defined.
(* ------------------------------------------------------------------ *)
(** ** Counting distinct values per group *)

Lemma nunique_le_length (l : list string) : nunique l <= length l.
Proof. apply nunique_incl, incl_refl. Qed.

Lemma nunique_positive (l : list string) : l <> [] -> 1 <= nunique l.
Proof.
  destruct l as [|a l]; [congruence|]. intros _. unfold nunique.
  assert (In a (nodup string_dec (a :: l))) as H by (apply nodup_In; now left).
  destruct (nodup string_dec (a :: l)); [contradiction | cbn [length]; lia].
Qed.

Lemma nunique_sub (l l' : list string) : incl l l' -> nunique l <= nunique l'.
Proof.
  intros H. unfold nunique. apply NoDup_incl_length; [apply NoDup_nodup|].
  intros x Hx. apply nodup_In. apply nodup_In in Hx. now apply H.
Qed.

Lemma groupby_nunique_keys {A} (key col : A -> string) (df : list A) :
  map fst (groupby_nunique key col df) = group_keys String.compare (map key df).
Proof. unfold groupby_nunique. rewrite map_map. cbn [fst]. apply map_id. Qed.

Lemma groupby_nunique_In {A} (key col : A -> string) (df : list A) k n :
  In (k, n) (groupby_nunique key col df)
  <-> In k (map key df)
      /\ n = nunique (map col (filter (fun r => String.eqb (key r) k) df)).
Proof.
  unfold groupby_nunique. rewrite in_map_iff. split.
  - intros (k' & [= <- <-] & Hk).
    apply (proj1 (KeyFacts.string_keys_In _ _)) in Hk. auto.
  - intros [Hk ->]. exists k. split; [reflexivity|].
    now apply KeyFacts.string_keys_In.
Qed.

Lemma groupby_nunique_positive {A} (key col : A -> string) (df : list A) k n :
  In (k, n) (groupby_nunique key col df) -> 1 <= n.
Proof.
  intros H. apply groupby_nunique_In in H as [Hk ->].
  apply nunique_positive. apply in_map_iff in Hk as (r & <- & Hr).
  assert (In r (filter (fun r0 => String.eqb (key r0) (key r)) df)) as Hin
    by (apply filter_In; split; [exact Hr | apply String.eqb_refl]).
  intros E. apply map_eq_nil in E. rewrite E in Hin. contradiction.
Qed.

Lemma groupby_nunique_map {A B} (f : A -> B) (key col : B -> string) (l : list A) :
  groupby_nunique key col (map f l)
  = groupby_nunique (fun a => key (f a)) (fun a => col (f a)) l.
Proof.
  unfold groupby_nunique. rewrite map_map. apply map_ext. intros k.
  now rewrite filter_map_swap, map_map.
Qed.

Lemma groupby_nunique_total {A} (key col : A -> string) (df : list A) :
  total (groupby_nunique key col df) <= length df.
Proof.
  unfold total, groupby_nunique. rewrite map_map. cbn [snd].
  rewrite <- (group_sizes_total key String.eqb string_eqb_eq df
                (group_keys String.compare (map key df))).
  - induction (group_keys String.compare (map key df)) as [|k keys IH];
      [reflexivity|].
    cbn [map]. rewrite !list_sum_cons.
    pose proof (nunique_le_length
                  (map col (filter (fun r => String.eqb (key r) k) df))) as H.
    rewrite length_map in H. lia.
  - apply KeyFacts.string_keys_NoDup.
  - intros r Hr. apply KeyFacts.string_keys_In. now apply in_map.
Qed.

Lemma NoDup_flat_map {A B} (f : A -> list B) (l : list A) :
  NoDup l -> (forall a, In a l -> NoDup (f a)) ->
  (forall a b x, In a l -> In b l -> In x (f a) -> In x (f b) -> a = b) ->
  NoDup (flat_map f l).
Proof.
  induction 1 as [|h t Hh Ht IH]; intros Hf Hd; [constructor|].
  cbn [flat_map]. apply NoDup_app.
  - apply Hf. now left.
  - apply IH.
    + intros a Ha. apply Hf. now right.
    + intros a b x Ha Hb. apply Hd; now right.
  - intros x Hx Hx'. apply in_flat_map in Hx' as (b & Hb & Hxb).
    assert (h = b) as -> by (apply (Hd h b x); auto; [now left | now right]).
    contradiction.
Qed.

Lemma NoDup_flat_map_key {A B} (f : A -> list B) (l : list A) a b x :
  NoDup (flat_map f l) -> In a l -> In b l -> In x (f a) -> In x (f b) -> a = b.
Proof.
  induction l as [|h t IH]; [contradiction|].
  cbn [flat_map]. intros Hnd Ha Hb Hxa Hxb.
  assert (forall y c, In c t -> In y (f h) -> In y (f c) -> False) as Hsep.
  { intros y c Hc Hy Hy'. clear IH.
    assert (In y (flat_map f t)) as Hin by (apply in_flat_map; eauto).
    apply in_split in Hy as (l1 & l2 & E). rewrite E in Hnd.
    rewrite <- app_assoc in Hnd. cbn [app] in Hnd.
    apply NoDup_remove_2 in Hnd. apply Hnd.
    rewrite app_assoc. apply in_or_app. now right. }
  destruct Ha as [<-|Ha], Hb as [<-|Hb].
  - reflexivity.
  - exfalso. exact (Hsep x b Hb Hxa Hxb).
  - exfalso. exact (Hsep x a Ha Hxb Hxa).
  - apply IH; auto. now apply NoDup_app_remove_l in Hnd.
Qed.

Lemma same_elements_same_length (l l' : list string) :
  NoDup l -> NoDup l' -> (forall x, In x l <-> In x l') -> length l = length l'.
Proof. intros H H' E. apply Permutation_length. now apply NoDup_Permutation. Qed.

Lemma keys_length (column : list string) :
  length (group_keys String.compare column) = nunique column.
Proof.
  unfold nunique. apply same_elements_same_length.
  - apply KeyFacts.string_keys_NoDup.
  - apply NoDup_nodup.
  - intros x. rewrite nodup_In. apply KeyFacts.string_keys_In.
Qed.

(* ------------------------------------------------------------------ *)
(** ** Vendors counted per category and overall *)

Section VendorsPerCategory.

Variable vendor_df : table.

Lemma category_keys_In c :
  In c (category_keys vendor_df) <-> In c (map Category vendor_df).
Proof. apply KeyFacts.string_keys_In. Qed.

Lemma per_category_incl :
  incl (nodup string_dec (map Company vendor_df))
       (flat_map (distinct_companies vendor_df) (category_keys vendor_df)).
Proof.
  intros x Hx. apply nodup_In in Hx. apply in_map_iff in Hx as (r & <- & Hr).
  apply in_flat_map. exists (Category r). split.
  - apply category_keys_In. now apply in_map.
  - apply nodup_In. unfold companies_of. apply in_map. apply filter_In.
    split; [exact Hr | apply String.eqb_refl].
Qed.

Lemma per_category_back :
  incl (flat_map (distinct_companies vendor_df) (category_keys vendor_df))
       (nodup string_dec (map Company vendor_df)).
Proof.
  intros x Hx. apply in_flat_map in Hx as (c & _ & Hx).
  apply nodup_In in Hx. unfold companies_of in Hx.
  apply in_map_iff in Hx as (r & <- & Hr). apply filter_In in Hr as [Hr _].
  apply nodup_In. now apply in_map.
Qed.

Lemma per_category_sum :
  length (flat_map (distinct_companies vendor_df) (category_keys vendor_df))
  = list_sum (map (category_count vendor_df) (category_keys vendor_df)).
Proof. apply length_flat_map_sum. Qed.

Lemma distinct_In c x :
  In x (distinct_companies vendor_df c)
  <-> exists r, In r vendor_df /\ Category r = c /\ Company r = x.
Proof.
  unfold distinct_companies, companies_of. rewrite nodup_In, in_map_iff. split.
  - intros (r & <- & Hr). apply filter_In in Hr as [Hr E].
    apply String.eqb_eq in E. eauto.
  - intros (r & Hr & <- & <-). exists r. split; [reflexivity|].
    apply filter_In. split; [exact Hr | apply String.eqb_refl].
Qed.

Lemma overall_le_per_category :
  nunique (map Company vendor_df)
  <= list_sum (map (category_count vendor_df) (category_keys vendor_df)).
Proof.
  rewrite <- per_category_sum. unfold nunique.
  apply NoDup_incl_length; [apply NoDup_nodup | apply per_category_incl].
Qed.

Lemma overall_eq_per_category :
  list_sum (map (category_count vendor_df) (category_keys vendor_df))
  = nunique (map Company vendor_df)
  <-> one_category_each vendor_df.
Proof.
  rewrite <- per_category_sum. split.
  - intros E r1 r2 H1 H2 Hc.
    assert (NoDup (flat_map (distinct_companies vendor_df)
                            (category_keys vendor_df))) as Hnd.
    { apply (NoDup_incl_NoDup (NoDup_nodup string_dec (map Company vendor_df)));
        [unfold nunique in E; lia | apply per_category_incl]. }
    apply (NoDup_flat_map_key (distinct_companies vendor_df)
                              (category_keys vendor_df) _ _ (Company r1) Hnd).
    + apply category_keys_In. now apply in_map.
    + apply category_keys_In. now apply in_map.
    + apply distinct_In. eauto.
    + apply distinct_In. eauto.
  - intros Hone. apply Nat.le_antisymm.
    + unfold nunique. apply NoDup_incl_length; [|apply per_category_back].
      apply NoDup_flat_map.
      * apply KeyFacts.string_keys_NoDup.
      * intros c _. apply NoDup_nodup.
      * intros a b x _ _ Ha Hb.
        apply distinct_In in Ha as (r1 & H1 & <- & E1).
        apply distinct_In in Hb as (r2 & H2 & <- & E2).
        apply Hone; congruence.
    + rewrite per_category_sum. apply overall_le_per_category.
Qed.

End VendorsPerCategory.

(* ------------------------------------------------------------------ *)
(** ** The sorted views of the EDA script and of the dashboard *)

Lemma total_relabel (f : string -> string) (l : list (string * nat)) :
  total (map (fun p => (f (fst p), snd p)) l) = total l.
Proof. unfold total. now rewrite map_map. Qed.

Lemma Sorted_relabel (f : string -> string) (l : list (string * nat)) :
  Sorted (fun a b => snd b <= snd a) l ->
  Sorted (fun a b => snd b <= snd a) (map (fun p => (f (fst p), snd p)) l).
Proof.
  induction 1 as [|p l Hs IH Hd]; [constructor|].
  cbn [map]. constructor; [exact IH|].
  destruct Hd; constructor. assumption.
Qed.

Lemma NoDup_firstn {A} n (l : list A) : NoDup l -> NoDup (firstn n l).
Proof.
  intros H. rewrite <- (firstn_skipn n l) in H. now apply NoDup_app_remove_r in H.
Qed.

Section SortedCounts.

Variable argsort : list nat -> list nat.
Hypothesis argsort_ok : argsort_counts_spec argsort.

(** X14. BQ3 of the EDA script lists every category of the table once,
    under its label (the code itself when it has none), with the number
    of distinct companies of the category, by decreasing count. The
    total it prints is the sum of these counts: a company listed under
    several categories counts once in each, so the total is at least
    the number of distinct companies of the table, and equal to it
    exactly when no company is listed under two categories. *)
Theorem bq3_counts_vendors_per_category (vendor_df : table) :
  let res := bq3_vendor_distribution argsort vendor_df in
  (forall l n,
      In (l, n) (bq3_counts res)
      <-> exists c, In c (map Category vendor_df)
                    /\ l = get_category_label c
                    /\ n = category_count vendor_df c)
  /\ length (bq3_counts res) = nunique (map Category vendor_df)
  /\ Sorted (fun a b => snd b <= snd a) (bq3_counts res)
  /\ bq3_total res
     = list_sum (map (category_count vendor_df) (category_keys vendor_df))
  /\ nunique (map Company vendor_df) <= bq3_total res
  /\ (bq3_total res = nunique (map Company vendor_df)
      <-> one_category_each vendor_df).
Proof.
  intros res.
  assert (bq3_total res
          = list_sum (map (category_count vendor_df) (category_keys vendor_df)))
    as Htotal.
  { unfold res, bq3_vendor_distribution. cbn [bq3_total].
    rewrite total_relabel.
    rewrite (total_perm _ _ (sort_counts_perm argsort argsort_ok snd false _)).
    unfold total, groupby_nunique. rewrite map_map. reflexivity. }
  split; [|split; [|split; [|split; [|split]]]].
  - intros l n. unfold res, bq3_vendor_distribution. cbn [bq3_counts].
    rewrite in_map_iff. split.
    + intros ([c m] & [= <- <-] & H).
      apply (sort_counts_In argsort argsort_ok) in H.
      apply groupby_nunique_In in H as [Hc ->]. exists c. auto.
    + intros (c & Hc & -> & ->).
      exists (c, category_count vendor_df c). split; [reflexivity|].
      apply (sort_counts_In argsort argsort_ok). now apply groupby_nunique_In.
  - unfold res, bq3_vendor_distribution. cbn [bq3_counts].
    rewrite length_map, (sort_counts_length argsort argsort_ok).
    unfold groupby_nunique. rewrite length_map. apply keys_length.
  - unfold res, bq3_vendor_distribution. cbn [bq3_counts].
    apply Sorted_relabel. apply (sort_counts_decreasing argsort argsort_ok).
  - exact Htotal.
  - rewrite Htotal. apply overall_le_per_category.
  - rewrite Htotal. apply overall_eq_per_category.
Qed.

(** X15. BQ4 lists at most 25 contract codes, each of at most 15
    characters and each once, with the number of distinct companies
    under the code (at least 1), by decreasing count; no code left out
    for the limit of 25 has a larger count than a listed one. The chart
    of the dashboard holds the first 20 of them. *)
Theorem bq4_top_contract_codes (vendor_df : table) :
  let top := bq4_contract_subcategories argsort vendor_df in
  length top <= 25
  /\ Sorted (fun a b => snd b <= snd a) top
  /\ NoDup (map fst top)
  /\ (forall code n,
        In (code, n) top ->
        String.length code <= 15 /\ 1 <= n
        /\ In code (map Contract_Code vendor_df)
        /\ n = nunique (map Company
                            (filter (fun r => String.eqb (Contract_Code r) code)
                                    vendor_df)))
  /\ (forall code n,
        In (code, n) (groupby_nunique Contract_Code Company vendor_df) ->
        String.length code <= 15 -> ~ In (code, n) top ->
        forall p, In p top -> n <= snd p)
  /\ make_bq4_chart argsort (map labelled vendor_df) = firstn 20 top.
Proof.
  intros top. unfold top, bq4_contract_subcategories, head.
  set (codes := filter (fun p => (String.length (fst p) <=? 15)%nat)
                       (groupby_nunique Contract_Code Company vendor_df)).
  set (sorted := sort_counts argsort snd false codes).
  assert (Sorted (fun a b : string * nat => snd b <= snd a) sorted) as Hs
    by apply (sort_counts_decreasing argsort argsort_ok).
  split; [|split; [|split; [|split; [|split]]]].
  - apply firstn_le_length.
  - now apply Sorted_firstn.
  - rewrite <- firstn_map. apply NoDup_firstn.
    apply (Permutation_NoDup
             (Permutation_sym
                (Permutation_map fst (sort_counts_perm argsort argsort_ok snd false codes)))).
    unfold codes.
    rewrite <- (filter_map_swap fst (fun c => (String.length c <=? 15)%nat)).
    apply NoDup_filter. rewrite groupby_nunique_keys.
    apply KeyFacts.string_keys_NoDup.
  - intros code n H. apply In_firstn in H.
    apply (sort_counts_In argsort argsort_ok) in H.
    apply filter_In in H as [H L]. cbn [fst] in L. apply Nat.leb_le in L.
    pose proof (groupby_nunique_positive _ _ _ _ _ H) as P.
    apply groupby_nunique_In in H as [Hc ->]. auto.
  - intros code n H L Hout p Hp.
    assert (In (code, n) sorted) as Hin.
    { apply (sort_counts_In argsort argsort_ok). apply filter_In.
      split; [exact H|]. now apply Nat.leb_le. }
    rewrite <- (firstn_skipn 25 sorted) in Hin.
    apply in_app_or in Hin as [Hin|Hin]; [contradiction|].
    exact (head_dominates snd 25 sorted Hs p (code, n) Hp Hin).
  - unfold make_bq4_chart, head.
    rewrite (groupby_nunique_map labelled).
    change (groupby_nunique (fun a => Contract_Code (base (labelled a)))
                            (fun a => Company (base (labelled a))) vendor_df)
      with (groupby_nunique Contract_Code Company vendor_df).
    fold codes. fold sorted. now rewrite firstn_firstn.
Qed.

(** X16. BQ10 counts, for every company with a row in an IT category,
    its distinct contract codes, by decreasing count. The first ten and
    the rest add up to the total; what the EDA script gets by
    subtraction is what the dashboard sums from the eleventh count on,
    and is not negative; no company outside the first ten holds more
    contracts than one inside. The number written in the label of the
    last wedge is the number of companies minus ten in both: negative
    when fewer than ten companies exist. *)
Theorem bq10_concentration (vendor_df : table) :
  let res := bq10_it_vendor_concentration argsort vendor_df in
  let dash := make_bq10_chart argsort (map labelled vendor_df) in
  (forall company n,
      In (company, n) (company_contracts res)
      <-> (exists r, In r vendor_df /\ In (Category r) IT_CATEGORIES
                     /\ Company r = company)
          /\ n = nunique (map Contract_Code
                              (filter (fun r => String.eqb (Company r) company)
                                      (filter (fun r => isin IT_CATEGORIES (Category r))
                                              vendor_df))))
  /\ Sorted (fun a b => snd b <= snd a) (company_contracts res)
  /\ top10 res = firstn 10 (company_contracts res)
  /\ length (top10 res) = Nat.min 10 (length (company_contracts res))
  /\ (forall a b, In a (top10 res) -> In b (skipn 10 (company_contracts res)) ->
                  snd b <= snd a)
  /\ total (top10 res) + d10_rest dash = total_contracts res
  /\ rest res = Z.of_nat (d10_rest dash)
  /\ d10_top10 dash = top10 res
  /\ d10_other_companies dash = other_companies res
  /\ ((other_companies res < 0)%Z <-> length (company_contracts res) < 10).
Proof.
  intros res dash.
  set (it_df := filter (fun r => isin IT_CATEGORIES (Category r)) vendor_df).
  set (sorted := sort_counts argsort snd false
                             (groupby_nunique Company Contract_Code it_df)).
  assert (company_contracts res = sorted) as Hcc by reflexivity.
  assert (Sorted (fun a b : string * nat => snd b <= snd a) sorted) as Hs
    by apply (sort_counts_decreasing argsort argsort_ok).
  assert (sort_counts argsort snd false
            (groupby_nunique (fun r => Company (base r))
                             (fun r => Contract_Code (base r))
                             (filter (fun r => isin IT_CATEGORIES (Category (base r)))
                                     (map labelled vendor_df)))
          = sorted) as Hdash.
  { unfold sorted, it_df. rewrite filter_map_swap.
    now rewrite (groupby_nunique_map labelled). }
  assert (d10_top10 dash = firstn 10 sorted) as Hd1
    by (unfold dash, make_bq10_chart, head; cbn [d10_top10]; now rewrite Hdash).
  assert (d10_rest dash = total (skipn 10 sorted)) as Hd2
    by (unfold dash, make_bq10_chart; cbn [d10_rest]; now rewrite Hdash).
  assert (d10_other_companies dash = (Z.of_nat (length sorted) - 10)%Z) as Hd3
    by (unfold dash, make_bq10_chart; cbn [d10_other_companies]; now rewrite Hdash).
  assert (total (firstn 10 sorted) + total (skipn 10 sorted) = total sorted) as Hsum
    by (rewrite <- total_app; now rewrite firstn_skipn).
  rewrite Hcc.
  change (top10 res) with (firstn 10 sorted).
  change (total_contracts res) with (total sorted).
  change (rest res)
    with (Z.of_nat (total sorted) - Z.of_nat (total (firstn 10 sorted)))%Z.
  change (other_companies res) with (Z.of_nat (length sorted) - 10)%Z.
  rewrite Hd1, Hd2, Hd3.
  split; [|split; [|split; [|split; [|split; [|split; [|split; [|split; [|split]]]]]]]].
  - intros company n. unfold sorted.
    rewrite (sort_counts_In argsort argsort_ok), groupby_nunique_In.
    fold it_df. split; intros [H ->]; (split; [|reflexivity]).
    + apply in_map_iff in H as (r & <- & Hr). unfold it_df in Hr.
      apply filter_In in Hr as [Hr Hc]. apply isin_In in Hc. eauto.
    + destruct H as (r & Hr & Hc & <-). apply in_map. unfold it_df.
      apply filter_In. split; [exact Hr | now apply isin_In].
  - exact Hs.
  - reflexivity.
  - apply length_firstn.
  - intros a b. now apply head_dominates.
  - exact Hsum.
  - lia.
  - reflexivity.
  - reflexivity.
  - lia.
Qed.

End SortedCounts.

Lemma bq3_counts_vendors_per_category_witness :
  argsort_counts_spec insertion_argsort_counts
  /\ nunique (map Company shared_vendor_table)
     <= bq3_total (bq3_vendor_distribution insertion_argsort_counts
                                           shared_vendor_table).
Proof.
  split; [exact CountInsertion.counts_meet_contract|].
  exact (proj1 (proj2 (proj2 (proj2 (proj2
           (bq3_counts_vendors_per_category insertion_argsort_counts
              CountInsertion.counts_meet_contract shared_vendor_table)))))).
Defined.

Lemma bq4_top_contract_codes_witness :
  argsort_counts_spec insertion_argsort_counts
  /\ length (bq4_contract_subcategories insertion_argsort_counts
                                        shared_vendor_table) <= 25.
Proof.
  split; [exact CountInsertion.counts_meet_contract|].
  exact (proj1 (bq4_top_contract_codes insertion_argsort_counts
                  CountInsertion.counts_meet_contract shared_vendor_table)).
Defined.

Lemma bq10_concentration_witness :
  argsort_counts_spec insertion_argsort_counts
  /\ (other_companies (bq10_it_vendor_concentration insertion_argsort_counts
                                                     shared_vendor_table) < 0)%Z.
Proof.
  split; [exact CountInsertion.counts_meet_contract|].
  apply (proj2 (proj2 (proj2 (proj2 (proj2 (proj2 (proj2 (proj2 (proj2
           (bq10_concentration insertion_argsort_counts
              CountInsertion.counts_meet_contract shared_vendor_table)))))))))).
  vm_compute. lia.
Defined.
(* ------------------------------------------------------------------ *)
(** ** Types and pairs as group keys *)

Module TypeKeys.

Lemma type_name_inj a b : type_name a = type_name b -> a = b.
Proof. destruct a, b; try reflexivity; discriminate. Qed.

Lemma type_eqb_eq a b : type_eqb a b = true <-> a = b.
Proof.
  unfold type_eqb. rewrite String.eqb_eq. split; [apply type_name_inj | now intros ->].
Qed.

Lemma type_compare_eq a b : type_compare a b = Eq -> a = b.
Proof. intros H. apply type_name_inj. now apply String.compare_eq_iff. Qed.

Lemma type_compare_gt_lt a b : type_compare a b = Gt -> type_compare b a = Lt.
Proof. apply KeyFacts.string_compare_gt_lt. Qed.

Lemma type_compare_lt_trans a b c :
  type_compare a b = Lt -> type_compare b c = Lt -> type_compare a c = Lt.
Proof. apply KeyFacts.string_compare_lt_trans. Qed.

Lemma type_compare_irrefl a : type_compare a a <> Lt.
Proof. apply KeyFacts.string_compare_irrefl. Qed.

Lemma type_keys_NoDup column : NoDup (group_keys type_compare column).
Proof.
  apply KeyFacts.group_keys_NoDup;
    [exact type_compare_eq | exact type_compare_gt_lt | exact type_compare_lt_trans
     | exact type_compare_irrefl].
Qed.

Lemma type_keys_sorted column :
  StronglySorted (fun a b => type_compare a b = Lt) (group_keys type_compare column).
Proof.
  apply KeyFacts.group_keys_sorted;
    [exact type_compare_eq | exact type_compare_gt_lt | exact type_compare_lt_trans].
Qed.

Lemma type_keys_In x column : In x (group_keys type_compare column) <-> In x column.
Proof. apply group_keys_In. exact type_compare_eq. Qed.

Lemma column_position_Some t columns j :
  column_position t columns = Some j -> nth_error columns j = Some t.
Proof.
  revert j. induction columns as [|c columns IH]; intros j; cbn [column_position];
    [discriminate|].
  destruct (type_eqb c t) eqn:E.
  - apply type_eqb_eq in E. intros [= <-]. now rewrite E.
  - destruct (column_position t columns) as [k|]; cbn [option_map]; [|discriminate].
    intros [= <-]. cbn [nth_error]. now apply IH.
Qed.

Lemma column_position_None t columns :
  column_position t columns = None <-> ~ In t columns.
Proof.
  split.
  - induction columns as [|c columns IH]; cbn [column_position In]; [tauto|].
    destruct (type_eqb c t) eqn:E; [discriminate|].
    assert (c <> t) as N by (intros H; apply type_eqb_eq in H; congruence).
    destruct (column_position t columns); cbn [option_map]; [discriminate|].
    intros _ [H|H]; [contradiction | now apply IH].
  - intros H. destruct (column_position t columns) as [j|] eqn:E; [|reflexivity].
    apply column_position_Some, nth_error_In in E. contradiction.
Qed.

End TypeKeys.

(* ------------------------------------------------------------------ *)
(** ** The pivot of industries and types *)

Lemma cat_column_Raise {B} (cat_df : list categorized_row)
      (col : categorized_row -> B) e :
  cat_column cat_df col = Raise e <-> e = KeyMissing /\ cat_df = [].
Proof.
  destruct cat_df as [|r t]; cbn [cat_column].
  - split; [intros [= <-]; auto | intros [-> _]; reflexivity].
  - split; [discriminate | intros [_ H]; discriminate H].
Qed.

Lemma empty_or_not {A} (l : list A) : l = [] \/ l <> [].
Proof. destruct l; [now left | right; discriminate]. Qed.

Lemma cat_column_ok {B} (cat_df : list categorized_row)
      (col : categorized_row -> B) :
  cat_df <> [] -> cat_column cat_df col = Ok (map col cat_df).
Proof. destruct cat_df; [congruence | reflexivity]. Qed.

Lemma pivot_ok (cat_df : list categorized_row) :
  cat_df <> [] ->
  industry_type_pivot cat_df
  = Ok {| pivot_columns := group_keys type_compare (map Type_ cat_df);
          pivot_lines :=
            map (fun i => (i, map (fun t => length (cell_rows cat_df i t))
                                  (group_keys type_compare (map Type_ cat_df))))
                (group_keys String.compare (map Industry cat_df)) |}.
Proof.
  intros H. unfold industry_type_pivot. now rewrite (cat_column_ok _ _ H).
Qed.

Lemma sizes_ok (cat_df : list categorized_row) :
  cat_df <> [] ->
  industry_type_sizes cat_df
  = Ok (map (fun k =>
               {| sz_Industry := fst k;
                  sz_Type := snd k;
                  sz_Count :=
                    length (filter (fun r => pair_eqb (Industry r, type_name (Type_ r)) k)
                                   cat_df) |})
            (group_keys pair_compare
                        (map (fun r => (Industry r, type_name (Type_ r))) cat_df))).
Proof.
  intros H. unfold industry_type_sizes. now rewrite (cat_column_ok _ _ H).
Qed.

Lemma cell_rows_filter cat_df i t :
  cell_rows cat_df i t
  = filter (fun r => type_eqb (Type_ r) t)
           (filter (fun r => String.eqb (Industry r) i) cat_df).
Proof. unfold cell_rows. now rewrite filter_filter. Qed.

Lemma line_total cat_df i :
  list_sum (map (fun t => length (cell_rows cat_df i t))
                (group_keys type_compare (map Type_ cat_df)))
  = length (filter (fun r => String.eqb (Industry r) i) cat_df).
Proof.
  rewrite <- (group_sizes_total Type_ type_eqb TypeKeys.type_eqb_eq
                (filter (fun r => String.eqb (Industry r) i) cat_df)
                (group_keys type_compare (map Type_ cat_df))).
  - f_equal. apply map_ext. intros t. now rewrite cell_rows_filter.
  - apply TypeKeys.type_keys_NoDup.
  - intros r Hr. apply filter_In in Hr as [Hr _].
    apply TypeKeys.type_keys_In. now apply in_map.
Qed.

Lemma pivot_lines_total cat_df :
  list_sum (map (fun line : string * list nat => list_sum (snd line))
                (map (fun i => (i, map (fun t => length (cell_rows cat_df i t))
                                       (group_keys type_compare (map Type_ cat_df))))
                     (group_keys String.compare (map Industry cat_df))))
  = length cat_df.
Proof.
  rewrite map_map. cbn [snd].
  rewrite (map_ext _ (fun i => length (filter (fun r => String.eqb (Industry r) i) cat_df)))
    by (intros i; apply line_total).
  apply (group_sizes_total Industry String.eqb string_eqb_eq).
  - apply KeyFacts.string_keys_NoDup.
  - intros r Hr. apply KeyFacts.string_keys_In. now apply in_map.
Qed.

(** X17. The pivot of BQ9 (EDA script and dashboard) and the long frame
    of the dashboard's BQ5 count every record once. On a frame without
    records all three raise [KeyError]. Otherwise the pivot has one
    column per type that occurs and one line per industry, both in
    increasing order, each cell holding the number of records of its
    industry and type, and the cells add up to the number of records;
    the long frame has one row per pair of an industry and a type that
    occurs, each pair once and the pairs in increasing order, with the
    same count, which is at least 1, and its counts add up to the
    number of records too. *)
Theorem pivot_counts_every_record (cat_df : list categorized_row) :
  make_bq9_chart cat_df = bq9_industry_diversity_heatmap cat_df
  /\ (forall e, bq9_industry_diversity_heatmap cat_df = Raise e
                <-> e = KeyMissing /\ cat_df = [])
  /\ (forall e, make_bq5_chart cat_df = Raise e <-> e = KeyMissing /\ cat_df = [])
  /\ (forall p,
        bq9_industry_diversity_heatmap cat_df = Ok p ->
        (forall t, In t (pivot_columns p) <-> In t (map Type_ cat_df))
        /\ StronglySorted (fun a b => type_compare a b = Lt) (pivot_columns p)
        /\ (forall i, In i (map fst (pivot_lines p)) <-> In i (map Industry cat_df))
        /\ StronglySorted (fun a b => String.compare a b = Lt)
                          (map fst (pivot_lines p))
        /\ (forall i counts,
              In (i, counts) (pivot_lines p) ->
              counts = map (fun t => length (cell_rows cat_df i t)) (pivot_columns p))
        /\ pivot_total p = length cat_df)
  /\ (forall rows,
        make_bq5_chart cat_df = Ok rows ->
        StronglySorted (fun a b => pair_compare a b = Lt)
                       (map (fun r => (sz_Industry r, sz_Type r)) rows)
        /\ NoDup (map (fun r => (sz_Industry r, sz_Type r)) rows)
        /\ (forall i t,
              In (i, type_name t) (map (fun r => (sz_Industry r, sz_Type r)) rows)
              <-> exists r, In r cat_df /\ Industry r = i /\ Type_ r = t)
        /\ Forall (fun r => 1 <= sz_Count r
                            /\ exists t, sz_Type r = type_name t
                                         /\ sz_Count r
                                            = length (cell_rows cat_df (sz_Industry r) t))
                  rows
        /\ list_sum (map sz_Count rows) = length cat_df).
Proof.
  unfold make_bq9_chart, bq9_industry_diversity_heatmap, make_bq5_chart.
  split; [reflexivity|]. destruct (empty_or_not cat_df) as [->|Hne].
  { split; [|split; [|split]]; try discriminate;
      intros e; (split; [intros [= <-]; auto | intros [-> _]; reflexivity]). }
  rewrite (pivot_ok cat_df Hne), (sizes_ok cat_df Hne).
  split; [|split; [|split]];
    try (intros e; split; [discriminate | intros [_ H]; contradiction]).
  - intros p [= <-]. cbn [pivot_columns pivot_lines].
    assert (map fst
                (map (fun i => (i, map (fun t => length (cell_rows cat_df i t))
                                       (group_keys type_compare (map Type_ cat_df))))
                     (group_keys String.compare (map Industry cat_df)))
            = group_keys String.compare (map Industry cat_df)) as Hfst
      by (rewrite map_map; cbn [fst]; apply map_id).
    split; [|split; [|split; [|split; [|split]]]].
    + intros t. apply TypeKeys.type_keys_In.
    + apply TypeKeys.type_keys_sorted.
    + intros i. rewrite Hfst. apply KeyFacts.string_keys_In.
    + rewrite Hfst. apply KeyFacts.string_keys_sorted.
    + intros i counts H. apply in_map_iff in H as (i' & [= <- <-] & _). reflexivity.
    + unfold pivot_total. cbn [pivot_lines]. apply pivot_lines_total.
  - intros rows [= <-].
    assert (map (fun r => (sz_Industry r, sz_Type r))
                (map (fun k =>
                        {| sz_Industry := fst k;
                           sz_Type := snd k;
                           sz_Count :=
                             length (filter (fun r => pair_eqb (Industry r,
                                                                type_name (Type_ r)) k)
                                            cat_df) |})
                     (group_keys pair_compare
                        (map (fun r => (Industry r, type_name (Type_ r))) cat_df)))
            = group_keys pair_compare
                (map (fun r => (Industry r, type_name (Type_ r))) cat_df)) as Hkeys.
    { rewrite map_map. cbn [sz_Industry sz_Type].
      rewrite <- (map_id (group_keys pair_compare _)) at 2.
      apply map_ext. now intros [i t]. }
    rewrite Hkeys.
    split; [apply PairKeys.pair_keys_sorted|].
    split; [apply PairKeys.pair_keys_NoDup|].
    split; [|split].
    + intros i t. rewrite PairKeys.pair_keys_In, in_map_iff. split.
      * intros (r & [= <- E] & Hr). apply TypeKeys.type_name_inj in E.
        exists r. auto.
      * intros (r & Hr & <- & <-). exists r. auto.
    + apply Forall_forall. intros r Hr. apply in_map_iff in Hr as (k & <- & Hk).
      cbn [sz_Industry sz_Type sz_Count].
      apply (proj1 (PairKeys.pair_keys_In _ _)) in Hk.
      apply in_map_iff in Hk as (r1 & <- & Hr1). cbn [fst snd]. split.
      * assert (In r1 (filter (fun r => pair_eqb (Industry r, type_name (Type_ r))
                                                 (Industry r1, type_name (Type_ r1)))
                              cat_df)) as Hin.
        { apply filter_In. split; [exact Hr1|]. now apply pair_eqb_eq. }
        destruct (filter _ cat_df); [contradiction | cbn [length]; lia].
      * exists (Type_ r1). split; reflexivity.
    + rewrite map_map. cbn [sz_Count].
      apply (group_sizes_total (fun r => (Industry r, type_name (Type_ r)))
                               pair_eqb pair_eqb_eq).
      * apply PairKeys.pair_keys_NoDup.
      * intros r Hr. apply PairKeys.pair_keys_In.
        apply (in_map (fun r => (Industry r, type_name (Type_ r)))). exact Hr.
Qed.

Lemma existsb_national cat_df :
  existsb national cat_df = false <-> ~ In NationalAndLocal (map Type_ cat_df).
Proof.
  split.
  - intros H Hin. apply in_map_iff in Hin as (r & E & Hr).
    assert (existsb national cat_df = true) as T.
    { apply existsb_exists. exists r. split; [exact Hr|].
      unfold national. now apply TypeKeys.type_eqb_eq. }
    congruence.
  - intros H. destruct (existsb national cat_df) eqn:E; [|reflexivity].
    apply existsb_exists in E as (r & Hr & N). unfold national in N.
    apply TypeKeys.type_eqb_eq in N. exfalso. apply H.
    apply in_map_iff. now exists r.
Qed.

Lemma bq5_raise (argsort : list nat -> list nat) (cat_df : list categorized_row) e :
  bq5_national_vs_local argsort cat_df = Raise e
  <-> e = KeyMissing /\ existsb national cat_df = false.
Proof.
  unfold bq5_national_vs_local. destruct (empty_or_not cat_df) as [->|Hne].
  { cbn [industry_type_pivot cat_column bind].
    split; [intros [= <-]; auto | intros [-> _]; reflexivity]. }
  rewrite (pivot_ok cat_df Hne). cbn [bind pivot_columns pivot_lines].
  destruct (column_position NationalAndLocal
                            (group_keys type_compare (map Type_ cat_df)))
    as [j|] eqn:E.
  - split; [discriminate|]. intros [_ H]. exfalso.
    apply existsb_national in H. apply H. apply TypeKeys.type_keys_In.
    apply TypeKeys.column_position_Some in E. now apply nth_error_In in E.
  - split.
    + intros [= <-]. split; [reflexivity|]. apply existsb_national.
      apply TypeKeys.column_position_None in E. intros H. apply E.
      now apply TypeKeys.type_keys_In.
    + intros [-> _]. reflexivity.
Qed.

Section SortedIndustries.

Variable argsort : list nat -> list nat.
Hypothesis argsort_ok : argsort_counts_spec argsort.

(** X18. BQ5 of the EDA script raises [KeyError] exactly when no record
    has the type National & Local (the frame without records
    included): the pivot then has no column to sort by. Otherwise it
    returns the lines of the pivot of BQ9, reordered by increasing
    count of that column. *)
Theorem bq5_needs_a_national_company (cat_df : list categorized_row) :
  (forall e, bq5_national_vs_local argsort cat_df = Raise e
             <-> e = KeyMissing /\ existsb national cat_df = false)
  /\ (forall p,
        bq5_national_vs_local argsort cat_df = Ok p ->
        exists q j,
          bq9_industry_diversity_heatmap cat_df = Ok q
          /\ pivot_columns p = pivot_columns q
          /\ nth_error (pivot_columns p) j = Some NationalAndLocal
          /\ Permutation (pivot_lines p) (pivot_lines q)
          /\ Sorted (fun a b => nth j (snd a) 0 <= nth j (snd b) 0) (pivot_lines p)).
Proof.
  split; [intros e; apply bq5_raise|].
  unfold bq5_national_vs_local, bq9_industry_diversity_heatmap.
  destruct (empty_or_not cat_df) as [->|Hne]; [discriminate|].
  rewrite (pivot_ok cat_df Hne). cbn [bind pivot_columns pivot_lines].
  destruct (column_position NationalAndLocal
                            (group_keys type_compare (map Type_ cat_df)))
    as [j|] eqn:E; [|discriminate].
  intros p [= <-]. cbn [pivot_columns pivot_lines].
  eexists. exists j. split; [reflexivity|]. cbn [pivot_columns pivot_lines].
  split; [reflexivity|]. split; [now apply TypeKeys.column_position_Some|].
  split.
  - apply (sort_counts_perm argsort argsort_ok).
  - apply (sort_counts_increasing argsort argsort_ok
             (fun line : string * list nat => nth j (snd line) 0)).
Qed.

(** X19. BQ11 of the report raises [KeyError] on a frame without records
    (the one the loader of the report returns when no company is found)
    and on no other. Otherwise it lists every industry once with the
    number of its distinct companies (at least 1), by increasing count;
    a company listed under several types of an industry counts once, so
    the counts add up to at most the number of records. *)
Theorem sector_analysis_counts (cat_df : list categorized_row) :
  (forall e, generate_sector_analysis argsort cat_df = Raise e
             <-> e = KeyMissing /\ cat_df = [])
  /\ (forall counts,
        generate_sector_analysis argsort cat_df = Ok counts ->
        (forall i n,
            In (i, n) counts
            <-> In i (map Industry cat_df)
                /\ n = nunique (map Cat_Company
                                    (filter (fun r => String.eqb (Industry r) i)
                                            cat_df)))
        /\ NoDup (map fst counts)
        /\ Forall (fun p => 1 <= snd p) counts
        /\ Sorted (fun a b => snd a <= snd b) counts
        /\ total counts <= length cat_df).
Proof.
  unfold generate_sector_analysis. destruct (empty_or_not cat_df) as [->|Hne].
  { cbn [cat_column bind]. split; [|discriminate].
    intros e. split; [intros [= <-]; auto | intros [-> _]; reflexivity]. }
  rewrite (cat_column_ok cat_df Industry Hne). cbn [bind].
  split; [intros e; split; [discriminate | intros [_ H]; contradiction]|].
  intros counts [= <-].
  pose proof (sort_counts_perm argsort argsort_ok snd true
                (groupby_nunique Industry Cat_Company cat_df)) as P.
  split; [|split; [|split; [|split]]].
  - intros i n. rewrite (sort_counts_In argsort argsort_ok).
    apply groupby_nunique_In.
  - apply (Permutation_NoDup (Permutation_sym (Permutation_map fst P))).
    rewrite groupby_nunique_keys. apply KeyFacts.string_keys_NoDup.
  - apply Forall_forall. intros [i n] H.
    apply (sort_counts_In argsort argsort_ok) in H. cbn [snd].
    now apply groupby_nunique_positive in H.
  - apply (sort_counts_increasing argsort argsort_ok).
  - rewrite (total_perm _ _ P). apply groupby_nunique_total.
Qed.

End SortedIndustries.

Lemma bq5_needs_a_national_company_witness :
  argsort_counts_spec insertion_argsort_counts
  /\ bq5_national_vs_local insertion_argsort_counts local_only_table
     = Raise KeyMissing.
Proof.
  split; [exact CountInsertion.counts_meet_contract|].
  apply (proj1 (bq5_needs_a_national_company insertion_argsort_counts
                  CountInsertion.counts_meet_contract local_only_table)).
  split; reflexivity.
Defined.

Lemma sector_analysis_counts_witness :
  argsort_counts_spec insertion_argsort_counts
  /\ generate_sector_analysis insertion_argsort_counts []
     = Raise KeyMissing.
Proof.
  split; [exact CountInsertion.counts_meet_contract|].
  apply (proj1 (sector_analysis_counts insertion_argsort_counts
                  CountInsertion.counts_meet_contract [])).
  split; reflexivity.
Defined.

(** X24. On the frame the loader of the EDA script returns, BQ5 raises
    [KeyError] exactly when no sheet of the workbook lists a company in
    its column 1: when from the row 2 on every cell of that column is
    missing, or holds a text that is empty or "nan" once trimmed. *)
Theorem eda_bq5_fails_without_national_column
        (float_str : float -> string) (argsort : list nat -> list nat)
        (sheets : list sheet) (cat_df : list categorized_row) :
  Eda.load_categorized_companies float_str (Workbook sheets) = Ok cat_df ->
  (bq5_national_vs_local argsort cat_df = Raise KeyMissing
   <-> forall s cells,
         In s sheets -> In cells (skipn 2 (rows s)) ->
         isna (nth 1 cells CNaN) = false ->
         keep_company (Str.strip (py_str float_str (nth 1 cells CNaN))) = false).
Proof.
  intros H.
  assert (cat_df = flat_map (cat_rows float_str) sheets) as ->.
  { rewrite eda_cat_load_eq in H. destruct (existsb short sheets); [discriminate|].
    destruct (flat_map (cat_rows float_str) sheets); [discriminate|].
    now injection H. }
  rewrite bq5_raise. split.
  - intros [_ N] s cells Hs Hc Hna.
    destruct (keep_company (Str.strip (py_str float_str (nth 1 cells CNaN))))
      eqn:K; [|reflexivity].
    exfalso. apply existsb_national in N. apply N. apply in_map_iff.
    exists {| Industry := Str.strip (sheet_name s);
              Cat_Company := Str.strip (py_str float_str (nth 1 cells CNaN));
              Type_ := NationalAndLocal |}.
    split; [reflexivity|]. apply in_flat_map. exists s. split; [exact Hs|].
    apply cat_rows_In. exists cells, 1. cbn [Type_ Industry Cat_Company buckets In].
    auto 10.
  - intros Hno. split; [reflexivity|]. apply existsb_national. intros Hin.
    apply in_map_iff in Hin as (r & T & Hr).
    apply in_flat_map in Hr as (s & Hs & Hr).
    apply cat_rows_In in Hr as (cells & c & Hc & B & Hna & K & _ & E).
    rewrite T in B. cbn [buckets In] in B.
    destruct B as [B|[B|[B|[]]]]; try discriminate B. injection B as <-.
    rewrite E in K. rewrite (Hno s cells Hs Hc Hna) in K. discriminate K.
Qed.

Lemma eda_bq5_fails_without_national_column_witness :
  Eda.load_categorized_companies no_float_str (Workbook local_only_sheets)
  = Ok local_only_table
  /\ bq5_national_vs_local insertion_argsort_counts local_only_table
     = Raise KeyMissing.
Proof.
  assert (Eda.load_categorized_companies no_float_str (Workbook local_only_sheets)
          = Ok local_only_table) as L by (vm_compute; reflexivity).
  split; [exact L|].
  apply (proj2 (eda_bq5_fails_without_national_column
                  no_float_str insertion_argsort_counts
                  local_only_sheets local_only_table L)).
  intros s cells [<-|[]] [<-|[]] N. discriminate N.
Defined.
(* ------------------------------------------------------------------ *)
(** ** Labels *)

Module LabelFacts.

Ltac split_code c :=
  repeat match goal with
         | |- context [String.eqb c ?k] =>
             destruct (String.eqb_spec c k); [subst c|]
         end.

(** Two codes with the same label are the same code. *)
Lemma label_inj c c' l :
  dict_get CATEGORY_NAMES c = Some l -> dict_get CATEGORY_NAMES c' = Some l -> c = c'.
Proof.
  unfold CATEGORY_NAMES. cbn [dict_get].
  split_code c; intros [= <-]; split_code c'; intros H;
    try reflexivity; discriminate H.
Qed.

Lemma get_category_label_known c l :
  dict_get CATEGORY_NAMES c = Some l -> get_category_label c = l.
Proof. unfold get_category_label. now intros ->. Qed.

Lemma get_category_label_unknown c :
  dict_get CATEGORY_NAMES c = None -> get_category_label c = c.
Proof. unfold get_category_label. now intros ->. Qed.

End LabelFacts.

(* ------------------------------------------------------------------ *)
(** ** Groups under a key that can be missing *)

Lemma groupby_nunique_opt_In {A} (key : A -> option string) (col : A -> string)
      (df : list A) k n :
  In (k, n) (groupby_nunique_opt key col df)
  <-> In (Some k) (map key df)
      /\ n = nunique (map col (filter (keyed key k) df)).
Proof.
  unfold groupby_nunique_opt. rewrite in_map_iff. split.
  - intros (k' & [= <- <-] & Hk).
    apply (proj1 (KeyFacts.string_keys_In _ _)) in Hk.
    apply present_In in Hk. auto.
  - intros [Hk ->]. exists k. split; [reflexivity|].
    apply KeyFacts.string_keys_In. now apply present_In.
Qed.

Lemma list_sum_filter_le {A} (f : A -> nat) (p : A -> bool) (l : list A) :
  list_sum (map f (filter p l)) <= list_sum (map f l).
Proof.
  induction l as [|a l IH]; [reflexivity|].
  cbn [filter map]. destruct (p a); cbn [map]; rewrite ?list_sum_cons; lia.
Qed.

Lemma list_sum_filter_eq {A} (f : A -> nat) (p : A -> bool) (l : list A) :
  (forall a, In a l -> 1 <= f a) ->
  list_sum (map f (filter p l)) = list_sum (map f l)
  <-> forall a, In a l -> p a = true.
Proof.
  induction l as [|a l IH]; intros Hpos; [cbn; tauto|].
  assert (forall b, In b l -> 1 <= f b) as Hpos' by (intros b Hb; apply Hpos; now right).
  specialize (IH Hpos').
  pose proof (list_sum_filter_le f p l) as Hle.
  pose proof (Hpos a (or_introl eq_refl)) as Ha.
  cbn [filter map]. destruct (p a) eqn:E; cbn [map]; rewrite ?list_sum_cons.
  - split.
    + intros H b [<-|Hb]; [exact E|]. apply IH; [lia | exact Hb].
    + intros H. f_equal. apply IH. intros b Hb. apply H. now right.
  - split; [lia|]. intros H. specialize (H a (or_introl eq_refl)). congruence.
Qed.

Section LabelGroups.

Variable vendor_df : table.

Lemma label_of_row l :
  In (Some l) (map Category_Label (map labelled vendor_df))
  <-> exists c, In c (map Category vendor_df) /\ dict_get CATEGORY_NAMES c = Some l.
Proof.
  rewrite map_map. cbn [labelled Category_Label]. rewrite in_map_iff. split.
  - intros (r & E & Hr). exists (Category r). split; [now apply in_map | exact E].
  - intros (c & Hc & E). apply in_map_iff in Hc as (r & <- & Hr). now exists r.
Qed.

Lemma group_of_label c l :
  dict_get CATEGORY_NAMES c = Some l -> label_count vendor_df l = category_count vendor_df c.
Proof.
  intros E. unfold label_count, category_count, companies_of.
  rewrite filter_map_swap, map_map. cbn [labelled base]. do 2 f_equal.
  apply filter_ext. intros r. unfold keyed. cbn [labelled Category_Label].
  destruct (dict_get CATEGORY_NAMES (Category r)) as [l'|] eqn:E'.
  - destruct (String.eqb_spec l' l) as [Hl|N], (String.eqb_spec (Category r) c)
      as [Hc|N']; try reflexivity.
    + exfalso. apply N'. subst l'. exact (LabelFacts.label_inj _ _ _ E' E).
    + exfalso. apply N. rewrite Hc in E'. congruence.
  - destruct (String.eqb_spec (Category r) c) as [Hc|N']; [|reflexivity].
    rewrite Hc in E'. congruence.
Qed.

Lemma label_keys_perm :
  Permutation (label_keys vendor_df)
              (map get_category_label (filter has_label (category_keys vendor_df))).
Proof.
  apply NoDup_Permutation.
  - apply KeyFacts.string_keys_NoDup.
  - apply NoDup_map_NoDup_ForallPairs.
    + intros a b Ha Hb E.
      apply filter_In in Ha as [_ Ha]. apply filter_In in Hb as [_ Hb].
      unfold has_label in Ha, Hb.
      destruct (dict_get CATEGORY_NAMES a) as [la|] eqn:Ea; [|discriminate].
      destruct (dict_get CATEGORY_NAMES b) as [lb|] eqn:Eb; [|discriminate].
      rewrite (LabelFacts.get_category_label_known _ _ Ea),
        (LabelFacts.get_category_label_known _ _ Eb) in E. subst lb.
      exact (LabelFacts.label_inj _ _ _ Ea Eb).
    + apply NoDup_filter, KeyFacts.string_keys_NoDup.
  - intros l. unfold label_keys.
    rewrite KeyFacts.string_keys_In, present_In, label_of_row.
    rewrite in_map_iff. split.
    + intros (c & Hc & E). exists c. split.
      * now apply LabelFacts.get_category_label_known.
      * apply filter_In. split; [now apply KeyFacts.string_keys_In|].
        unfold has_label. now rewrite E.
    + intros (c & E & Hc). apply filter_In in Hc as [Hc Hl].
      apply (proj1 (KeyFacts.string_keys_In _ _)) in Hc.
      exists c. split; [exact Hc|]. unfold has_label in Hl.
      destruct (dict_get CATEGORY_NAMES c) as [l'|] eqn:E'; [|discriminate].
      now rewrite (LabelFacts.get_category_label_known _ _ E') in E; subst.
Qed.

Lemma label_total :
  total (make_bq3_chart (map labelled vendor_df))
  = list_sum (map (category_count vendor_df)
                  (filter has_label (category_keys vendor_df))).
Proof.
  unfold total, make_bq3_chart, groupby_nunique_opt. rewrite map_map. cbn [snd].
  change (list_sum (map (label_count vendor_df) (label_keys vendor_df))
          = list_sum (map (category_count vendor_df)
                          (filter has_label (category_keys vendor_df)))).
  rewrite (list_sum_perm _ _ (Permutation_map (label_count vendor_df)
                                              label_keys_perm)).
  rewrite map_map. f_equal. apply map_ext_in. intros c Hc.
  apply filter_In in Hc as [_ Hl]. unfold has_label in Hl.
  destruct (dict_get CATEGORY_NAMES c) as [l|] eqn:E; [|discriminate].
  rewrite (LabelFacts.get_category_label_known _ _ E). now apply group_of_label.
Qed.

Lemma count_positive c :
  In c (category_keys vendor_df) -> 1 <= category_count vendor_df c.
Proof.
  intros Hc. apply (proj1 (KeyFacts.string_keys_In _ _)) in Hc.
  apply in_map_iff in Hc as (r & <- & Hr). unfold category_count, companies_of.
  apply nunique_positive. intros E. apply map_eq_nil in E.
  assert (In r (filter (fun r0 => String.eqb (Category r0) (Category r)) vendor_df))
    as Hin by (apply filter_In; split; [exact Hr | apply String.eqb_refl]).
  rewrite E in Hin. contradiction.
Qed.

End LabelGroups.

(** X20. BQ3 of the dashboard groups the vendors by the label of their
    category: it lists every label once, with the number of distinct
    companies of the one category that has the label. A row whose
    category has no label is in no group, so the counts add up to at
    most the total of the EDA script (the sum over all the categories),
    and to that total exactly when every category of the table has a
    label. *)
Theorem dashboard_bq3_groups_by_label (vendor_df : table) :
  let counts := make_bq3_chart (map labelled vendor_df) in
  let per_category :=
    map (category_count vendor_df) (category_keys vendor_df) in
  (forall l n,
      In (l, n) counts
      <-> exists c, In c (map Category vendor_df)
                    /\ dict_get CATEGORY_NAMES c = Some l
                    /\ n = category_count vendor_df c)
  /\ NoDup (map fst counts)
  /\ total counts <= list_sum per_category
  /\ (total counts = list_sum per_category
      <-> forall r, In r vendor_df -> has_label (Category r) = true).
Proof.
  intros counts per_category. subst counts per_category.
  split; [|split; [|split]].
  - intros l n. unfold make_bq3_chart.
    rewrite groupby_nunique_opt_In, label_of_row. split.
    + intros [(c & Hc & E) ->]. exists c. split; [exact Hc|]. split; [exact E|].
      now apply group_of_label.
    + intros (c & Hc & E & ->). split; [now exists c|].
      symmetry. now apply group_of_label.
  - unfold make_bq3_chart, groupby_nunique_opt. rewrite map_map. cbn [fst].
    rewrite map_id. apply KeyFacts.string_keys_NoDup.
  - rewrite label_total. apply list_sum_filter_le.
  - rewrite label_total, list_sum_filter_eq by apply count_positive. split.
    + intros H r Hr. apply H. apply KeyFacts.string_keys_In. now apply in_map.
    + intros H c Hc. apply (proj1 (KeyFacts.string_keys_In _ _)) in Hc.
      apply in_map_iff in Hc as (r & <- & Hr). now apply H.
Qed.

(* ------------------------------------------------------------------ *)
(** ** The figures of the header *)

Section KpiFacts.

Variable mean : list float -> float.

Lemma kpi_raise (vendor_df : list dash_row) (cat_df : list categorized_row) e :
  kpi_calculations mean vendor_df cat_df = Raise e <-> e = KeyMissing /\ cat_df = [].
Proof.
  unfold kpi_calculations. destruct (empty_or_not cat_df) as [->|Hne].
  - cbn [cat_column bind].
    split; [intros [= <-]; auto | intros [-> _]; reflexivity].
  - rewrite (cat_column_ok cat_df Industry Hne). cbn [bind].
    split; [discriminate | intros [_ H]; contradiction].
Qed.

(** X21. The figures of the dashboard's header are computed on every
    vendor table, and on every frame of categorized companies but the
    one without records, where the count of the industries raises
    [KeyError]. The IT vendors are at most as many as the vendors,
    which are at most as many as the rows; a table with rows has at
    least one vendor and one category; the industries are at least one
    and at most as many as the records. *)
Theorem kpi_figures (vendor_df : list dash_row) (cat_df : list categorized_row) :
  (forall e, kpi_calculations mean vendor_df cat_df = Raise e
             <-> e = KeyMissing /\ cat_df = [])
  /\ (forall k,
        kpi_calculations mean vendor_df cat_df = Ok k ->
        it_vendors k <= total_vendors k
        /\ total_vendors k <= length vendor_df
        /\ categories_count k <= length vendor_df
        /\ (vendor_df <> [] -> 1 <= total_vendors k /\ 1 <= categories_count k)
        /\ 1 <= industries_count k
        /\ industries_count k <= length cat_df).
Proof.
  split; [intros e; apply kpi_raise|].
  unfold kpi_calculations. destruct (empty_or_not cat_df) as [->|Hne];
    [discriminate|].
  rewrite (cat_column_ok cat_df Industry Hne). cbn [bind].
  intros k [= <-].
  cbn [it_vendors total_vendors categories_count industries_count].
  split; [|split; [|split; [|split; [|split]]]].
  - apply nunique_sub. intros x Hx. apply in_map_iff in Hx as (r & <- & Hr).
    apply filter_In in Hr as [Hr _].
    apply (in_map (fun r => Company (base r))). exact Hr.
  - rewrite <- (length_map (fun r => Company (base r)) vendor_df).
    apply nunique_le_length.
  - rewrite <- (length_map (fun r => Category (base r)) vendor_df).
    apply nunique_le_length.
  - intros Hv. split; apply nunique_positive; intros E; apply map_eq_nil in E;
      contradiction.
  - apply nunique_positive. intros E. apply map_eq_nil in E. contradiction.
  - rewrite <- (length_map Industry cat_df). apply nunique_le_length.
Qed.

(** X22. When the vendor workbook loads, the import of the dashboard
    fails with [KeyError] on exactly the categorized workbooks on which
    the loader of the EDA script does: those that can be read and hold
    no company. When the import succeeds, the header shows at most as
    many categories as the vendor workbook has retained sheets and at
    most as many industries as the other workbook has sheets. *)
Theorem dashboard_module_figures (float_str : float -> string)
        (sheets cat_sheets : list sheet) (vendor_df : list dash_row) :
  Dashboard.load_vendor_data float_str (Workbook sheets) = Ok vendor_df ->
  let imported :=
    dashboard_module mean float_str (Workbook sheets) (Workbook cat_sheets) in
  (imported = Raise KeyMissing
   <-> Eda.load_categorized_companies float_str (Workbook cat_sheets)
       = Raise KeyMissing)
  /\ (imported = Raise KeyMissing
      <-> Dashboard.load_categorized_companies float_str (Workbook cat_sheets)
          = Ok [])
  /\ (forall v c k,
        imported = Ok (v, c, k) ->
        v = vendor_df
        /\ Dashboard.load_categorized_companies float_str (Workbook cat_sheets) = Ok c
        /\ categories_count k <= length (filter retained sheets)
        /\ industries_count k <= length cat_sheets).
Proof.
  intros Hv imported. subst imported. unfold dashboard_module.
  rewrite Hv. cbn [bind].
  rewrite dash_cat_load_eq, eda_cat_load_eq.
  destruct (existsb short cat_sheets); cbn [bind].
  { split; [|split];
      [split; intros H; discriminate H | split; intros H; discriminate H
       | intros v c k H; discriminate H]. }
  set (cat_df := flat_map (cat_rows float_str) cat_sheets).
  assert (forall r, In r cat_df ->
                    In (Industry r)
                       (map (fun s => Str.strip (sheet_name s)) cat_sheets)) as Hind.
  { intros r Hr. apply in_flat_map in Hr as (s & Hs & Hr).
    apply cat_rows_In in Hr as (_ & _ & _ & _ & _ & _ & E & _).
    rewrite E. apply (in_map (fun s => Str.strip (sheet_name s))). exact Hs. }
  destruct (kpi_calculations mean vendor_df cat_df) as [k|e] eqn:K; cbn [bind].
  - assert (cat_df <> []) as Hne.
    { intros E.
      pose proof (proj2 (kpi_raise vendor_df cat_df KeyMissing)
                        (conj eq_refl E)) as X.
      rewrite K in X. discriminate X. }
    split; [|split].
    + split; [discriminate|]. destruct cat_df; [congruence | discriminate].
    + split; [discriminate|]. intros [= E]. congruence.
    + intros v c k' [= <- <- <-]. split; [reflexivity|]. split; [reflexivity|].
      split.
      * unfold kpi_calculations in K. rewrite (cat_column_ok _ _ Hne) in K.
        cbn [bind] in K. injection K as <-. cbn [categories_count].
        pose proof (loaded_category_count float_str sheets (map base vendor_df)) as L.
        rewrite map_map in L. apply L. right. right. now exists vendor_df.
      * unfold kpi_calculations in K. rewrite (cat_column_ok _ _ Hne) in K.
        cbn [bind] in K. injection K as <-. cbn [industries_count].
        rewrite <- (length_map (fun s => Str.strip (sheet_name s)) cat_sheets).
        apply nunique_incl. intros i Hi. apply in_map_iff in Hi as (r & <- & Hr).
        now apply Hind.
  - apply (proj1 (kpi_raise vendor_df cat_df e)) in K as [-> E].
    rewrite E.
    split; [|split];
      [split; reflexivity | split; reflexivity | intros v c k H; discriminate H].
Qed.

End KpiFacts.

Lemma dashboard_module_figures_witness :
  Dashboard.load_vendor_data no_float_str (Workbook wide_sheets)
  = Ok (map labelled wide_table)
  /\ dashboard_module (fun _ => Float.zero) no_float_str
                      (Workbook wide_sheets) (Workbook empty_lists_sheets)
     = Raise KeyMissing.
Proof.
  assert (Dashboard.load_vendor_data no_float_str (Workbook wide_sheets)
          = Ok (map labelled wide_table)) as L by (vm_compute; reflexivity).
  split; [exact L|].
  apply (proj1 (proj2 (dashboard_module_figures (fun _ => Float.zero) no_float_str
                         wide_sheets empty_lists_sheets _ L))).
  vm_compute. reflexivity.
Defined.

(* ------------------------------------------------------------------ *)
(** ** The IT filter of the dashboard *)

Lemma take_In {A} (idx : list nat) (l : list A) x : In x (take idx l) -> In x l.
Proof.
  unfold take. rewrite in_flat_map. intros (i & _ & H).
  destruct (nth_error l i) as [a|] eqn:E; [|contradiction].
  destruct H as [<-|[]]. now apply nth_error_In in E.
Qed.

Lemma bq1_bar_origin (argsort : list float -> list nat) (it_filter : string)
      (vendor_df : list dash_row) g :
  In g (make_bq1_chart argsort it_filter vendor_df) ->
  exists r, In r vendor_df /\ dash_eligible r
            /\ Company (base r) = d1_Company g
            /\ Category_Label r = Some (d1_Category_Label g)
            /\ In (Category (base r))
                  (if String.eqb it_filter "All" then IT_CATEGORIES else [it_filter]).
Proof.
  unfold make_bq1_chart, tail, sort_values. intros H.
  apply In_skipn, take_In in H.
  set (it_cats := if String.eqb it_filter "All" then IT_CATEGORIES else [it_filter]) in *.
  assert (Forall (fun r : capped dash_row => Float.isnan (SDO_Capped r) = false)
                 (filter (fun r => isin it_cats (Category (base (row r))))
                         (vendor_with_sdo vendor_df))) as Hn.
  { apply Forall_forall. intros c Hc. apply filter_In in Hc as [Hc _].
    apply vendor_with_sdo_In in Hc as (r & _ & He & ->). cbn [SDO_Capped].
    apply CapFacts.cap_not_nan. apply He. }
  destruct (dash_bq1_group_spec _ g Hn H) as (_ & (c & Hc & E1 & E2 & _) & _).
  apply filter_In in Hc as [Hc Hcat]. apply isin_In in Hcat.
  apply vendor_with_sdo_In in Hc as (r & Hr & He & ->). cbn [row] in *.
  exists r. auto.
Qed.

(** X23. The callback of the IT filter asks for the chart of all the IT
    categories when the drop-down hands over nothing or the empty text,
    and for the chart of the text it hands over otherwise. Every bar of
    the chart of 'All' belongs to a row of the table in one of the
    three IT categories; every bar of the chart of another text belongs
    to a row whose category is that very text, whatever the text. *)
Theorem it_filter_selects_the_category
        (argsort : list float -> list nat) (vendor_df : list dash_row) :
  update_bq1 argsort None vendor_df = make_bq1_chart argsort "All" vendor_df
  /\ update_bq1 argsort (Some ""%string) vendor_df
     = make_bq1_chart argsort "All" vendor_df
  /\ (forall f, f <> ""%string ->
                update_bq1 argsort (Some f) vendor_df
                = make_bq1_chart argsort f vendor_df)
  /\ (forall g,
        In g (make_bq1_chart argsort "All" vendor_df) ->
        exists r, In r vendor_df /\ dash_eligible r
                  /\ Company (base r) = d1_Company g
                  /\ Category_Label r = Some (d1_Category_Label g)
                  /\ In (Category (base r)) IT_CATEGORIES)
  /\ (forall f g,
        f <> "All"%string ->
        In g (make_bq1_chart argsort f vendor_df) ->
        exists r, In r vendor_df /\ dash_eligible r
                  /\ Company (base r) = d1_Company g
                  /\ Category_Label r = Some (d1_Category_Label g)
                  /\ Category (base r) = f).
Proof.
  split; [reflexivity|]. split; [reflexivity|]. split; [|split].
  - intros f Hf. unfold update_bq1.
    destruct (String.eqb_spec f ""); [contradiction | reflexivity].
  - intros g Hg. exact (bq1_bar_origin argsort "All" vendor_df g Hg).
  - intros f g Hf Hg.
    destruct (bq1_bar_origin argsort f vendor_df g Hg)
      as (r & Hr & He & E1 & E2 & Hc).
    destruct (String.eqb_spec f "All") as [->|_]; [contradiction|].
    destruct Hc as [Hc|[]]. exists r. auto 6.
Qed.
